(** * image_resizer: dimension resolution, transcoding and batch driver

    A shallow embedding of [src/image_resizer.py].  Python integers are [Z],
    Python floats are IEEE 754 binary64 values ([spec_float] at precision 53,
    maximal exponent 1024), exceptions are an explicit error type, and the
    services of Pillow and of the operating system are the fields of an
    environment the functions are parameterised by. *)

From Stdlib Require Import ZArith QArith Qround Qpower Lia Lqa.
From Stdlib Require Import Bool List String Ascii.
From Stdlib Require Import Floats.SpecFloat.
Import ListNotations.

Local Open Scope Z_scope.

(** ** Exceptions and results *)

Inductive exn : Type :=
| ZeroDivisionError
| OverflowError
| ValueError
| SystemExit (msg : string)
| OtherError (msg : string).

Inductive result (A : Type) : Type :=
| Ok (a : A)
| Raise (e : exn).
Arguments Ok {A} a.
Arguments Raise {A} e.

Definition bind {A B : Type} (r : result A) (k : A -> result B) : result B :=
  match r with
  | Ok a => k a
  | Raise e => Raise e
  end.

Notation "x <- r ;; k" := (bind r (fun x => k))
  (at level 61, r at next level, right associativity).

(** ** Python floats

    A [float] is a binary64 number.  CPython rounds [int / int] once, from
    the exact quotient, and raises [OverflowError] when the result is too
    large; in [int * float] and [int / float] the [int] is first converted
    to the nearest double (again [OverflowError] when too large), and the
    operation on doubles is the IEEE one, except that dividing by zero
    raises [ZeroDivisionError]. *)

Module PyFloat.

Definition prec : Z := 53.
Definition emax : Z := 1024.

Definition float : Type := spec_float.

(** A finite result is returned, an overflow raises [OverflowError]. *)
Definition checked (f : float) : result float :=
  match f with
  | S754_infinity _ => Raise OverflowError
  | _ => Ok f
  end.

(** [float(n)] for an [int] operand of a mixed operation: the nearest
    double, ties to even. *)
Definition of_int (n : Z) : result float :=
  checked (binary_normalize prec emax n 0 false).

(** The integer [n] as an unrounded mantissa with exponent 0. *)
Definition exact_int (n : Z) : float :=
  match n with
  | Z0 => S754_zero false
  | Zpos p => S754_finite false p 0
  | Zneg p => S754_finite true p 0
  end.

(** [a / b] on two [int]s: the quotient is rounded once, from the exact
    rational. *)
Definition int_truediv (a b : Z) : result float :=
  if b =? 0 then Raise ZeroDivisionError
  else if a =? 0 then Ok (S754_zero (b <? 0))
  else checked (SFdiv prec emax (exact_int a) (exact_int b)).

Definition is_zero (f : float) : bool :=
  match f with
  | S754_zero _ => true
  | _ => false
  end.

(** [n * x] with [n] an [int] and [x] a [float]. *)
Definition int_mul_float (n : Z) (x : float) : result float :=
  fn <- of_int n ;;
  Ok (SFmul prec emax fn x).

(** [n / x] with [n] an [int] and [x] a [float]. *)
Definition int_div_float (n : Z) (x : float) : result float :=
  fn <- of_int n ;;
  if is_zero x then Raise ZeroDivisionError
  else Ok (SFdiv prec emax fn x).

(** [x > y]. *)
Definition gt (x y : float) : bool := SFltb y x.

(** [int(x)]: truncation toward zero. *)
Definition to_int (x : float) : result Z :=
  match x with
  | S754_zero _ => Ok 0
  | S754_finite s m e => Ok (cond_Zopp s (Z.shiftl (Zpos m) e))
  | S754_infinity _ => Raise OverflowError
  | S754_nan => Raise ValueError
  end.

End PyFloat.

(** ** Dimension resolution (resize_image, lines 70-100) *)

(** Truth value of an optional [int] argument: [None] and [0] are false. *)
Definition truthy (x : option Z) : bool :=
  match x with
  | Some n => negb (n =? 0)
  | None => false
  end.

(** The value of an argument that passed the truth test. *)
Definition arg (x : option Z) : Z :=
  match x with
  | Some n => n
  | None => 0
  end.

(** [None] is the branch that warns and returns [False]; otherwise the pair
    is [(new_width, new_height)]. *)
Definition new_dimensions (original_width original_height : Z)
    (width height : option Z) (maintain_aspect : bool)
  : result (option (Z * Z)) :=
  if truthy width && truthy height then
    let width := arg width in
    let height := arg height in
    if maintain_aspect then
      aspect_ratio <- PyFloat.int_truediv original_width original_height ;;
      target_ratio <- PyFloat.int_truediv width height ;;
      if PyFloat.gt target_ratio aspect_ratio then
        let new_height := height in
        scaled <- PyFloat.int_mul_float height aspect_ratio ;;
        new_width <- PyFloat.to_int scaled ;;
        Ok (Some (new_width, new_height))
      else
        let new_width := width in
        scaled <- PyFloat.int_div_float width aspect_ratio ;;
        new_height <- PyFloat.to_int scaled ;;
        Ok (Some (new_width, new_height))
    else
      Ok (Some (width, height))
  else if truthy width then
    let width := arg width in
    aspect_ratio <- PyFloat.int_truediv original_height original_width ;;
    let new_width := width in
    scaled <- PyFloat.int_mul_float width aspect_ratio ;;
    new_height <- PyFloat.to_int scaled ;;
    Ok (Some (new_width, new_height))
  else if truthy height then
    let height := arg height in
    aspect_ratio <- PyFloat.int_truediv original_width original_height ;;
    let new_height := height in
    scaled <- PyFloat.int_mul_float height aspect_ratio ;;
    new_width <- PyFloat.to_int scaled ;;
    Ok (Some (new_width, new_height))
  else
    Ok None.

(** ** Strings: case conversion and path handling *)

Local Open Scope string_scope.

Definition upper_ascii (c : ascii) : ascii :=
  let n := nat_of_ascii c in
  if (97 <=? n)%nat && (n <=? 122)%nat then ascii_of_nat (n - 32) else c.

Definition lower_ascii (c : ascii) : ascii :=
  let n := nat_of_ascii c in
  if (65 <=? n)%nat && (n <=? 90)%nat then ascii_of_nat (n + 32) else c.

Fixpoint map_string (f : ascii -> ascii) (s : string) : string :=
  match s with
  | EmptyString => EmptyString
  | String c rest => String (f c) (map_string f rest)
  end.

(** [s.upper()] and [s.lower()] on ASCII text. *)
Definition upper : string -> string := map_string upper_ascii.
Definition lower : string -> string := map_string lower_ascii.

(** [s in l]. *)
Definition string_in (s : string) (l : list string) : bool :=
  existsb (String.eqb s) l.

(** [os.path] on a POSIX system: the separator is ["/"]. *)
Module OsPath.

(** Index just past the last ["/"] of [p], counting from [i]. *)
Fixpoint after_last_sep (p : string) (i : nat) (acc : nat) : nat :=
  match p with
  | EmptyString => acc
  | String c rest =>
    after_last_sep rest (S i) (if Ascii.eqb c "/" then S i else acc)
  end.

Fixpoint last_dot (p : string) (i : nat) (acc : option nat) : option nat :=
  match p with
  | EmptyString => acc
  | String c rest =>
    last_dot rest (S i) (if Ascii.eqb c "." then Some i else acc)
  end.

Definition drop (n : nat) (s : string) : string :=
  substring n (String.length s - n) s.

Definition take (n : nat) (s : string) : string := substring 0 n s.

Definition basename (p : string) : string :=
  drop (after_last_sep p 0 0) p.

(** Is some character of [p] at an index in [[i, j)] not a dot? *)
Definition non_dot_between (p : string) (i j : nat) : bool :=
  existsb (fun c => negb (Ascii.eqb c "."))
          (list_ascii_of_string (substring i (j - i) p)).

(** [os.path.splitext]: the extension starts at the last dot of the last
    component, leading dots of that component excepted. *)
Definition splitext (p : string) : string * string :=
  let sep := after_last_sep p 0 0 in
  match last_dot p 0 None with
  | Some d =>
    if (sep <=? d)%nat && non_dot_between p sep d
    then (take d p, drop d p)
    else (p, EmptyString)
  | None => (p, EmptyString)
  end.

Definition ends_with_sep (a : string) : bool :=
  match get (String.length a - 1) a with
  | Some c => Ascii.eqb c "/"
  | None => false
  end.

Definition starts_with_sep (b : string) : bool :=
  match b with
  | String c _ => Ascii.eqb c "/"
  | EmptyString => false
  end.

Definition join (a b : string) : string :=
  if starts_with_sep b then b
  else if (String.length a =? 0)%nat || ends_with_sep a then a ++ b
  else a ++ "/" ++ b.

End OsPath.

(** ** Images *)

Local Open Scope Z_scope.

Definition rgb : Type := Z * Z * Z.
Definition rgba : Type := Z * Z * Z * Z.

(** Colour modes whose pixels the resizer never inspects. *)
Inductive other_mode : Type :=
| Mode1 | ModeCMYK | ModeYCbCr | ModeLAB | ModeHSV | ModeI | ModeF
| ModePA | ModeRGBX | ModeRGBa | ModeLa | ModeI16.

Definition other_mode_name (m : other_mode) : string :=
  match m with
  | Mode1 => "1" | ModeCMYK => "CMYK" | ModeYCbCr => "YCbCr"
  | ModeLAB => "LAB" | ModeHSV => "HSV" | ModeI => "I" | ModeF => "F"
  | ModePA => "PA" | ModeRGBX => "RGBX" | ModeRGBa => "RGBa"
  | ModeLa => "La" | ModeI16 => "I;16"
  end.

(** The pixel data of an image, by colour mode.  A palette entry carries the
    alpha its index has under the image's transparency information (255 when
    there is none). *)
Inductive raster : Type :=
| RasterL (px : list Z)
| RasterLA (px : list (Z * Z))
| RasterP (palette : list rgba) (px : list nat)
| RasterRGB (px : list rgb)
| RasterRGBA (px : list rgba)
| RasterOther (m : other_mode) (px : list (list Z)).

Record image : Type := mkImage {
  size : Z * Z;
  format : option string;
  data : raster
}.

Definition mode (im : image) : string :=
  match data im with
  | RasterL _ => "L"
  | RasterLA _ => "LA"
  | RasterP _ _ => "P"
  | RasterRGB _ => "RGB"
  | RasterRGBA _ => "RGBA"
  | RasterOther m _ => other_mode_name m
  end.

Definition pixel_count (r : raster) : nat :=
  match r with
  | RasterL px => List.length px
  | RasterLA px => List.length px
  | RasterP _ px => List.length px
  | RasterRGB px => List.length px
  | RasterRGBA px => List.length px
  | RasterOther _ px => List.length px
  end.

(** The raster has one pixel per position of the image. *)
Definition well_formed (im : image) : Prop :=
  pixel_count (data im) = Z.to_nat (fst (size im) * snd (size im)).

(** The operations of Pillow the resizer calls on pixels, on rasters of the
    five modes it can meet there. *)
Module Pillow.

Definition white : rgb := (255, 255, 255).

(** [Image.new('RGB', size, color)]. *)
Definition new_rgb (sz : Z * Z) (color : rgb) : image :=
  mkImage sz None (RasterRGB (repeat color (Z.to_nat (fst sz * snd sz)))).

(** [im.convert('RGBA')]: a palette index is looked up (an index past the
    palette is opaque black), a grey level or a colour is made opaque. *)
Definition convert_rgba (im : image) : image :=
  let px :=
    match data im with
    | RasterP palette px => map (fun i => nth i palette (0, 0, 0, 255)) px
    | RasterL px => map (fun l => (l, l, l, 255)) px
    | RasterLA px => map (fun '(l, a) => (l, l, l, a)) px
    | RasterRGB px => map (fun '(r, g, b) => (r, g, b, 255)) px
    | RasterRGBA px => px
    | RasterOther _ _ => []
    end in
  mkImage (size im) None (RasterRGBA px).

(** [im.split()[-1]]: the last band. *)
Definition last_band (im : image) : list Z :=
  match data im with
  | RasterL px => px
  | RasterLA px => map snd px
  | RasterP _ px => map Z.of_nat px
  | RasterRGB px => map snd px
  | RasterRGBA px => map snd px
  | RasterOther _ px => map (fun bands => last bands 0) px
  end.

(** The first three bytes a pixel is stored in, which is what an RGB
    destination receives from a source pasted as it is: a grey level fills
    all three.  (A palette image is converted before it is pasted.) *)
Definition colour_bytes (im : image) : list rgb :=
  match data im with
  | RasterL px => map (fun l => (l, l, l)) px
  | RasterLA px => map (fun '(l, _) => (l, l, l)) px
  | RasterRGB px => px
  | RasterRGBA px => map fst px
  | RasterP _ _ | RasterOther _ _ => []
  end.

(** Division by 255 with rounding, as the paste routine does it. *)
Definition div255 (a : Z) : Z :=
  let tmp := a + 128 in
  Z.shiftr (Z.shiftr tmp 8 + tmp) 8.

Definition blend8 (mask in1 in2 : Z) : Z :=
  div255 (in1 * (255 - mask) + in2 * mask).

Definition blend (mask : Z) (dst src : rgb) : rgb :=
  let '(dr, dg, db) := dst in
  let '(sr, sg, sb) := src in
  (blend8 mask dr sr, blend8 mask dg sg, blend8 mask db sb).

Fixpoint map2 {A B : Type} (f : A -> B -> A) (dst : list A) (src : list B)
  : list A :=
  match dst, src with
  | d :: dst', s :: src' => f d s :: map2 f dst' src'
  | _, _ => dst
  end.

(** [dst.paste(src, mask=mask)] for an RGB destination and a source of the
    same size: without a mask the source overwrites the destination, with
    one each channel is blended by the mask. *)
Definition paste (dst src : image) (mask : option (list Z)) : image :=
  match data dst with
  | RasterRGB px =>
    let px' :=
      match mask with
      | None => map2 (fun _ s => s) px (colour_bytes src)
      | Some m =>
        map2 (fun d '(s, a) => blend a d s) px (combine (colour_bytes src) m)
      end in
    mkImage (size dst) (format dst) (RasterRGB px')
  | _ => dst
  end.

End Pillow.

(** Colour-mode normalisation before a JPEG is written (lines 112-117). *)
Definition jpeg_rgb (resized_img : image) : image :=
  if string_in (mode resized_img) ["RGBA"; "LA"; "P"]%string then
    let rgb_img := Pillow.new_rgb (size resized_img) Pillow.white in
    let resized_img :=
      if String.eqb (mode resized_img) "P"
      then Pillow.convert_rgba resized_img
      else resized_img in
    let rgb_img :=
      Pillow.paste rgb_img resized_img
        (if String.eqb (mode resized_img) "RGBA"
         then Some (Pillow.last_band resized_img)
         else None) in
    rgb_img
  else resized_img.

(** [output_format.upper() in ['JPEG', 'JPG']]. *)
Definition is_jpeg (output_format : string) : bool :=
  string_in (upper output_format) ["JPEG"; "JPG"]%string.

(** Keyword arguments of [save]. *)
Record save_options : Type := mkOptions {
  opt_quality : Z;
  opt_optimize : bool
}.

(** ** Environment: Pillow's codecs and the file system

    What is printed is kept as a list of messages; decoding, resampling,
    encoding and the file system are the fields of an environment, about
    which nothing is assumed. *)

Inductive message : Type :=
| MsgFolderMissing (folder : string)
| MsgNoDimensions (input_path : string)
| MsgResized (name : string) (original new : Z * Z)
| MsgError (input_path : string) (e : exn)
| MsgNoImages (folder : string)
| MsgFound (n : nat) (folder : string)
| MsgOutputFolder (folder : string)
| MsgTargetSize (width height : option Z)
| MsgMaintainAspect (b : bool)
| MsgRule
| MsgCompleted (n : Z)
| MsgFailed (n : Z).

Record Env : Type := mkEnv {
  fs : Type;
  path_exists : fs -> string -> bool;
  isfile : fs -> string -> bool;
  listdir : fs -> string -> result (list string);
  makedirs : fs -> string -> result fs;
  (** [Image.open] *)
  image_open : fs -> string -> result image;
  (** [img.resize(size, LANCZOS)] *)
  image_resize : image -> Z * Z -> result image;
  (** [img.save(path, format=..., **options)]; the file system it leaves
      behind is returned also when it raises. *)
  image_save : fs -> image -> string -> string -> option save_options
               -> fs * result unit
}.

(** ** The program, over an environment *)

Record summary : Type := mkSummary {
  total : Z;
  success : Z;
  failed : Z
}.

Record cli_args : Type := mkArgs {
  args_input : string;
  args_output : string;
  args_width : option Z;
  args_height : option Z;
  args_no_aspect : bool;
  args_quality : Z;
  args_format : option string;
  args_prefix : string;
  args_suffix : string
}.

Section Program.

Variable E : Env.

(** What a call acts on: the file system and the text printed so far. *)
Record world : Type := mkWorld {
  files : fs E;
  printed : list message
}.

(** Computations that read and change the world and may raise. *)
Definition M (A : Type) : Type := world -> result A * world.

Definition ret {A : Type} (a : A) : M A := fun w => (Ok a, w).

Definition raise {A : Type} (e : exn) : M A := fun w => (Raise e, w).

Definition mbind {A B : Type} (m : M A) (k : A -> M B) : M B :=
  fun w =>
    match m w with
    | (Ok a, w') => k a w'
    | (Raise e, w') => (Raise e, w')
    end.

Notation "x <~ m ;; k" := (mbind m (fun x => k))
  (at level 61, m at next level, right associativity).
Notation "m ;;; k" := (mbind m (fun _ => k))
  (at level 61, right associativity).

Definition lift {A : Type} (r : result A) : M A := fun w => (r, w).

Definition print (msg : message) : M unit :=
  fun w => (Ok tt, mkWorld (files w) (printed w ++ [msg])%list).

Definition read_fs {A : Type} (f : fs E -> A) : M A :=
  fun w => (Ok (f (files w)), w).

(** [try: body except Exception as e: handler e]. *)
Definition try_except {A : Type} (body : M A) (handler : exn -> M A) : M A :=
  fun w =>
    match body w with
    | (Ok a, w') => (Ok a, w')
    | (Raise e, w') => handler e w'
    end.

Definition default_extensions : list string :=
  [".jpg"; ".jpeg"; ".png"; ".bmp"; ".gif"; ".tiff"; ".webp"]%string.

(** The [for] loop of lines 38-43. *)
Fixpoint collect_images (folder_path : string) (extensions : list string)
    (names : list string) (image_files : list string) : M (list string) :=
  match names with
  | [] => ret image_files
  | filename :: rest =>
    let file_path := OsPath.join folder_path filename in
    is_file <~ read_fs (fun f => isfile E f file_path) ;;
    let image_files :=
      if is_file then
        let '(_, ext) := OsPath.splitext filename in
        if string_in (lower ext) extensions
        then (image_files ++ [file_path])%list
        else image_files
      else image_files in
    collect_images folder_path extensions rest image_files
  end.

(** Lines 18-45. *)
Definition get_images_from_folder (folder_path : string)
    (extensions : option (list string)) : M (list string) :=
  let extensions :=
    match extensions with
    | None => default_extensions
    | Some l => l
    end in
  let image_files := [] in
  found <~ read_fs (fun f => path_exists E f folder_path) ;;
  if negb found then
    print (MsgFolderMissing folder_path) ;;;
    ret image_files
  else
    names <~ (fun w => (listdir E (files w) folder_path, w)) ;;
    collect_images folder_path extensions names image_files.

(** [img.format or 'PNG']. *)
Definition format_or_png (img : image) : string :=
  match format img with
  | Some f => if (String.length f =? 0)%nat then "PNG"%string else f
  | None => "PNG"%string
  end.

(** Lines 106-107: the format the image is written in. *)
Definition effective_format (output_format : option string) (img : image)
  : string :=
  match output_format with
  | None => format_or_png img
  | Some f => f
  end.

Definition save (img : image) (output_path output_format : string)
    (options : option save_options) : M unit :=
  fun w =>
    let '(f, r) := image_save E (files w) img output_path output_format options in
    (r, mkWorld f (printed w)).

(** Lines 109-120: the image is written. *)
Definition save_resized (resized_img : image)
    (output_path output_format : string) (quality : Z) : M unit :=
  if is_jpeg output_format then
    let resized_img := jpeg_rgb resized_img in
    save resized_img output_path output_format
         (Some (mkOptions quality true))
  else
    save resized_img output_path output_format None.

(** Lines 48-128. *)
Definition resize_image (input_path output_path : string)
    (width height : option Z) (maintain_aspect : bool) (quality : Z)
    (output_format : option string) : M bool :=
  try_except
    (img <~ (fun w => (image_open E (files w) input_path, w)) ;;
     let '(original_width, original_height) := size img in
     dims <~ lift (new_dimensions original_width original_height
                                  width height maintain_aspect) ;;
     match dims with
     | None =>
       print (MsgNoDimensions input_path) ;;;
       ret false
     | Some (new_width, new_height) =>
       resized_img <~ lift (image_resize E img (new_width, new_height)) ;;
       let output_format := effective_format output_format img in
       save_resized resized_img output_path output_format quality ;;;
       print (MsgResized (OsPath.basename input_path)
                         (original_width, original_height)
                         (new_width, new_height)) ;;;
       ret true
     end)
    (fun e =>
       print (MsgError input_path e) ;;;
       ret false).

(** Truth value of the optional format: [None] and the empty string are
    false. *)
Definition format_given (output_format : option string) : bool :=
  match output_format with
  | Some f => negb (String.length f =? 0)%nat
  | None => false
  end.

(** Lines 171-185: where the resized copy of [image_path] goes. *)
Definition output_name (image_path : string) (output_format : option string)
    (prefix suffix : string) : string :=
  let filename := OsPath.basename image_path in
  let '(name, ext) := OsPath.splitext filename in
  let output_ext :=
    if format_given output_format then
      let f := match output_format with Some f => f | None => EmptyString end in
      if is_jpeg f then ".jpg"%string
      else ("." ++ lower f)%string
    else ext in
  (prefix ++ name ++ suffix ++ output_ext)%string.

(** The [for] loop of lines 170-192, with its two counters. *)
Fixpoint resize_each (image_files : list string) (output_folder : string)
    (width height : option Z) (maintain_aspect : bool) (quality : Z)
    (output_format : option string) (prefix suffix : string)
    (success_count failed_count : Z) : M (Z * Z) :=
  match image_files with
  | [] => ret (success_count, failed_count)
  | image_path :: rest =>
    let output_filename := output_name image_path output_format prefix suffix in
    let output_path := OsPath.join output_folder output_filename in
    ok <~ resize_image image_path output_path width height
                       maintain_aspect quality output_format ;;
    if ok
    then resize_each rest output_folder width height maintain_aspect quality
                     output_format prefix suffix (success_count + 1) failed_count
    else resize_each rest output_folder width height maintain_aspect quality
                     output_format prefix suffix success_count (failed_count + 1)
  end.

(** [width or 'auto']. *)
Definition or_auto (x : option Z) : option Z :=
  if truthy x then x else None.

(** Lines 157-203: what is done with the files found. *)
Definition resize_listed (image_files : list string)
    (input_folder output_folder : string)
    (width height : option Z) (maintain_aspect : bool) (quality : Z)
    (output_format : option string) (prefix suffix : string) : M summary :=
  match image_files with
  | [] =>
    print (MsgNoImages input_folder) ;;;
    ret (mkSummary 0 0 0)
  | _ =>
    print (MsgFound (List.length image_files) input_folder) ;;;
    print (MsgOutputFolder output_folder) ;;;
    print (MsgTargetSize (or_auto width) (or_auto height)) ;;;
    print (MsgMaintainAspect maintain_aspect) ;;;
    print MsgRule ;;;
    counts <~ resize_each image_files output_folder width height
                          maintain_aspect quality output_format
                          prefix suffix 0 0 ;;
    let '(success_count, failed_count) := counts in
    print MsgRule ;;;
    print (MsgCompleted success_count) ;;;
    (if 0 <? failed_count then print (MsgFailed failed_count) else ret tt) ;;;
    ret (mkSummary (Z.of_nat (List.length image_files))
                   success_count failed_count)
  end.

(** Lines 131-203. *)
Definition batch_resize_images (input_folder output_folder : string)
    (width height : option Z) (maintain_aspect : bool) (quality : Z)
    (output_format : option string) (prefix suffix : string) : M summary :=
  (fun w =>
     match makedirs E (files w) output_folder with
     | Ok f => (Ok tt, mkWorld f (printed w))
     | Raise e => (Raise e, w)
     end) ;;;
  image_files <~ get_images_from_folder input_folder None ;;
  resize_listed image_files input_folder output_folder width height
                maintain_aspect quality output_format prefix suffix.

(** [main] (lines 206-267), from the parsed arguments on.  [parser.error]
    leaves the program. *)
Definition main (args : cli_args) : M unit :=
  if negb (truthy (args_width args)) && negb (truthy (args_height args)) then
    raise (SystemExit
      "At least one of --width or --height must be specified")
  else if (args_quality args <? 1) || (100 <? args_quality args) then
    raise (SystemExit "Quality must be between 1 and 100")
  else
    batch_resize_images (args_input args) (args_output args)
      (args_width args) (args_height args) (negb (args_no_aspect args))
      (args_quality args) (args_format args)
      (args_prefix args) (args_suffix args) ;;;
    ret tt.

End Program.

(** ** A small concrete environment

    A disk is a list of paths with what the file holds: an image Pillow can
    read, or bytes it cannot.  It serves to run the program on examples. *)

Module Sample.

Definition disk : Type := list (string * option image).

Definition lookup (d : disk) (p : string) : option (option image) :=
  match find (fun entry => String.eqb (fst entry) p) d with
  | Some entry => Some (snd entry)
  | None => None
  end.

Definition inside (folder : string) (p : string) : bool :=
  String.prefix (folder ++ "/") p.

Definition disk_exists (d : disk) (folder : string) : bool :=
  existsb (fun entry => inside folder (fst entry)) d.

Definition disk_isfile (d : disk) (p : string) : bool :=
  match lookup d p with
  | Some _ => true
  | None => false
  end.

Definition disk_listdir (d : disk) (folder : string) : result (list string) :=
  Ok (map (fun entry => OsPath.drop (S (String.length folder)) (fst entry))
          (filter (fun entry => inside folder (fst entry)) d)).

Definition disk_open (d : disk) (p : string) : result image :=
  match lookup d p with
  | Some (Some img) => Ok img
  | _ => Raise (OtherError "cannot identify image file")
  end.

(** A stand-in for resampling: the first pixel fills the new raster. *)
Definition fill {A : Type} (px : list A) (n : nat) : list A :=
  match px with
  | p :: _ => repeat p n
  | [] => []
  end.

Definition resample (r : raster) (n : nat) : raster :=
  match r with
  | RasterL px => RasterL (fill px n)
  | RasterLA px => RasterLA (fill px n)
  | RasterP palette px => RasterP palette (fill px n)
  | RasterRGB px => RasterRGB (fill px n)
  | RasterRGBA px => RasterRGBA (fill px n)
  | RasterOther m px => RasterOther m (fill px n)
  end.

Definition resize (img : image) (sz : Z * Z) : result image :=
  let '(w, h) := sz in
  if (w <? 1) || (h <? 1) then Raise ValueError
  else Ok (mkImage sz None (resample (data img) (Z.to_nat (w * h)))).

Definition encoders : list string :=
  ["JPEG"; "PNG"; "BMP"; "WEBP"; "TIFF"; "GIF"]%string.

Definition disk_save (d : disk) (img : image) (p fmt : string)
    (options : option save_options) : disk * result unit :=
  if string_in (upper fmt) encoders then
    ((p, Some (mkImage (size img) (Some (upper fmt)) (data img)))
       :: filter (fun entry => negb (String.eqb (fst entry) p)) d,
     Ok tt)
  else (d, Raise (OtherError "unknown file format")).

Definition env : Env :=
  mkEnv disk disk_exists disk_isfile disk_listdir (fun d _ => Ok d)
        disk_open resize disk_save.

Definition start (d : disk) : world env := mkWorld env d [].

Definition grey_image : image := mkImage (4, 2) (Some "PNG"%string)
  (RasterL [10; 20; 30; 40; 50; 60; 70; 80]).

Definition photo : image := mkImage (2, 1) (Some "JPEG"%string)
  (RasterRGB [(1, 2, 3); (4, 5, 6)]).

Definition shelf : disk :=
  [("in/a.png", Some grey_image); ("in/notes.txt", None);
   ("in/broken.gif", None); ("in/photo.jpeg", Some photo)]%string.

(** Two runs over the folder ["in"]: thumbnails 2 pixels wide, named with the
    prefix ["t_"], and a call that gives no dimension at all. *)
Definition thumbnails : result summary * world env :=
  batch_resize_images env "in" "out" (Some 2) None true 95 None
                      "t_" EmptyString (start shelf).

Definition without_dimensions : result summary * world env :=
  batch_resize_images env "in" "out" None None true 95 None
                      EmptyString EmptyString (start shelf).

End Sample.

(** ** The output name as the specification words it *)

Module Spec.

(** "set": given and not empty. *)
Definition is_set (x : option string) : bool :=
  match x with
  | Some s => negb (String.length s =? 0)%nat
  | None => false
  end.

Definition value (x : option string) : string :=
  match x with
  | Some s => s
  | None => EmptyString
  end.

(** effectiveFormat = request.outputFormat if set else image.nativeFormat if
    set else PNG. *)
Definition effective_format (output_format native_format : option string)
  : string :=
  if is_set output_format then value output_format
  else if is_set native_format then value native_format
  else "PNG"%string.

(** JPEG/JPG maps to [.jpg], others to [.<lowercase format name>]. *)
Definition extension_for (fmt : string) : string :=
  if string_in (upper fmt) ["JPEG"; "JPG"]%string then ".jpg"%string
  else ("." ++ lower fmt)%string.

(** outputFilename = prefix + originalStem + suffix +
    extensionFor(effectiveFormat). *)
Definition output_filename (prefix stem suffix : string)
    (output_format native_format : option string) : string :=
  (prefix ++ stem ++ suffix
     ++ extension_for (effective_format output_format native_format))%string.

End Spec.

(** ** Runs of the batch loop *)

(** [attempt w ok w']: one call of [resize_image] (lines 65-128), started in
    [w], returns [ok] and leaves [w'].  There is a rule for each way through
    the [try] block: whatever is raised inside it is caught, printed, and
    answered by [False]. *)
Inductive attempt (E : Env) (input_path output_path : string)
    (width height : option Z) (maintain_aspect : bool) (quality : Z)
    (output_format : option string) (w : world E)
  : bool -> world E -> Prop :=
| attempt_unreadable (e : exn) :
    image_open E (files E w) input_path = Raise e ->
    attempt E input_path output_path width height maintain_aspect quality
            output_format w false
            (mkWorld E (files E w)
                     (printed E w ++ [MsgError input_path e])%list)
| attempt_no_dimensions (img : image) :
    image_open E (files E w) input_path = Ok img ->
    new_dimensions (fst (size img)) (snd (size img)) width height
                   maintain_aspect = Ok None ->
    attempt E input_path output_path width height maintain_aspect quality
            output_format w false
            (mkWorld E (files E w)
                     (printed E w ++ [MsgNoDimensions input_path])%list)
| attempt_no_size (img : image) (e : exn) :
    image_open E (files E w) input_path = Ok img ->
    new_dimensions (fst (size img)) (snd (size img)) width height
                   maintain_aspect = Raise e ->
    attempt E input_path output_path width height maintain_aspect quality
            output_format w false
            (mkWorld E (files E w)
                     (printed E w ++ [MsgError input_path e])%list)
| attempt_not_resized (img : image) (new_width new_height : Z) (e : exn) :
    image_open E (files E w) input_path = Ok img ->
    new_dimensions (fst (size img)) (snd (size img)) width height
                   maintain_aspect = Ok (Some (new_width, new_height)) ->
    image_resize E img (new_width, new_height) = Raise e ->
    attempt E input_path output_path width height maintain_aspect quality
            output_format w false
            (mkWorld E (files E w)
                     (printed E w ++ [MsgError input_path e])%list)
| attempt_not_saved (img : image) (new_width new_height : Z)
    (resized_img : image) (f : fs E) (e : exn) :
    image_open E (files E w) input_path = Ok img ->
    new_dimensions (fst (size img)) (snd (size img)) width height
                   maintain_aspect = Ok (Some (new_width, new_height)) ->
    image_resize E img (new_width, new_height) = Ok resized_img ->
    image_save E (files E w)
      (if is_jpeg (effective_format output_format img)
       then jpeg_rgb resized_img else resized_img)
      output_path (effective_format output_format img)
      (if is_jpeg (effective_format output_format img)
       then Some (mkOptions quality true) else None)
    = (f, Raise e) ->
    attempt E input_path output_path width height maintain_aspect quality
            output_format w false
            (mkWorld E f (printed E w ++ [MsgError input_path e])%list)
| attempt_saved (img : image) (new_width new_height : Z)
    (resized_img : image) (f : fs E) :
    image_open E (files E w) input_path = Ok img ->
    new_dimensions (fst (size img)) (snd (size img)) width height
                   maintain_aspect = Ok (Some (new_width, new_height)) ->
    image_resize E img (new_width, new_height) = Ok resized_img ->
    image_save E (files E w)
      (if is_jpeg (effective_format output_format img)
       then jpeg_rgb resized_img else resized_img)
      output_path (effective_format output_format img)
      (if is_jpeg (effective_format output_format img)
       then Some (mkOptions quality true) else None)
    = (f, Ok tt) ->
    attempt E input_path output_path width height maintain_aspect quality
            output_format w true
            (mkWorld E f
               (printed E w
                ++ [MsgResized (OsPath.basename input_path) (size img)
                               (new_width, new_height)])%list).

(** [processed w image_files outcomes w']: starting in [w], the images are
    attempted one after the other, each at the output path the loop gives it
    (lines 171-185) and in the world the one before left; the attempts have
    the corresponding outcomes, and the last one leaves [w']. *)
Inductive processed (E : Env) (output_folder : string)
    (width height : option Z) (maintain_aspect : bool) (quality : Z)
    (output_format : option string) (prefix suffix : string)
  : world E -> list string -> list bool -> world E -> Prop :=
| processed_nil (w : world E) :
    processed E output_folder width height maintain_aspect quality
              output_format prefix suffix w [] [] w
| processed_cons (w w1 w2 : world E) (image_path : string)
    (rest : list string) (ok : bool) (outcomes : list bool) :
    attempt E image_path
      (OsPath.join output_folder
         (output_name image_path output_format prefix suffix))
      width height maintain_aspect quality output_format w ok w1 ->
    processed E output_folder width height maintain_aspect quality
              output_format prefix suffix w1 rest outcomes w2 ->
    processed E output_folder width height maintain_aspect quality
              output_format prefix suffix w (image_path :: rest)
              (ok :: outcomes) w2.

(** The lines printed before the loop (lines 161-165) and after it (lines
    194-197). *)
Definition report_header (image_files : list string)
    (input_folder output_folder : string) (width height : option Z)
    (maintain_aspect : bool) : list message :=
  [MsgFound (List.length image_files) input_folder;
   MsgOutputFolder output_folder;
   MsgTargetSize (or_auto width) (or_auto height);
   MsgMaintainAspect maintain_aspect; MsgRule].

Definition report_footer (success_count failed_count : Z) : list message :=
  ([MsgRule; MsgCompleted success_count]
   ++ (if 0 <? failed_count then [MsgFailed failed_count] else []))%list.

(** Number of outcomes equal to [b]. *)
Fixpoint tally (b : bool) (outcomes : list bool) : Z :=
  match outcomes with
  | [] => 0
  | ok :: rest => (if Bool.eqb ok b then 1 else 0) + tally b rest
  end.

(** Is the optional dimension, when given, positive? *)
Definition positive_if_given (x : option Z) : bool :=
  match x with
  | Some n => 0 <? n
  | None => true
  end.

(** ** Values of floats as rationals *)

Definition pow2 (e : Z) : Q := (2 ^ e)%Q.

(** Half the distance between 1 and the next double: the relative error of
    one rounding. *)
Definition eps : Q := 1 # 9007199254740992.

(** [approx v x]: [v] is [x] up to one rounding. *)
Definition approx (v x : Q) : Prop :=
  ((1 - eps) * x <= v /\ v <= (1 + eps) * x)%Q.

(** [normal f v]: [f] is a positive normal double of value [v]. *)
Definition normal (f : spec_float) (v : Q) : Prop :=
  exists m e,
    f = S754_finite false m e /\ Zpos (digits2_pos m) = 53 /\
    -1074 <= e <= 971 /\ (inject_Z (Zpos m) * pow2 e == v)%Q.

(** No negative finite value. *)
Definition unsigned (f : spec_float) : Prop :=
  match f with
  | S754_finite s _ _ => s = false
  | _ => True
  end.

(** [located mrs x]: the mantissa [shr_m mrs] with its round and sticky bits
    places [x] at, or in one half of, the unit interval above the mantissa. *)
Definition located (mrs : shr_record) (x : Q) : Prop :=
  let m := inject_Z (shr_m mrs) in
  match shr_r mrs, shr_s mrs with
  | false, false => (x == m)%Q
  | false, true => (m < x /\ x < m + (1#2))%Q
  | true, false => (x == m + (1#2))%Q
  | true, true => (m + (1#2) < x /\ x < m + 1)%Q
  end.

(** The quotient of two integers as a rational. *)
Definition ratio (a b : Z) : Q := (inject_Z a / inject_Z b)%Q.

(** ** The two one-sided rules

    The branch of lines 88-92 (only the width counts) and the branch of
    lines 93-97 (only the height counts), each on its own. *)

Definition width_only (original_width original_height width : Z)
  : result (option (Z * Z)) :=
  aspect_ratio <- PyFloat.int_truediv original_height original_width ;;
  let new_width := width in
  scaled <- PyFloat.int_mul_float width aspect_ratio ;;
  new_height <- PyFloat.to_int scaled ;;
  Ok (Some (new_width, new_height)).

Definition height_only (original_width original_height height : Z)
  : result (option (Z * Z)) :=
  aspect_ratio <- PyFloat.int_truediv original_width original_height ;;
  let new_height := height in
  scaled <- PyFloat.int_mul_float height aspect_ratio ;;
  new_width <- PyFloat.to_int scaled ;;
  Ok (Some (new_width, new_height)).

(** ** Plain ASCII

    [upper] and [lower] convert the letters A-Z and a-z, which is what
    [str.upper] and [str.lower] do on text whose characters are all ASCII;
    on other text Python also converts other letters. *)

Fixpoint ascii_only (s : string) : bool :=
  match s with
  | EmptyString => true
  | String c rest => (nat_of_ascii c <? 128)%nat && ascii_only rest
  end.

(** ** A path that is a file, not a folder

    The sample disk seen through a file system that knows the difference: the
    path of a regular file exists, and listing it raises
    [NotADirectoryError]. *)

Definition with_files : Env :=
  mkEnv Sample.disk
        (fun d p => Sample.disk_isfile d p || Sample.disk_exists d p)
        Sample.disk_isfile
        (fun d p =>
           if Sample.disk_isfile d p
           then Raise (OtherError "NotADirectoryError")
           else Sample.disk_listdir d p)
        (fun d _ => Ok d)
        Sample.disk_open Sample.resize Sample.disk_save.

(** ** Shapes of names, lines of the report, samples

    Predicates the statements about file names, about the printed report
    and about pixels are written with. *)

(** No character of [s] is [c]. *)
Fixpoint lacks (c : ascii) (s : string) : bool :=
  match s with
  | EmptyString => true
  | String d rest => negb (Ascii.eqb d c) && lacks c rest
  end.

(** Every character of [s] is [c]. *)
Fixpoint only (c : ascii) (s : string) : bool :=
  match s with
  | EmptyString => true
  | String d rest => Ascii.eqb d c && only c rest
  end.

(** Is [s] its own lower-case form? *)
Definition is_lower (s : string) : bool := String.eqb (lower s) s.

(** The line [resize_image] prints for [image_path]: the success line names
    the file, the two failure lines give its path. *)
Definition line_about (image_path : string) (msg : message) : Prop :=
  match msg with
  | MsgResized name _ _ => name = OsPath.basename image_path
  | MsgNoDimensions input_path => input_path = image_path
  | MsgError input_path _ => input_path = image_path
  | _ => False
  end.

(** Is [msg] the line of a success? *)
Definition is_success_line (msg : message) : bool :=
  match msg with
  | MsgResized _ _ _ => true
  | _ => false
  end.

(** A sample of an 8-bit channel. *)
Definition byte (n : Z) : Prop := 0 <= n <= 255.

(** [lo] is nowhere above [hi], channel by channel. *)
Definition rgb_le (lo hi : rgb) : Prop :=
  let '(r1, g1, b1) := lo in
  let '(r2, g2, b2) := hi in
  r1 <= r2 /\ g1 <= g2 /\ b1 <= b2.

(** ** The example script (example_usage.py)

    The script prints lines of its own between four calls of
    [batch_resize_images]; its output is the sequence of both. *)

Inductive script_line : Type :=
| Said (text : string)
| Reported (msg : message).

(** [print("\n" + "=" * 60)] *)
Definition script_rule : string :=
  String (ascii_of_nat 10)
    "============================================================".

Section Script.

Variable E : Env.

(** What the script acts on: the file system and its output so far. *)
Record script_state : Type := mkScript {
  script_files : fs E;
  script_output : list script_line
}.

Definition Script (A : Type) : Type := script_state -> result A * script_state.

(** [print(text)] *)
Definition say (text : string) : Script unit :=
  fun s => (Ok tt, mkScript (script_files s) (script_output s ++ [Said text])).

(** A call into the resizer: what it prints goes to the same output. *)
Definition call {A : Type} (m : M E A) : Script A :=
  fun s =>
    let '(r, w) := m (mkWorld E (script_files s) []) in
    (r, mkScript (files E w) (script_output s ++ map Reported (printed E w))).

(** One statement after the other; an exception ends the script. *)
Definition and_then {A B : Type} (m : Script A) (k : Script B) : Script B :=
  fun s =>
    match m s with
    | (Ok _, s') => k s'
    | (Raise e, s') => (Raise e, s')
    end.

Notation "m >> k" := (and_then m k) (at level 61, right associativity).

(** The script, from its first [print] to its last. *)
Definition example_usage : Script unit :=
  say "Example 1: Resize to 800px width" >>
  call (batch_resize_images E "sample_images" "output/resized_800"
          (Some 800) None true 95 None EmptyString EmptyString) >>
  say script_rule >>
  say "Example 2: Resize to 1920x1080 (forced dimensions)" >>
  call (batch_resize_images E "sample_images" "output/resized_1920x1080"
          (Some 1920) (Some 1080) false 95 None EmptyString EmptyString) >>
  say script_rule >>
  say "Example 3: Create thumbnails" >>
  call (batch_resize_images E "sample_images" "output/thumbnails"
          (Some 300) None true 85 (Some "JPEG"%string) "thumb_" EmptyString) >>
  say script_rule >>
  say "Example 4: Convert to WebP" >>
  call (batch_resize_images E "sample_images" "output/webp"
          (Some 1200) None true 95 (Some "WEBP"%string) EmptyString EmptyString) >>
  say script_rule >>
  say "All examples completed!".

End Script.

(** * Binary64 arithmetic

    The value of a finite double is a rational; the lemmas below relate the
    bit-level operations of [SpecFloat] to rational arithmetic for positive
    numbers in the normal range, where each operation rounds its exact result
    once, with a relative error of at most [eps]. *)

Local Open Scope Z_scope.

(** Decides which branch a test against 0 takes for a non-zero size. *)
Ltac nonzero n :=
  replace (n =? 0) with false by (symmetry; apply Z.eqb_neq; lia).

(** ** Powers of two *)

Section PowersOfTwo.

Local Open Scope Q_scope.

(** Every power of two is positive. *)
Lemma pow2_pos e : 0 < pow2 e.
Proof. apply Qpower_0_lt. reflexivity. Qed.

Lemma pow2_add a b : pow2 (a + b) == pow2 a * pow2 b.
Proof. unfold pow2. apply Qpower_plus. discriminate. Qed.

Lemma pow2_succ e : pow2 (e + 1) == 2 * pow2 e.
Proof. rewrite pow2_add. unfold pow2 at 2. simpl. ring. Qed.

Lemma pow2_pred e : pow2 (e - 1) == (1#2) * pow2 e.
Proof.
  unfold Z.sub. rewrite pow2_add. unfold pow2 at 2. simpl Qpower.
  change (/ (2#1)) with (1#2). ring.
Qed.

Lemma pow2_0 : pow2 0 == 1.
Proof. reflexivity. Qed.

Lemma pow2_cancel e : pow2 e * pow2 (- e) == 1.
Proof. rewrite <- pow2_add. replace (e + - e)%Z with 0%Z by lia. reflexivity. Qed.

Lemma pow2_le a b : (a <= b)%Z -> pow2 a <= pow2 b.
Proof. intros. apply Qpower_le_compat_l; [assumption | discriminate]. Qed.

Lemma pow2_lt_inv a b : pow2 a < pow2 b -> (a < b)%Z.
Proof. intros. apply (Qpower_lt_compat_l_inv 2); [assumption | reflexivity]. Qed.

(** A non-negative power of two is the integer power. *)
Lemma pow2_Z n : (0 <= n)%Z -> pow2 n == inject_Z (2 ^ n).
Proof. intros. rewrite Zpower_Qpower by assumption. reflexivity. Qed.

Lemma inject_Z_lt a b : (a < b)%Z -> inject_Z a < inject_Z b.
Proof. intros. rewrite <- Zlt_Qlt. assumption. Qed.

Lemma inject_Z_le a b : (a <= b)%Z -> inject_Z a <= inject_Z b.
Proof. intros. rewrite <- Zle_Qle. assumption. Qed.

End PowersOfTwo.

Lemma pow2_le_inv a b : (pow2 a <= pow2 b)%Q -> a <= b.
Proof. intros. apply (Qpower_le_compat_l_inv 2); [assumption | reflexivity]. Qed.

Lemma Qmult_le_r_pos a b p : (0 <= p -> a <= b -> a * p <= b * p)%Q.
Proof. intros. apply Qmult_le_compat_r; assumption. Qed.

Lemma Qdiv_mult_cancel (a b : Q) : (0 < b -> a / b * b == a)%Q.
Proof. intros. field. lra. Qed.

(** ** Binary digits *)

(** A positive number of [d] binary digits lies in [[2^(d-1), 2^d)]. *)
Lemma digits2_pos_bounds (p : positive) :
  (2 ^ (Zpos (digits2_pos p) - 1) <= Zpos p < 2 ^ Zpos (digits2_pos p))%Z.
Proof.
  induction p as [p IH | p IH |]; simpl digits2_pos.
  - rewrite Pos2Z.inj_succ.
    replace (Z.succ (Zpos (digits2_pos p)) - 1)%Z
      with (Z.succ (Zpos (digits2_pos p) - 1))%Z by lia.
    rewrite !Z.pow_succ_r by lia. lia.
  - rewrite Pos2Z.inj_succ.
    replace (Z.succ (Zpos (digits2_pos p)) - 1)%Z
      with (Z.succ (Zpos (digits2_pos p) - 1))%Z by lia.
    rewrite !Z.pow_succ_r by lia. lia.
  - simpl. lia.
Qed.

Lemma Zdigits2_bounds m :
  0 < m -> 2 ^ (Zdigits2 m - 1) <= m < 2 ^ Zdigits2 m.
Proof.
  destruct m as [| p | p]; try lia. intros _. apply digits2_pos_bounds.
Qed.

Lemma Zdigits2_pos m : 0 < m -> 0 < Zdigits2 m.
Proof. destruct m; simpl; lia. Qed.

(** The number of digits is determined by the binade. *)
Lemma digits_unique (m k : Z) :
  (2 ^ (k - 1) <= m < 2 ^ k)%Z -> (0 < k)%Z -> Zdigits2 m = k.
Proof.
  intros [Hlo Hhi] Hk.
  assert (0 < 2 ^ (k-1))%Z by (apply Z.pow_pos_nonneg; lia).
  destruct m as [| p | p]; [ lia | | lia ].
  simpl. pose proof (digits2_pos_bounds p) as [A B].
    set (d := Zpos (digits2_pos p)) in *.
    assert (Hd : (0 < d)%Z) by (unfold d; lia).
    destruct (Z.lt_trichotomy d k) as [L | [L | L]]; [ | f_equal; assumption | ].
    + assert (2 ^ d <= 2 ^ (k - 1))%Z by (apply Z.pow_le_mono_r; lia). lia.
    + assert (2 ^ k <= 2 ^ (d - 1))%Z by (apply Z.pow_le_mono_r; lia). lia.
Qed.

(** Bounds on a number bound its number of digits. *)
Lemma digits_range m a b :
  0 <= a -> 2 ^ a <= m < 2 ^ b -> a < Zdigits2 m <= b.
Proof.
  intros Ha [Hlo Hhi].
  assert (Hm : 0 < m) by (assert (0 < 2 ^ a) by (apply Z.pow_pos_nonneg; lia); lia).
  destruct (Zdigits2_bounds m Hm) as [A B].
  pose proof (Zdigits2_pos m Hm) as Hd.
  set (d := Zdigits2 m) in *.
  split.
  - destruct (Z_lt_le_dec a d) as [L | L]; [ assumption | ].
    assert (2 ^ d <= 2 ^ a) by (apply Z.pow_le_mono_r; lia). lia.
  - destruct (Z_le_gt_dec d b) as [L | L]; [ assumption | ].
    assert (0 <= b).
    { destruct (Z_le_gt_dec 0 b); [ assumption | ].
      rewrite (Z.pow_neg_r 2 b) in Hhi by lia. lia. }
    assert (2 ^ b <= 2 ^ (d - 1)) by (apply Z.pow_le_mono_r; lia). lia.
Qed.

(** A 53-digit mantissa lies in [[2^52, 2^53)]. *)
Lemma mantissa_bounds m :
  Zpos (digits2_pos m) = 53 -> 2 ^ 52 <= Zpos m < 2 ^ 53.
Proof. intros H. pose proof (digits2_pos_bounds m) as B. rewrite H in B. exact B. Qed.

Lemma iter_xO_pow2 (p k : positive) :
  Zpos (Pos.iter xO p k) = Zpos p * 2 ^ Zpos k.
Proof.
  induction k as [| k IH] using Pos.peano_ind.
  - simpl. lia.
  - rewrite Pos.iter_succ, Pos2Z.inj_xO, IH, Pos2Z.inj_succ, Z.pow_succ_r by lia. lia.
Qed.

(** ** Shifting right, with the round and sticky bits *)

(** Iterating over a binary positive is iterating over its value. *)
Lemma iter_pos_nat {A : Type} (f : A -> A) (p : positive) (x : A) :
  iter_pos f p x = Nat.iter (Pos.to_nat p) f x.
Proof.
  revert x. induction p as [p IH | p IH |]; intros x; simpl iter_pos.
  - rewrite !IH, Pos2Nat.inj_xI. simpl Nat.mul. rewrite Nat.add_0_r.
    rewrite Nat.iter_succ_r, Nat.iter_add. reflexivity.
  - rewrite !IH, Pos2Nat.inj_xO. simpl Nat.mul. rewrite Nat.add_0_r.
    rewrite Nat.iter_add. reflexivity.
  - reflexivity.
Qed.

(** Shifting by [n] is [n] single shifts. *)
Lemma shr_nat mrs e n :
  0 <= n -> shr mrs e n = (Nat.iter (Z.to_nat n) shr_1 mrs, e + n).
Proof.
  intros Hn. destruct n as [| p | p]; simpl.
  - rewrite Z.add_0_r. reflexivity.
  - rewrite iter_pos_nat. reflexivity.
  - lia.
Qed.

Lemma shr_zero mrs e : shr mrs e 0 = (mrs, e).
Proof. reflexivity. Qed.

Lemma shr_one mrs e : shr mrs e 1 = (shr_1 mrs, e + 1).
Proof. reflexivity. Qed.

Lemma shr_m_of_loc m l : shr_m (shr_record_of_loc m l) = m.
Proof. destruct l as [| []]; reflexivity. Qed.

Lemma inject_Z_xI p : (inject_Z (Zpos p~1) == 2 * inject_Z (Zpos p) + 1)%Q.
Proof. rewrite Pos2Z.inj_xI, inject_Z_plus, inject_Z_mult. reflexivity. Qed.

Lemma inject_Z_xO p : (inject_Z (Zpos p~0) == 2 * inject_Z (Zpos p))%Q.
Proof. rewrite Pos2Z.inj_xO, inject_Z_mult. reflexivity. Qed.

Lemma located_ext mrs x y : (x == y)%Q -> located mrs x -> located mrs y.
Proof.
  intros E. unfold located.
  destruct (shr_r mrs), (shr_s mrs); rewrite E; trivial.
Qed.

(** One shift halves the located value and the mantissa. *)
Lemma shr_1_located mrs x :
  0 <= shr_m mrs -> located mrs x ->
  located (shr_1 mrs) (x * (1#2)) /\ shr_m (shr_1 mrs) = shr_m mrs / 2.
Proof.
  destruct mrs as [m r s]. simpl shr_m. intros Hm H.
  destruct m as [| p | p]; [ | | lia ].
  - split; [ | reflexivity ].
    destruct r, s; unfold located in *; simpl in H |- *;
      change (inject_Z 0) with 0%Q in *; lra.
  - destruct p as [p | p |]; (split; [ | try reflexivity ]).
    + destruct r, s; unfold located in *; cbn [shr_1 shr_m shr_r shr_s orb] in H |- *;
        rewrite inject_Z_xI in H; lra.
    + cbn [shr_1 shr_m]. rewrite Pos2Z.inj_xI. apply Z.div_unique with 1; lia.
    + destruct r, s; unfold located in *; cbn [shr_1 shr_m shr_r shr_s orb] in H |- *;
        rewrite inject_Z_xO in H; lra.
    + cbn [shr_1 shr_m]. rewrite Pos2Z.inj_xO. apply Z.div_unique with 0; lia.
    + destruct r, s; unfold located in *; cbn [shr_1 shr_m shr_r shr_s orb] in H |- *;
        change (inject_Z 0) with 0%Q in *; change (inject_Z 1) with 1%Q in *; lra.
Qed.

(** [n] shifts divide the located value and the mantissa by [2^n]. *)
Lemma shr_iter_located n mrs x :
  0 <= shr_m mrs -> located mrs x ->
  located (Nat.iter n shr_1 mrs) (x * pow2 (- Z.of_nat n)) /\
  shr_m (Nat.iter n shr_1 mrs) = shr_m mrs / 2 ^ Z.of_nat n.
Proof.
  intros Hm H. induction n as [| n [IHl IHm]].
  - simpl Nat.iter. split.
    + apply (located_ext _ x); [ | assumption ].
      change (- Z.of_nat 0) with 0. rewrite pow2_0. ring.
    + simpl. rewrite Z.div_1_r. reflexivity.
  - simpl Nat.iter.
    assert (Hnn : 0 <= shr_m (Nat.iter n shr_1 mrs)).
    { rewrite IHm. apply Z.div_pos; [ assumption | apply Z.pow_pos_nonneg; lia ]. }
    destruct (shr_1_located _ _ Hnn IHl) as [A B]. split.
    + eapply located_ext; [ | exact A ].
      rewrite Nat2Z.inj_succ.
      replace (- Z.succ (Z.of_nat n))%Z with (- Z.of_nat n - 1)%Z by lia.
      rewrite pow2_pred. ring.
    + rewrite B, IHm, Nat2Z.inj_succ, Z.pow_succ_r by lia.
      rewrite Z.div_div by (try apply Z.pow_pos_nonneg; lia).
      f_equal. lia.
Qed.

(** ** Rounding to nearest, ties to even *)

(** Rounding to nearest even moves a located value by at most one half. *)
Lemma rne_located mrs x :
  located mrs x ->
  shr_m mrs <= round_nearest_even (shr_m mrs) (loc_of_shr_record mrs)
            <= shr_m mrs + 1 /\
  (inject_Z (round_nearest_even (shr_m mrs) (loc_of_shr_record mrs)) - (1#2) <= x
   <= inject_Z (round_nearest_even (shr_m mrs) (loc_of_shr_record mrs)) + (1#2))%Q.
Proof.
  destruct mrs as [m r s]. unfold located. cbn [shr_m shr_r shr_s loc_of_shr_record].
  destruct r, s; cbn [round_nearest_even]; intros H.
  - rewrite inject_Z_plus. change (inject_Z 1) with 1%Q. split; [ lia | lra ].
  - destruct (Z.even m).
    + split; [ lia | lra ].
    + rewrite inject_Z_plus. change (inject_Z 1) with 1%Q. split; [ lia | lra ].
  - split; [ lia | lra ].
  - split; [ lia | lra ].
Qed.

(** Rounding a located positive value in the normal range. *)
Lemma binary_round_aux_correct (s : bool) (mx ex : Z) (lx : location) (x : Q) :
  0 < mx ->
  located (shr_record_of_loc mx lx) x ->
  53 <= Zdigits2 mx ->
  -1074 <= Zdigits2 mx + ex - 53 ->
  Zdigits2 mx + ex + 1 <= 1024 ->
  exists m e,
    binary_round_aux 53 1024 s mx ex lx = S754_finite s m e /\
    Zpos (digits2_pos m) = 53 /\
    Zdigits2 mx + ex - 53 <= e <= Zdigits2 mx + ex - 52 /\
    ((1 - eps) * (x * pow2 ex) <= inject_Z (Zpos m) * pow2 e
     <= (1 + eps) * (x * pow2 ex))%Q.
Proof.
  intros Hmx Hloc Hd Hlo Hhi.
  set (d := Zdigits2 mx) in *.
  set (n := d - 53).
  assert (Hfexp : fexp 53 1024 (d + ex) - ex = n).
  { unfold fexp, emin, n. lia. }
  unfold binary_round_aux, shr_fexp. fold d. rewrite Hfexp.
  rewrite shr_nat by (unfold n; lia).
  set (mrs1 := Nat.iter (Z.to_nat n) shr_1 (shr_record_of_loc mx lx)).
  destruct (shr_iter_located (Z.to_nat n) (shr_record_of_loc mx lx) x) as [Hl1 Hm1];
    [ rewrite shr_m_of_loc; lia | assumption | ].
  fold mrs1 in Hl1, Hm1. rewrite shr_m_of_loc in Hm1.
  rewrite Z2Nat.id in Hl1, Hm1 by (unfold n; lia).
  set (x1 := (x * pow2 (- n))%Q) in *.
  set (m1 := shr_m mrs1) in *.
  destruct (Zdigits2_bounds mx Hmx) as [Hblo Hbhi]. fold d in Hblo, Hbhi.
  assert (Hm1b : 2 ^ 52 <= m1 < 2 ^ 53).
  { rewrite Hm1. split.
    - apply Z.div_le_lower_bound; [ apply Z.pow_pos_nonneg; unfold n; lia | ].
      rewrite <- Z.pow_add_r by (unfold n; lia).
      replace (n + 52) with (d - 1) by (unfold n; lia). assumption.
    - apply Z.div_lt_upper_bound; [ apply Z.pow_pos_nonneg; unfold n; lia | ].
      rewrite <- Z.pow_add_r by (unfold n; lia).
      replace (n + 53) with d by (unfold n; lia). assumption. }
  destruct (rne_located mrs1 x1 Hl1) as [Hm2 Hx1]. fold m1 in Hm2, Hx1.
  set (m2 := round_nearest_even m1 (loc_of_shr_record mrs1)) in *.
  assert (Hx1lo : (inject_Z (2 ^ 52) <= x1)%Q).
  { apply Qle_trans with (inject_Z m1); [ apply inject_Z_le; lia | ].
    unfold located in Hl1. fold m1 in Hl1.
    destruct (shr_r mrs1), (shr_s mrs1); lra. }
  change (inject_Z (2 ^ 52)) with (4503599627370496 # 1)%Q in Hx1lo.
  assert (Hval : (x1 * pow2 (ex + n) == x * pow2 ex)%Q).
  { unfold x1. rewrite <- Qmult_assoc, <- pow2_add.
    replace (- n + (ex + n)) with ex by lia. reflexivity. }
  assert (Hrel : ((1 - eps) * (x * pow2 ex) <= inject_Z m2 * pow2 (ex + n)
                  <= (1 + eps) * (x * pow2 ex))%Q).
  { rewrite <- Hval. pose proof (pow2_pos (ex + n)) as Hp. unfold eps. split.
    - setoid_replace ((1 - (1 # 9007199254740992)) * (x1 * pow2 (ex + n)))%Q
        with (((1 - (1 # 9007199254740992)) * x1) * pow2 (ex + n))%Q by ring.
      apply Qmult_le_r_pos; lra.
    - setoid_replace ((1 + (1 # 9007199254740992)) * (x1 * pow2 (ex + n)))%Q
        with (((1 + (1 # 9007199254740992)) * x1) * pow2 (ex + n))%Q by ring.
      apply Qmult_le_r_pos; lra. }
  destruct (Z.eq_dec m2 (2 ^ 53)) as [Hcarry | Hnocarry].
  - (* the mantissa was rounded up to the next binade *)
    rewrite Hcarry in *.
    change (Zdigits2 (2 ^ 53)) with 54.
    replace (fexp 53 1024 (54 + (ex + n)) - (ex + n)) with 1
      by (unfold fexp, emin, n; lia).
    rewrite shr_one. cbn [shr_record_of_loc shr_1 shr_m].
    change (Z.pow 2 53) with 9007199254740992. cbn [shr_1 shr_m].
    replace (ex + n + 1 <=? 1024 - 53) with true
      by (symmetry; apply Z.leb_le; unfold n; lia).
    eexists _, _. split; [ reflexivity | ].
    split; [ reflexivity | ]. split; [ unfold n; lia | ].
    change (Z.pow 2 53) with 9007199254740992 in Hrel.
    rewrite pow2_succ.
    change (inject_Z 4503599627370496) with (4503599627370496 # 1)%Q.
    change (inject_Z 9007199254740992) with (9007199254740992 # 1)%Q in Hrel.
    lra.
  - assert (Hdig2 : Zdigits2 m2 = 53) by (apply digits_unique; lia).
    rewrite Hdig2.
    replace (fexp 53 1024 (53 + (ex + n)) - (ex + n)) with 0
      by (unfold fexp, emin, n; lia).
    rewrite shr_zero. cbn [shr_record_of_loc shr_m].
    destruct m2 as [| p2 | p2] eqn:Em2; [ lia | | lia ].
    replace (ex + n <=? 1024 - 53) with true
      by (symmetry; apply Z.leb_le; unfold n; lia).
    eexists _, _. split; [ reflexivity | ].
    split; [ exact Hdig2 | ]. split; [ unfold n; lia | ].
    exact Hrel.
Qed.

(** A 53-digit mantissa with an exponent in range is kept as it is. *)
Lemma binary_round_aux_exact s m e :
  Zpos (digits2_pos m) = 53 -> -1074 <= e <= 971 ->
  binary_round_aux 53 1024 s (Zpos m) e loc_Exact = S754_finite s m e.
Proof.
  intros Hd He. unfold binary_round_aux, shr_fexp.
  cbn [Zdigits2 shr_record_of_loc]. rewrite Hd.
  replace (fexp 53 1024 (53 + e) - e) with 0 by (unfold fexp, emin; lia).
  rewrite shr_zero.
  cbn [shr_m loc_of_shr_record round_nearest_even Zdigits2 shr_record_of_loc].
  rewrite Hd.
  replace (fexp 53 1024 (53 + e) - e) with 0 by (unfold fexp, emin; lia).
  rewrite shr_zero. cbn [shr_m].
  replace (e <=? 1024 - 53) with true by (symmetry; apply Z.leb_le; lia).
  reflexivity.
Qed.

(** ** Multiplication, division, conversion, comparison *)

(** The value of a normal number lies in the binade of its exponent. *)
Lemma normal_bounds f v :
  normal f v ->
  exists e, -1074 <= e <= 971 /\ (pow2 (52 + e) <= v < pow2 (53 + e))%Q.
Proof.
  intros (m & e & -> & Hd & He & Hv). exists e. split; [ assumption | ].
  destruct (mantissa_bounds m Hd) as [Hlo Hhi].
  rewrite <- Hv, !pow2_add. pose proof (pow2_pos e).
  rewrite (pow2_Z 52), (pow2_Z 53) by lia.
  split.
  - apply Qmult_le_r_pos; [ lra | apply inject_Z_le; assumption ].
  - apply Qmult_lt_compat_r; [ assumption | apply inject_Z_lt; assumption ].
Qed.

(** Multiplication of two positive normal numbers. *)
Lemma SFmul_correct f g vf vg :
  normal f vf -> normal g vg ->
  (pow2 (-1000) <= vf * vg <= pow2 1000)%Q ->
  exists vr, normal (SFmul 53 1024 f g) vr /\ approx vr (vf * vg).
Proof.
  intros (mx & ex & -> & Hdx & Hex & Hvx) (my & ey & -> & Hdy & Hey & Hvy) [Hlo Hhi].
  destruct (mantissa_bounds mx Hdx) as [Hxl Hxh].
  destruct (mantissa_bounds my Hdy) as [Hyl Hyh].
  cbn [SFmul xorb].
  assert (Hprod : 2 ^ 104 <= Zpos (mx * my) < 2 ^ 106).
  { rewrite Pos2Z.inj_mul. change (2 ^ 104) with (2 ^ 52 * 2 ^ 52).
    change (2 ^ 106) with (2 ^ 53 * 2 ^ 53). nia. }
  destruct (digits_range _ 104 106 ltac:(lia) Hprod) as [Hdl Hdh].
  assert (Hv : (vf * vg == inject_Z (Zpos (mx * my)) * pow2 (ex + ey))%Q).
  { rewrite <- Hvx, <- Hvy, Pos2Z.inj_mul, inject_Z_mult, pow2_add. ring. }
  assert (HE : -1106 < ex + ey /\ ex + ey <= 896).
  { pose proof (pow2_pos (ex + ey)) as Hp. split.
    - destruct (Z_lt_le_dec (-1106) (ex + ey)) as [L | L]; [ assumption | exfalso ].
      assert (H1 : (inject_Z (Zpos (mx * my)) * pow2 (ex + ey)
                    < pow2 (106 + (ex + ey)))%Q).
      { rewrite (pow2_add 106), (pow2_Z 106) by lia.
        apply Qmult_lt_compat_r; [ assumption | apply inject_Z_lt; lia ]. }
      assert (H2 : (pow2 (106 + (ex + ey)) <= pow2 (-1000))%Q) by (apply pow2_le; lia).
      rewrite Hv in Hlo. lra.
    - assert (104 + (ex + ey) <= 1000); [ | lia ].
      apply pow2_le_inv.
      apply Qle_trans with (vf * vg)%Q; [ | assumption ].
      rewrite Hv, (pow2_add 104), (pow2_Z 104) by lia.
      apply Qmult_le_r_pos; [ lra | apply inject_Z_le; lia ]. }
  destruct (binary_round_aux_correct false (Zpos (mx * my)) (ex + ey) loc_Exact
              (inject_Z (Zpos (mx * my)))) as (m & e & Hr & Hd & He & Hrel);
    try lia.
  { unfold located. cbn. reflexivity. }
  rewrite Hr. exists (inject_Z (Zpos m) * pow2 e)%Q. split.
  - exists m, e. repeat split; try assumption; try lia. 
  - unfold approx. rewrite Hv. exact Hrel.
Qed.

(** The location computed from a remainder places the exact quotient. *)
Lemma new_location_located m2 q r x :
  0 < m2 -> 0 <= r < m2 ->
  (x * inject_Z m2 == inject_Z q * inject_Z m2 + inject_Z r)%Q ->
  located (shr_record_of_loc q (new_location m2 r)) x.
Proof.
  intros Hm2 Hr Hx.
  assert (HM : (0 < inject_Z m2)%Q) by (apply (inject_Z_lt 0); assumption).
  assert (Hhalf : forall c : Q,
             ((x < inject_Z q + c <-> inject_Z r < c * inject_Z m2) /\
              (inject_Z q + c < x <-> c * inject_Z m2 < inject_Z r) /\
              (x == inject_Z q + c <-> inject_Z r == c * inject_Z m2))%Q).
  { intros c. repeat split; intros H.
    - apply (Qmult_lt_r _ _ _ HM) in H. lra.
    - apply (Qmult_lt_r _ _ (inject_Z m2) HM). lra.
    - apply (Qmult_lt_r _ _ _ HM) in H. lra.
    - apply (Qmult_lt_r _ _ (inject_Z m2) HM). lra.
    - rewrite H in Hx. lra.
    - apply (Qmult_inj_r _ _ (inject_Z m2)); [ lra | lra ]. }
  assert (H2r : (inject_Z (2 * r) == 2 * inject_Z r)%Q)
    by (rewrite inject_Z_mult; reflexivity).
  assert (Exact : r = 0 -> located (shr_record_of_loc q loc_Exact) x).
  { intros ->. unfold located. cbn. change (inject_Z 0) with 0%Q in Hx.
    apply (Qmult_inj_r _ _ (inject_Z m2)); lra. }
  assert (Below : 0 < r -> 2 * r < m2 ->
                  located (shr_record_of_loc q (loc_Inexact Lt)) x).
  { intros H0 H. unfold located. cbn.
    apply inject_Z_lt in H. apply inject_Z_lt in H0. change (inject_Z 0) with 0%Q in H0.
    rewrite H2r in H. split.
    - setoid_replace (inject_Z q) with (inject_Z q + 0)%Q by ring.
      apply (Hhalf 0%Q). lra.
    - apply (Hhalf (1#2)%Q). lra. }
  assert (Middle : 2 * r = m2 -> located (shr_record_of_loc q (loc_Inexact Eq)) x).
  { intros H. unfold located. cbn.
    apply (Hhalf (1#2)%Q). rewrite <- H, H2r. ring. }
  assert (Above : m2 < 2 * r -> located (shr_record_of_loc q (loc_Inexact Gt)) x).
  { intros H. unfold located. cbn.
    apply inject_Z_lt in H. rewrite H2r in H.
    destruct Hr as [_ Hr]. apply inject_Z_lt in Hr. split.
    - apply (Hhalf (1#2)%Q). lra.
    - apply (Hhalf 1%Q). lra. }
  unfold new_location.
  destruct (Z.even m2) eqn:Hev.
  - unfold new_location_even.
    destruct (Z.eqb_spec r 0) as [E | NE]; [ auto | ].
    destruct (Z.compare_spec (2 * r) m2);
      [ apply Middle | apply Below | apply Above ]; lia.
  - unfold new_location_odd.
    destruct (Z.eqb_spec r 0) as [E | NE]; [ auto | ].
    assert (Hodd : Z.odd m2 = true) by (rewrite <- Z.negb_even, Hev; reflexivity).
    apply Z.odd_spec in Hodd. destruct Hodd as [k Hk].
    destruct (Z.compare_spec (2 * r + 1) m2);
      [ apply Below | apply Below | apply Above ]; lia.
Qed.

(** Division of two positive finite numbers, rounded once. *)
Lemma SFdiv_correct m1 e1 m2 e2 v :
  -1021 <= Zpos (digits2_pos m1) + e1 - (Zpos (digits2_pos m2) + e2) <= 1021 ->
  (v * (inject_Z (Zpos m2) * pow2 e2) == inject_Z (Zpos m1) * pow2 e1)%Q ->
  exists vr,
    normal (SFdiv 53 1024 (S754_finite false m1 e1) (S754_finite false m2 e2)) vr /\
    approx vr v.
Proof.
  intros HD Hv.
  cbn [SFdiv xorb]. unfold SFdiv_core_binary. cbn [Zdigits2].
  set (d1 := Zpos (digits2_pos m1)) in *. set (d2 := Zpos (digits2_pos m2)) in *.
  replace (fexp 53 1024 (d1 + e1 - (d2 + e2))) with (d1 + e1 - (d2 + e2) - 53)
    by (unfold fexp, emin; lia).
  set (e' := Z.min (d1 + e1 - (d2 + e2) - 53) (e1 - e2)).
  set (s := e1 - e2 - e').
  assert (Hs : 0 <= s) by (unfold s, e'; lia).
  set (m' := match s with
             | Z.pos _ => Z.shiftl (Zpos m1) s
             | 0 => Zpos m1
             | Z.neg _ => 0
             end).
  assert (Hm' : m' = Zpos m1 * 2 ^ s).
  { unfold m'. destruct s as [| p | p] eqn:Es.
    - simpl. lia.
    - rewrite Z.shiftl_mul_pow2 by lia. reflexivity.
    - lia. }
  pose proof (Z_div_mod m' (Zpos m2) ltac:(lia)) as Hdm.
  destruct (Z.div_eucl m' (Zpos m2)) as [q r]. destruct Hdm as [Hqr Hr].
  pose proof (digits2_pos_bounds m1) as [H1l H1h]. fold d1 in H1l, H1h.
  pose proof (digits2_pos_bounds m2) as [H2l H2h]. fold d2 in H2l, H2h.
  assert (Hd1 : 0 < d1) by (unfold d1; lia).
  assert (Hd2 : 0 < d2) by (unfold d2; lia).
  set (k := d1 - 1 + s - d2).
  assert (Hk : 52 <= k) by (unfold k, s, e'; lia).
  assert (Hm'lo : 2 ^ k * 2 ^ d2 <= m').
  { rewrite <- Z.pow_add_r by lia.
    replace (k + d2) with ((d1 - 1) + s) by (unfold k; lia).
    rewrite Z.pow_add_r by lia. rewrite Hm'.
    apply Z.mul_le_mono_nonneg_r; [ apply Z.pow_nonneg; lia | assumption ]. }
  assert (Hm'hi : m' < 2 ^ (k + 2) * 2 ^ (d2 - 1)).
  { rewrite <- Z.pow_add_r by lia.
    replace (k + 2 + (d2 - 1)) with (d1 + s) by (unfold k; lia).
    rewrite Z.pow_add_r by lia. rewrite Hm'.
    apply Z.mul_lt_mono_pos_r; [ apply Z.pow_pos_nonneg; lia | assumption ]. }
  assert (Hpk : 0 < 2 ^ k) by (apply Z.pow_pos_nonneg; lia).
  assert (Hpk2 : 0 < 2 ^ (k + 2)) by (apply Z.pow_pos_nonneg; lia).
  assert (Hq : 2 ^ k <= q < 2 ^ (k + 2)) by nia.
  destruct (digits_range q k (k + 2) ltac:(lia) Hq) as [Hdl Hdh].
  assert (Hloc : located (shr_record_of_loc q (new_location (Zpos m2) r))
                         (v * pow2 (- e'))).
  { apply new_location_located; [ lia | assumption | ].
    rewrite <- inject_Z_mult, <- inject_Z_plus.
    replace (q * Zpos m2 + r) with m' by lia.
    rewrite Hm', inject_Z_mult, <- (pow2_Z s) by assumption.
    assert (Hp2 : (0 < pow2 e2)%Q) by apply pow2_pos.
    apply (Qmult_inj_r _ _ (pow2 e2)); [ lra | ].
    setoid_replace (v * pow2 (- e') * inject_Z (Zpos m2) * pow2 e2)%Q
      with (v * (inject_Z (Zpos m2) * pow2 e2) * pow2 (- e'))%Q by ring.
    rewrite Hv. unfold s.
    replace (e1 - e2 - e') with (e1 + (- e2 + - e')) by lia.
    rewrite !pow2_add.
    setoid_replace
      (inject_Z (Zpos m1) * (pow2 e1 * (pow2 (- e2) * pow2 (- e'))) * pow2 e2)%Q
      with (inject_Z (Zpos m1) * pow2 e1 * pow2 (- e')
            * (pow2 e2 * pow2 (- e2)))%Q by ring.
    rewrite pow2_cancel. ring. }
  destruct (binary_round_aux_correct false q e' (new_location (Zpos m2) r)
              (v * pow2 (- e'))%Q) as (m & e & Hres & Hd & He & Hrel);
    try assumption; try (unfold k, s in *; lia).
  rewrite Hres. exists (inject_Z (Zpos m) * pow2 e)%Q. split.
  - exists m, e. repeat split; try assumption; try (unfold k, s in *; lia).
  - unfold approx.
    assert (Hvv : (v * pow2 (- e') * pow2 e' == v)%Q).
    { rewrite <- Qmult_assoc, (Qmult_comm (pow2 (- e'))), pow2_cancel. ring. }
    rewrite Hvv in Hrel. exact Hrel.
Qed.

(** Division of two positive normal numbers. *)
Lemma float_div_correct f g vf vg v :
  normal f vf -> normal g vg ->
  (v * vg == vf)%Q -> (pow2 (-1000) <= v <= pow2 1000)%Q ->
  exists vr, normal (SFdiv 53 1024 f g) vr /\ approx vr v.
Proof.
  intros Hf Hg Hv [Hlo Hhi].
  destruct (normal_bounds f vf Hf) as (e1' & _ & Hf1 & Hf2).
  destruct (normal_bounds g vg Hg) as (e2' & _ & Hg1 & Hg2).
  destruct Hf as (mx & ex & -> & Hdx & Hex & Hvx).
  destruct Hg as (my & ey & -> & Hdy & Hey & Hvy).
  pose proof (normal_bounds (S754_finite false mx ex) vf
                ltac:(exists mx, ex; repeat split; assumption || lia))
    as (e1 & _ & F1 & F2).
  clear Hf1 Hf2 Hg1 Hg2 e1' e2'.
  assert (Hvgpos : (0 < vg)%Q).
  { rewrite <- Hvy. apply Qmult_lt_0_compat; [ reflexivity | apply pow2_pos ]. }
  destruct (mantissa_bounds mx Hdx) as [Hxl Hxh].
  destruct (mantissa_bounds my Hdy) as [Hyl Hyh].
  assert (Bx : (pow2 (52 + ex) <= vf < pow2 (53 + ex))%Q).
  { rewrite <- Hvx, (pow2_add 52), (pow2_add 53), (pow2_Z 52), (pow2_Z 53) by lia.
    pose proof (pow2_pos ex). split.
    - apply Qmult_le_r_pos; [ lra | apply inject_Z_le; assumption ].
    - apply Qmult_lt_compat_r; [ assumption | apply inject_Z_lt; assumption ]. }
  assert (By : (pow2 (52 + ey) <= vg < pow2 (53 + ey))%Q).
  { rewrite <- Hvy, (pow2_add 52), (pow2_add 53), (pow2_Z 52), (pow2_Z 53) by lia.
    pose proof (pow2_pos ey). split.
    - apply Qmult_le_r_pos; [ lra | apply inject_Z_le; assumption ].
    - apply Qmult_lt_compat_r; [ assumption | apply inject_Z_lt; assumption ]. }
  assert (HD : -1001 < ex - ey < 1001).
  { split.
    - assert (L : -1000 + (52 + ey) < 53 + ex); [ | lia ].
      apply pow2_lt_inv. rewrite pow2_add.
      apply Qle_lt_trans with vf; [ | apply Bx ].
      rewrite <- Hv.
      apply Qle_trans with (pow2 (-1000) * vg)%Q.
      + rewrite (Qmult_comm (pow2 (-1000))), (Qmult_comm (pow2 (-1000))).
        apply Qmult_le_r_pos; [ pose proof (pow2_pos (-1000)); lra | apply By ].
      + apply Qmult_le_r_pos; [ lra | assumption ].
    - assert (L : 52 + ex < 1000 + (53 + ey)); [ | lia ].
      apply pow2_lt_inv. rewrite (pow2_add 1000).
      apply Qle_lt_trans with vf; [ apply Bx | ].
      rewrite <- Hv.
      apply Qle_lt_trans with (pow2 1000 * vg)%Q.
      + apply Qmult_le_r_pos; [ lra | assumption ].
      + rewrite (Qmult_comm (pow2 1000)), (Qmult_comm (pow2 1000)).
        apply Qmult_lt_compat_r; [ apply pow2_pos | apply By ]. }
  apply SFdiv_correct.
  - rewrite Hdx, Hdy. lia.
  - rewrite Hvx, Hvy. assumption.
Qed.

(** An [int] below 2^53 converts without rounding. *)
Lemma of_int_exact n :
  0 < n < 2 ^ 53 ->
  exists f, PyFloat.of_int n = Ok f /\ normal f (inject_Z n).
Proof.
  intros [Hpos Hlt]. destruct n as [| p | p]; try lia.
  unfold PyFloat.of_int, PyFloat.prec, PyFloat.emax.
  cbn [binary_normalize]. unfold binary_round.
  pose proof (digits2_pos_bounds p) as [Hl Hh].
  set (d := Zpos (digits2_pos p)) in *.
  assert (Hd : 0 < d <= 53).
  { split; [ unfold d; lia | ].
    destruct (Z_le_gt_dec d 53); [ assumption | ].
    assert (2 ^ 53 <= 2 ^ (d - 1)) by (apply Z.pow_le_mono_r; lia). lia. }
  replace (fexp 53 1024 (d + 0)) with (d - 53) by (unfold fexp, emin; lia).
  unfold shl_align.
  destruct (d - 53 - 0) as [| k | k] eqn:Ek; try lia.
  - (* already 53 digits *)
    assert (Hd53 : Zpos (digits2_pos p) = 53) by (fold d; lia).
    rewrite binary_round_aux_exact by (assumption || lia).
    eexists. split; [ reflexivity | ].
    exists p, 0. repeat split; try (fold d; lia).
    rewrite pow2_0. ring.
  - assert (Hk : Zpos k = 53 - d) by lia.
    assert (Hm : Zpos (Pos.iter xO p k) = Zpos p * 2 ^ (53 - d))
      by (rewrite iter_xO_pow2, Hk; reflexivity).
    assert (Hdig : Zpos (digits2_pos (Pos.iter xO p k)) = 53).
    { change (Zpos (digits2_pos (Pos.iter xO p k)))
        with (Zdigits2 (Zpos (Pos.iter xO p k))).
      apply digits_unique; [ | lia ]. rewrite Hm.
      assert (E1 : 2 ^ (53 - 1) = 2 ^ (d - 1) * 2 ^ (53 - d)).
      { rewrite <- Z.pow_add_r by lia. f_equal. lia. }
      assert (E2 : 2 ^ 53 = 2 ^ d * 2 ^ (53 - d)).
      { rewrite <- Z.pow_add_r by lia. f_equal. lia. }
      rewrite E1, E2.
      assert (0 < 2 ^ (53 - d)) by (apply Z.pow_pos_nonneg; lia).
      split; [ apply Z.mul_le_mono_nonneg_r | apply Z.mul_lt_mono_pos_r ]; lia. }
    rewrite binary_round_aux_exact by (try assumption; lia).
    eexists. split; [ reflexivity | ].
    exists (Pos.iter xO p k), (d - 53). repeat split; try assumption; try lia.
    rewrite Hm, inject_Z_mult, <- pow2_Z by lia.
    rewrite <- Qmult_assoc, <- pow2_add.
    replace (53 - d + (d - 53)) with 0 by lia. rewrite pow2_0. ring.
Qed.

(** [int(x)] is the floor of a positive value. *)
Lemma to_int_floor f v :
  normal f v ->
  exists z, PyFloat.to_int f = Ok z /\ (inject_Z z <= v < inject_Z z + 1)%Q.
Proof.
  intros (m & e & -> & Hd & He & Hv). cbn [PyFloat.to_int cond_Zopp].
  eexists. split; [ reflexivity | ]. rewrite <- Hv.
  destruct (Z_le_gt_dec 0 e) as [Hpos | Hneg].
  - rewrite Z.shiftl_mul_pow2 by assumption.
    rewrite inject_Z_mult, <- pow2_Z by assumption.
    generalize (inject_Z (Zpos m) * pow2 e)%Q. intros t. lra.
  - rewrite Z.shiftl_div_pow2 by lia.
    set (k := - e). assert (Hk : 0 < k) by (unfold k; lia).
    assert (Hp : 0 < 2 ^ k) by (apply Z.pow_pos_nonneg; lia).
    pose proof (Z.mul_div_le (Zpos m) (2 ^ k) Hp) as Hlo.
    pose proof (Z.mul_succ_div_gt (Zpos m) (2 ^ k) Hp) as Hhi.
    set (z := Zpos m / 2 ^ k) in *.
    assert (Hpe : (0 < pow2 e)%Q) by apply pow2_pos.
    assert (Hunit : (inject_Z (2 ^ k) * pow2 e == 1)%Q).
    { rewrite <- pow2_Z by lia. unfold k. rewrite Qmult_comm. apply pow2_cancel. }
    split.
    + setoid_replace (inject_Z z) with (inject_Z (2 ^ k * z) * pow2 e)%Q.
      * apply Qmult_le_r_pos; [ lra | apply inject_Z_le; assumption ].
      * rewrite inject_Z_mult.
        setoid_replace (inject_Z (2 ^ k) * inject_Z z * pow2 e)%Q
          with (inject_Z z * (inject_Z (2 ^ k) * pow2 e))%Q by ring.
        rewrite Hunit. ring.
    + setoid_replace (inject_Z z + 1)%Q with (inject_Z (2 ^ k * Z.succ z) * pow2 e)%Q.
      * apply Qmult_lt_compat_r; [ assumption | apply inject_Z_lt; assumption ].
      * rewrite inject_Z_mult. unfold Z.succ. rewrite inject_Z_plus.
        setoid_replace (inject_Z (2 ^ k) * (inject_Z z + inject_Z 1) * pow2 e)%Q
          with ((inject_Z z + 1) * (inject_Z (2 ^ k) * pow2 e))%Q
          by (change (inject_Z 1) with 1%Q; ring).
        rewrite Hunit. ring.
Qed.

(** The order of two positive normal numbers is the order of their values. *)
Lemma SFltb_normal f g vf vg :
  normal f vf -> normal g vg ->
  if SFltb f g then (vf < vg)%Q else (vg <= vf)%Q.
Proof.
  intros (mx & ex & -> & Hdx & Hex & Hvx) (my & ey & -> & Hdy & Hey & Hvy).
  destruct (mantissa_bounds mx Hdx) as [Hxl Hxh].
  destruct (mantissa_bounds my Hdy) as [Hyl Hyh].
  assert (Hexp : forall m1 e1 m2 e2,
             2 ^ 52 <= m1 < 2 ^ 53 -> 2 ^ 52 <= m2 < 2 ^ 53 -> e1 < e2 ->
             (inject_Z m1 * pow2 e1 < inject_Z m2 * pow2 e2)%Q).
  { intros m1 e1 m2 e2 [A B] [C D] L.
    apply Qlt_le_trans with (pow2 (53 + e1)).
    - rewrite (pow2_add 53), (pow2_Z 53) by lia.
      apply Qmult_lt_compat_r; [ apply pow2_pos | apply inject_Z_lt; assumption ].
    - apply Qle_trans with (pow2 (52 + e2)); [ apply pow2_le; lia | ].
      rewrite (pow2_add 52), (pow2_Z 52) by lia.
      apply Qmult_le_r_pos;
        [ pose proof (pow2_pos e2); lra | apply inject_Z_le; assumption ]. }
  unfold SFltb, SFcompare.
  destruct (Z.compare_spec ex ey) as [E | L | G].
  - subst ey. rewrite Pos.compare_cont_spec.
    pose proof (pow2_pos ex).
    destruct (Pos.compare_spec mx my) as [E | L | G];
      cbn [Pos.switch_Eq]; cbv iota; rewrite <- Hvx, <- Hvy.
    + subst. apply Qle_refl.
    + apply Qmult_lt_compat_r; [ assumption | apply inject_Z_lt; lia ].
    + apply Qmult_le_r_pos; [ lra | apply inject_Z_le; lia ].
  - cbv iota. rewrite <- Hvx, <- Hvy. apply Hexp; lia.
  - cbv iota. rewrite <- Hvx, <- Hvy. apply Qlt_le_weak. apply Hexp; lia.
Qed.

(** A normal number is not an overflow. *)
Lemma checked_normal f v : normal f v -> PyFloat.checked f = Ok f.
Proof. intros (m & e & -> & _). reflexivity. Qed.

(** True division of two positive [int]s. *)
Lemma int_truediv_correct a b v :
  0 < a < 2 ^ 1000 -> 0 < b < 2 ^ 1000 ->
  (v * inject_Z b == inject_Z a)%Q ->
  exists f vr, PyFloat.int_truediv a b = Ok f /\ normal f vr /\ approx vr v.
Proof.
  intros Ha Hb Hv.
  destruct a as [| pa | pa]; try lia. destruct b as [| pb | pb]; try lia.
  unfold PyFloat.int_truediv. cbn [Z.eqb PyFloat.exact_int].
  destruct (digits_range (Zpos pa) 0 1000 ltac:(lia)
              ltac:(simpl Z.pow at 1; lia)) as [A1 A2].
  destruct (digits_range (Zpos pb) 0 1000 ltac:(lia)
              ltac:(simpl Z.pow at 1; lia)) as [B1 B2].
  cbn [Zdigits2] in A1, A2, B1, B2.
  destruct (SFdiv_correct pa 0 pb 0 v) as (vr & Hn & Happ).
  - lia.
  - rewrite pow2_0. rewrite <- Hv. ring.
  - exists (SFdiv 53 1024 (S754_finite false pa 0) (S754_finite false pb 0)), vr.
    split; [ | split; assumption ].
    apply (checked_normal _ vr). assumption.
Qed.

(** [n * x] for an [int] below 2^53 and a normal [x]: one rounding. *)
Lemma int_mul_float_correct n f vf :
  0 < n < 2 ^ 53 -> normal f vf ->
  (pow2 (-1000) <= inject_Z n * vf <= pow2 1000)%Q ->
  exists g vg,
    PyFloat.int_mul_float n f = Ok g /\ normal g vg /\ approx vg (inject_Z n * vf).
Proof.
  intros Hn Hf Hr. unfold PyFloat.int_mul_float.
  destruct (of_int_exact n Hn) as (fn & -> & Hfn). cbn [bind].
  destruct (SFmul_correct fn f _ _ Hfn Hf Hr) as (vg & Hg & Ha).
  eauto.
Qed.

(** [n / x] for an [int] below 2^53 and a normal [x]: one rounding. *)
Lemma int_div_float_correct n f vf v :
  0 < n < 2 ^ 53 -> normal f vf ->
  (v * vf == inject_Z n)%Q -> (pow2 (-1000) <= v <= pow2 1000)%Q ->
  exists g vg,
    PyFloat.int_div_float n f = Ok g /\ normal g vg /\ approx vg v.
Proof.
  intros Hn Hf Hv Hr. unfold PyFloat.int_div_float.
  destruct (of_int_exact n Hn) as (fn & -> & Hfn). cbn [bind].
  destruct (float_div_correct fn f _ _ v Hfn Hf Hv Hr) as (vg & Hg & Ha).
  destruct Hf as (m & e & -> & _). cbn [PyFloat.is_zero].
  eauto.
Qed.

(** * The computed dimensions *)

Lemma pow2_m1000_small : (pow2 (-1000) <= 1 # 9007199254740992)%Q.
Proof. change (1 # 9007199254740992)%Q with (pow2 (-53)). apply pow2_le. lia. Qed.

Lemma pow2_1000_big : (9007199254740992 # 1 <= pow2 1000)%Q.
Proof. change (9007199254740992 # 1)%Q with (pow2 53). apply pow2_le. lia. Qed.

(** [ratio a b] is the quotient of [a] by [b]. *)
Lemma ratio_spec a b : 0 < b -> (ratio a b * inject_Z b == inject_Z a)%Q.
Proof.
  intros Hb. unfold ratio. field.
  intros H. apply (inject_Z_lt 0) in Hb. change (inject_Z 0) with 0%Q in Hb. lra.
Qed.

(** A size below 2^51, as a rational. *)
Lemma size_as_rational n :
  0 < n < 2 ^ 51 -> (1 <= inject_Z n <= 2251799813685247 # 1)%Q.
Proof.
  intros [A B]. split; [ apply (inject_Z_le 1); lia | ].
  apply (inject_Z_le n (2 ^ 51 - 1)); lia.
Qed.

Lemma below_2_1000 n : 0 < n < 2 ^ 51 -> 0 < n < 2 ^ 1000.
Proof.
  intros [A B]. split; [ lia | ].
  apply Z.lt_trans with (2 ^ 51); [ lia | reflexivity ].
Qed.

Lemma below_2_53 n : 0 < n < 2 ^ 51 -> 0 < n < 2 ^ 53.
Proof.
  intros [A B]. split; [ lia | ].
  apply Z.lt_trans with (2 ^ 51); [ lia | reflexivity ].
Qed.

(** Quotients of sizes below 2^51 are far from overflow and underflow. *)
Lemma ratio_bounds a b :
  0 < a < 2 ^ 51 -> 0 < b < 2 ^ 51 ->
  ((1 # 2251799813685247) <= ratio a b <= 2251799813685247 # 1)%Q.
Proof.
  intros Ha Hb. pose proof (ratio_spec a b ltac:(lia)) as Hv.
  pose proof (size_as_rational a Ha). pose proof (size_as_rational b Hb).
  set (v := ratio a b) in *.
  assert (0 < v)%Q by nra. split; nra.
Qed.

(** ** Only the width is given *)

(** A side [a] scaled by the ratio of [n] to [b], the way the resolver does
    it: [int(n * (a / b))] is the floor of [n * a / b] when [b] does not
    divide [n * a], and that quotient or one less when it does. *)
Lemma scaled_side (a b n : Z) :
  0 < a -> 0 < b < 2 ^ 51 -> 0 < n -> n * a < 2 ^ 51 ->
  exists z,
    (forall (B : Type) (k : Z -> result B),
        (aspect_ratio <- PyFloat.int_truediv a b ;;
         scaled <- PyFloat.int_mul_float n aspect_ratio ;;
         side <- PyFloat.to_int scaled ;;
         k side) = k z) /\
    n * a / b - 1 <= z <= n * a / b /\
    ((n * a) mod b <> 0 -> z = n * a / b).
Proof.
  intros Ha Hb Hn HT.
  assert (HaT : a <= n * a) by nia.
  assert (HnT : n <= n * a) by nia.
  pose proof (ratio_spec a b ltac:(lia)) as Hv. set (v := ratio a b) in *.
  assert (Hbq : (1 <= inject_Z b <= 2251799813685248 # 1)%Q).
  { split; [ apply (inject_Z_le 1); lia | ].
    apply (inject_Z_le b (2 ^ 51 - 1 + 1)); lia. }
  assert (Haq : (1 <= inject_Z a)%Q) by (apply (inject_Z_le 1); lia).
  assert (Hnq : (1 <= inject_Z n)%Q) by (apply (inject_Z_le 1); lia).
  assert (HTq : (inject_Z n * inject_Z a <= 2251799813685247 # 1)%Q).
  { rewrite <- inject_Z_mult. apply (inject_Z_le _ (2 ^ 51 - 1)). lia. }
  (* the ratio, rounded once *)
  destruct (int_truediv_correct a b v) as (fa & va & Hdiv & Hna & [Ha1 Ha2]);
    [ split; [ lia | apply Z.lt_trans with (2 ^ 51); [ lia | reflexivity ] ]
    | split; [ lia | apply Z.lt_trans with (2 ^ 51); [ lia | reflexivity ] ]
    | assumption | ].
  unfold eps in Ha1, Ha2.
  pose proof pow2_m1000_small as Hsmall. pose proof pow2_1000_big as Hbig.
  assert (Hvpos : (0 < v)%Q) by nra.
  assert (Hvlo : ((1 # 2251799813685248) <= v)%Q) by nra.
  assert (Hvhi : (v <= inject_Z a)%Q) by nra.
  assert (Hprod : (inject_Z n * v <= 2251799813685247 # 1)%Q) by nra.
  assert (Hvalo : ((1 # 4503599627370496) <= va)%Q) by nra.
  assert (Hnva : (inject_Z n * va <= 4503599627370496 # 1)%Q) by nra.
  (* the product, rounded once more *)
  destruct (int_mul_float_correct n fa va) as (fy & vy & Hmul & Hny & [Hy1 Hy2]);
    [ split; [ lia | apply Z.lt_trans with (2 ^ 51); [ lia | reflexivity ] ]
    | assumption
    | split; nra | ].
  unfold eps in Hy1, Hy2.
  destruct (to_int_floor fy vy Hny) as (z & Hint & Hz1 & Hz2).
  exists z. split.
  { intros B k. rewrite Hdiv. cbn [bind]. rewrite Hmul. cbn [bind].
    rewrite Hint. reflexivity. }
  (* from rationals back to integers *)
  set (T := n * a) in *.
  assert (HTT : (inject_Z T == inject_Z n * inject_Z a)%Q)
    by (unfold T; rewrite inject_Z_mult; reflexivity).
  assert (Htb : (inject_Z n * v * inject_Z b == inject_Z T)%Q).
  { rewrite HTT, <- Hv. ring. }
  assert (HTq' : (1 <= inject_Z T <= 2251799813685247 # 1)%Q)
    by (rewrite HTT; nra).
  set (up := ((1 + (1 # 9007199254740992)) * (1 + (1 # 9007199254740992)))%Q).
  set (down := ((1 - (1 # 9007199254740992)) * (1 - (1 # 9007199254740992)))%Q).
  assert (Hyhi : (vy <= up * (inject_Z n * v))%Q) by (unfold up; nra).
  assert (Hylo : (down * (inject_Z n * v) <= vy)%Q) by (unfold down; nra).
  assert (Hyb1 : (vy * inject_Z b <= up * inject_Z T)%Q).
  { rewrite <- Htb.
    setoid_replace (up * (inject_Z n * v * inject_Z b))%Q
      with (up * (inject_Z n * v) * inject_Z b)%Q by ring.
    apply Qmult_le_r_pos; [ lra | assumption ]. }
  assert (Hyb2 : (down * inject_Z T <= vy * inject_Z b)%Q).
  { rewrite <- Htb.
    setoid_replace (down * (inject_Z n * v * inject_Z b))%Q
      with (down * (inject_Z n * v) * inject_Z b)%Q by ring.
    apply Qmult_le_r_pos; [ lra | assumption ]. }
  assert (Hzb1 : (inject_Z z * inject_Z b <= vy * inject_Z b)%Q)
    by (apply Qmult_le_r_pos; lra).
  assert (Hzb2 : (vy * inject_Z b < (inject_Z z + 1) * inject_Z b)%Q)
    by (apply Qmult_lt_compat_r; lra).
  unfold up in Hyb1. unfold down in Hyb2.
  assert (Hup : z * b < T + 1).
  { rewrite Zlt_Qlt, inject_Z_plus, inject_Z_mult.
    change (inject_Z 1) with 1%Q. lra. }
  assert (Hdown : T < (z + 1) * b + 1).
  { rewrite Zlt_Qlt, inject_Z_plus, !inject_Z_mult, inject_Z_plus.
    change (inject_Z 1) with 1%Q. lra. }
  pose proof (Z.div_mod T b ltac:(lia)) as Hdm.
  pose proof (Z.mod_pos_bound T b ltac:(lia)) as Hmod.
  set (q := T / b) in *. set (r := T mod b) in *.
  split; [ split; nia | intros Hr; nia ].
Qed.

(** Only the height is given: the width is scaled the same way. *)
Lemma height_only_width (w h H : Z) (maintain_aspect : bool) :
  0 < w -> 0 < h < 2 ^ 51 -> 0 < H -> H * w < 2 ^ 51 ->
  exists nw,
    new_dimensions w h None (Some H) maintain_aspect = Ok (Some (nw, H)) /\
    H * w / h - 1 <= nw <= H * w / h /\
    ((H * w) mod h <> 0 -> nw = H * w / h).
Proof.
  intros Hw Hh HH HT.
  destruct (scaled_side w h H Hw Hh HH HT) as (z & Hrun & Hz).
  exists z. split; [ | exact Hz ].
  unfold new_dimensions. cbn [truthy arg andb]. nonzero H. cbn [negb].
  apply (Hrun _ (fun side => Ok (Some (side, H)))).
Qed.

(** C1 (counterexample).  An 11x15 image asked to be 11 wide gets height 14,
    not floor(11 * 15 / 11) = 15. *)
Lemma height_one_below_exact_quotient :
  new_dimensions 11 15 (Some 11) None true = Ok (Some (11, 14)) /\
  14 <> 11 * 15 / 11.
Proof. split; [ vm_compute; reflexivity | vm_compute; discriminate ]. Qed.

(** C1 (amended).  For a source image of size (w, h) and a request with
    maintainAspect = true where only targetWidth = W is given (all positive,
    w and W * h below 2^51), [resize_image] computes newWidth = W and
    newHeight = floor(W * h / w) whenever w does not divide W * h; when it
    does, newHeight is W * h / w or one less. *)
Theorem width_only_height (w h W : Z) :
  0 < w < 2 ^ 51 -> 0 < h -> 0 < W -> W * h < 2 ^ 51 ->
  exists nh,
    new_dimensions w h (Some W) None true = Ok (Some (W, nh)) /\
    W * h / w - 1 <= nh <= W * h / w /\
    ((W * h) mod w <> 0 -> nh = W * h / w).
Proof.
  intros Hw Hh HW HT.
  destruct (scaled_side h w W Hh Hw HW HT) as (z & Hrun & Hz).
  exists z. split; [ | exact Hz ].
  unfold new_dimensions. cbn [truthy arg andb]. nonzero W. cbn [negb andb].
  apply (Hrun _ (fun side => Ok (Some (W, side)))).
Qed.

(** The theorem applied to a 1600x900 image asked to be 800 wide. *)
Lemma width_only_height_witness :
  exists nh,
    new_dimensions 1600 900 (Some 800) None true = Ok (Some (800, nh)) /\
    800 * 900 / 1600 - 1 <= nh <= 800 * 900 / 1600 /\
    ((800 * 900) mod 1600 <> 0 -> nh = 800 * 900 / 1600).
Proof.
  apply (width_only_height 1600 900 800);
    [ split; reflexivity | reflexivity | reflexivity | reflexivity ].
Defined.

(** ** Both sides are given *)

(** A box smaller than 2^51 on each side is never exceeded: one side of the
    result is the side of the box, the other is scaled and truncated. *)
Lemma box_sides (w h W H : Z) :
  0 < w < 2 ^ 51 -> 0 < h < 2 ^ 51 -> 0 < W < 2 ^ 51 -> 0 < H < 2 ^ 51 ->
  exists nw nh,
    new_dimensions w h (Some W) (Some H) true = Ok (Some (nw, nh)) /\
    nw <= W /\ nh <= H /\ (nw = W \/ nh = H).
Proof.
  intros Hw Hh HW HH.
  unfold new_dimensions. cbn [truthy arg].
  nonzero W.
  nonzero H.
  cbn [negb andb].
  pose proof (ratio_spec w h ltac:(lia)) as Hv1.
  pose proof (ratio_bounds w h Hw Hh) as Hb1.
  pose proof (ratio_spec W H ltac:(lia)) as Hv2.
  pose proof (ratio_bounds W H HW HH) as Hb2.
  set (v1 := ratio w h) in *. set (v2 := ratio W H) in *.
  pose proof (size_as_rational w Hw) as Hwq. pose proof (size_as_rational h Hh) as Hhq.
  pose proof (size_as_rational W HW) as HWq. pose proof (size_as_rational H HH) as HHq.
  pose proof pow2_m1000_small as Hsmall. pose proof pow2_1000_big as Hbig.
  destruct (int_truediv_correct w h v1 (below_2_1000 w Hw) (below_2_1000 h Hh) Hv1)
    as (fa & va & -> & Hna & [Ha1 Ha2]).
  destruct (int_truediv_correct W H v2 (below_2_1000 W HW) (below_2_1000 H HH) Hv2)
    as (fb & vb & -> & Hnb & [Hb1' Hb2']).
  cbn [bind]. unfold eps in *.
  unfold PyFloat.gt. pose proof (SFltb_normal fa fb va vb Hna Hnb) as Hcmp.
  assert (Hvalo : ((1 # 4503599627370496) <= va)%Q) by lra.
  assert (Hvahi : (va <= 4503599627370496 # 1)%Q) by lra.
  destruct (SFltb fa fb).
  - (* the height binds *)
    assert (HHva : (inject_Z H * va < inject_Z H * vb)%Q)
      by (apply Qmult_lt_l; lra).
    assert (HHvb : (inject_Z H * vb <= (1 + (1 # 9007199254740992)) * inject_Z W)%Q).
    { rewrite <- Hv2.
      setoid_replace ((1 + (1 # 9007199254740992)) * (v2 * inject_Z H))%Q
        with (inject_Z H * ((1 + (1 # 9007199254740992)) * v2))%Q by ring.
      apply Qmult_le_l; lra. }
    assert (HHlo : ((1 # 4503599627370496) <= inject_Z H * va)%Q) by nra.
    destruct (int_mul_float_correct H fa va (below_2_53 H HH) Hna)
      as (fy & vy & -> & Hny & [Hy1 Hy2]);
      [ split; lra | ].
    cbn [bind]. unfold eps in *.
    destruct (to_int_floor fy vy Hny) as (z & -> & Hz1 & Hz2). cbn [bind].
    exists z, H. split; [ reflexivity | ].
    assert (Hz : z < W + 1).
    { rewrite Zlt_Qlt, inject_Z_plus. change (inject_Z 1) with 1%Q. lra. }
    repeat split; lia.
  - (* the width binds *)
    assert (Hvapos : (0 < va)%Q) by lra.
    pose proof (Qdiv_mult_cancel (inject_Z W) va Hvapos) as Hq.
    set (q := (inject_Z W / va)%Q) in *.
    assert (Hqpos : (0 < q)%Q) by nra.
    assert (Hq1 : (q * ((1 - (1 # 9007199254740992)) * v2) <= v2 * inject_Z H)%Q).
    { rewrite Hv2, <- Hq. apply Qmult_le_l; lra. }
    assert (Hq2 : (q * (1 - (1 # 9007199254740992)) <= inject_Z H)%Q).
    { apply (Qmult_le_r _ _ v2); [ lra | ].
      setoid_replace (q * (1 - (1 # 9007199254740992)) * v2)%Q
        with (q * ((1 - (1 # 9007199254740992)) * v2))%Q by ring.
      setoid_replace (inject_Z H * v2)%Q with (v2 * inject_Z H)%Q by ring.
      assumption. }
    assert (Hq3 : ((1 # 4503599627370496) <= q)%Q).
    { apply (Qmult_le_r _ _ va); [ lra | ]. rewrite Hq. nra. }
    destruct (int_div_float_correct W fa va q (below_2_53 W HW) Hna Hq)
      as (fy & vy & -> & Hny & [Hy1 Hy2]);
      [ split; lra | ].
    cbn [bind]. unfold eps in *.
    destruct (to_int_floor fy vy Hny) as (z & -> & Hz1 & Hz2). cbn [bind].
    exists W, z. split; [ reflexivity | ].
    assert (Hz : z < H + 1).
    { rewrite Zlt_Qlt, inject_Z_plus. change (inject_Z 1) with 1%Q. lra. }
    repeat split; lia.
Qed.

(** C2 (counterexample).  For a 1x1 image and the box 2^53+3 by 2^53+3 the
    computed height is 2^53+4: it exceeds the box. *)
Lemma huge_box_exceeded :
  new_dimensions 1 1 (Some 9007199254740995) (Some 9007199254740995) true
  = Ok (Some (9007199254740995, 9007199254740996)) /\
  ~ (9007199254740996 <= 9007199254740995).
Proof. split; [ vm_compute; reflexivity | lia ]. Qed.

(** C2 (amended).  For a source image of size (w, h) and a request with
    maintainAspect = true and both targetWidth = W and targetHeight = H given
    (all positive and below 2^51), [resize_image] computes dimensions with
    newWidth <= W, newHeight <= H, and newWidth = W or newHeight = H. *)
Theorem fits_in_box (w h W H : Z) :
  0 < w < 2 ^ 51 -> 0 < h < 2 ^ 51 -> 0 < W < 2 ^ 51 -> 0 < H < 2 ^ 51 ->
  exists nw nh,
    new_dimensions w h (Some W) (Some H) true = Ok (Some (nw, nh)) /\
    nw <= W /\ nh <= H /\ (nw = W \/ nh = H).
Proof. exact (box_sides w h W H). Qed.

(** The theorem applied to a 1000x500 image and the box 800x1080. *)
Lemma fits_in_box_witness :
  exists nw nh,
    new_dimensions 1000 500 (Some 800) (Some 1080) true = Ok (Some (nw, nh)) /\
    nw <= 800 /\ nh <= 1080 /\ (nw = 800 \/ nh = 1080).
Proof.
  apply (fits_in_box 1000 500 800 1080); split; reflexivity.
Defined.

(** The three scenarios of the specification. *)
Lemma spec_examples :
  new_dimensions 1600 900 (Some 800) None true = Ok (Some (800, 450)) /\
  new_dimensions 1000 500 (Some 800) (Some 1080) true = Ok (Some (800, 400)) /\
  new_dimensions 500 500 (Some 1920) (Some 1080) false = Ok (Some (1920, 1080)).
Proof. repeat split; vm_compute; reflexivity. Qed.

(** Below 2^51 the resolver returns dimensions whenever one is asked for. *)
Lemma new_dimensions_returns (w h : Z) (width height : option Z)
    (maintain_aspect : bool) :
  0 < w < 2 ^ 51 -> 0 < h < 2 ^ 51 ->
  positive_if_given width = true -> positive_if_given height = true ->
  arg width * h < 2 ^ 51 -> arg height * w < 2 ^ 51 ->
  arg width < 2 ^ 51 -> arg height < 2 ^ 51 ->
  width <> None \/ height <> None ->
  exists nw nh,
    new_dimensions w h width height maintain_aspect = Ok (Some (nw, nh)).
Proof.
  intros Hw Hh Hpw Hph Hwh Hhw HWb HHb Hgiven.
  destruct width as [W |], height as [H |]; cbn [arg positive_if_given] in *.
  - apply Z.ltb_lt in Hpw, Hph. destruct maintain_aspect.
    + destruct (box_sides w h W H) as (nw & nh & Hrun & _); try lia. eauto.
    + unfold new_dimensions. cbn [truthy arg]. nonzero W. nonzero H.
      cbn [negb andb]. eauto.
  - apply Z.ltb_lt in Hpw.
    destruct (scaled_side h w W) as (z & Hrun & _); try lia.
    exists W, z. unfold new_dimensions. cbn [truthy arg andb]. nonzero W.
    cbn [negb andb]. apply (Hrun _ (fun side => Ok (Some (W, side)))).
  - apply Z.ltb_lt in Hph.
    destruct (scaled_side w h H) as (z & Hrun & _); try lia.
    exists z, H. unfold new_dimensions. cbn [truthy arg andb]. nonzero H.
    cbn [negb]. apply (Hrun _ (fun side => Ok (Some (side, H)))).
  - destruct Hgiven as [G | G]; congruence.
Qed.

(** ** No dimension is negative, some are 0 *)

(** Rounding with a positive sign gives no negative number. *)
Lemma binary_round_aux_unsigned mx ex lx :
  unsigned (binary_round_aux 53 1024 false mx ex lx).
Proof.
  unfold binary_round_aux.
  destruct (shr_fexp 53 1024 mx ex lx) as [mrs' e'].
  destruct (shr_fexp 53 1024 _ e' loc_Exact) as [mrs'' e''].
  destruct (shr_m mrs''); [ exact I | | exact I ].
  destruct (Z.leb _ _); [ reflexivity | exact I ].
Qed.

(** Products and quotients of numbers that are not negative are not negative. *)
Lemma SFmul_unsigned f g :
  unsigned f -> unsigned g -> unsigned (SFmul 53 1024 f g).
Proof.
  destruct f as [sf | sf | | sf mf ef], g as [sg | sg | | sg mg eg];
    cbn [SFmul unsigned]; intros Hf Hg; trivial.
  subst. apply binary_round_aux_unsigned.
Qed.

Lemma SFdiv_unsigned f g :
  unsigned f -> unsigned g -> unsigned (SFdiv 53 1024 f g).
Proof.
  destruct f as [sf | sf | | sf mf ef], g as [sg | sg | | sg mg eg];
    cbn [SFdiv unsigned]; intros Hf Hg; trivial.
  subst. cbn [xorb].
  destruct (SFdiv_core_binary 53 1024 (Zpos mf) ef (Zpos mg) eg) as [[mz ez] lz].
  apply binary_round_aux_unsigned.
Qed.

Lemma checked_inv f g : PyFloat.checked f = Ok g -> g = f.
Proof. destruct f; cbn; congruence. Qed.

Lemma of_int_unsigned n f : 0 <= n -> PyFloat.of_int n = Ok f -> unsigned f.
Proof.
  intros Hn H. apply checked_inv in H. subst f.
  destruct n as [| p | p]; [ exact I | | lia ].
  cbn [binary_normalize]. unfold binary_round.
  destruct (shl_align _ _ _) as [mz ez]. apply binary_round_aux_unsigned.
Qed.

Lemma int_truediv_unsigned a b f :
  0 < a -> 0 < b -> PyFloat.int_truediv a b = Ok f -> unsigned f.
Proof.
  intros Ha Hb. unfold PyFloat.int_truediv.
  destruct a as [| pa | pa]; try lia. destruct b as [| pb | pb]; try lia.
  cbn [Z.eqb PyFloat.exact_int]. intros H. apply checked_inv in H. subst f.
  apply SFdiv_unsigned; reflexivity.
Qed.

Lemma int_mul_float_unsigned n x f :
  0 <= n -> unsigned x -> PyFloat.int_mul_float n x = Ok f -> unsigned f.
Proof.
  intros Hn Hx. unfold PyFloat.int_mul_float.
  destruct (PyFloat.of_int n) as [fn | e] eqn:E; cbn [bind]; [ | discriminate ].
  intros H. injection H as <-.
  apply SFmul_unsigned; [ eapply of_int_unsigned; eassumption | assumption ].
Qed.

Lemma int_div_float_unsigned n x f :
  0 <= n -> unsigned x -> PyFloat.int_div_float n x = Ok f -> unsigned f.
Proof.
  intros Hn Hx. unfold PyFloat.int_div_float.
  destruct (PyFloat.of_int n) as [fn | e] eqn:E; cbn [bind]; [ | discriminate ].
  destruct (PyFloat.is_zero x); [ discriminate | ].
  intros H. injection H as <-.
  apply SFdiv_unsigned; [ eapply of_int_unsigned; eassumption | assumption ].
Qed.

(** Truncating a number that is not negative gives a natural number. *)
Lemma to_int_unsigned f z : unsigned f -> PyFloat.to_int f = Ok z -> 0 <= z.
Proof.
  destruct f as [s | s | | s m e]; cbn [PyFloat.to_int unsigned]; intros Hs H;
    try discriminate; injection H as <-; [ lia | ].
  subst s. cbn [cond_Zopp]. apply Z.shiftl_nonneg. lia.
Qed.

(** A sequence that returns went through each of its steps. *)
Lemma bind_ok {A B : Type} (r : result A) (k : A -> result B) (b : B) :
  bind r k = Ok b -> exists a, r = Ok a /\ k a = Ok b.
Proof. destruct r; cbn; [ eauto | discriminate ]. Qed.

(** C5 (counterexample).  A 1000x1 image asked to be 10 wide gets height 0:
    the computed dimension is not clamped to 1. *)
Lemma zero_height_not_clamped :
  new_dimensions 1000 1 (Some 10) None true = Ok (Some (10, 0)) /\
  ~ (0 < 0).
Proof. split; [ vm_compute; reflexivity | lia ]. Qed.

(** C5 (amended).  For a source image with positive sides and a request whose
    given target dimensions are positive, the dimensions [resize_image]
    computes are non-negative integers and one of them is positive; nothing
    clamps a computed dimension, which can be 0. *)
Theorem dimensions_not_negative (w h : Z) (width height : option Z)
    (maintain_aspect : bool) (nw nh : Z) :
  0 < w -> 0 < h ->
  positive_if_given width = true -> positive_if_given height = true ->
  new_dimensions w h width height maintain_aspect = Ok (Some (nw, nh)) ->
  0 <= nw /\ 0 <= nh /\ (0 < nw \/ 0 < nh).
Proof.
  intros Hw Hh Hpw Hph. unfold new_dimensions.
  destruct width as [W |], height as [H |]; cbn [truthy arg andb].
  - apply Z.ltb_lt in Hpw, Hph.
    nonzero W.
    nonzero H.
    cbn [negb andb]. destruct maintain_aspect.
    + intros Hres.
      apply bind_ok in Hres as (a & Ea & Hres).
      apply bind_ok in Hres as (b & Eb & Hres).
      pose proof (int_truediv_unsigned _ _ _ Hw Hh Ea) as Ua.
      destruct (PyFloat.gt b a).
      * apply bind_ok in Hres as (y & Ey & Hres).
        apply bind_ok in Hres as (z & Ez & Hres).
        injection Hres as <- <-.
        pose proof (int_mul_float_unsigned H a y ltac:(lia) Ua Ey) as Uy.
        pose proof (to_int_unsigned y z Uy Ez). lia.
      * apply bind_ok in Hres as (y & Ey & Hres).
        apply bind_ok in Hres as (z & Ez & Hres).
        injection Hres as <- <-.
        pose proof (int_div_float_unsigned W a y ltac:(lia) Ua Ey) as Uy.
        pose proof (to_int_unsigned y z Uy Ez). lia.
    + intros Hres. injection Hres as <- <-. lia.
  - apply Z.ltb_lt in Hpw.
    nonzero W.
    cbn [negb andb]. intros Hres.
    apply bind_ok in Hres as (a & Ea & Hres).
    apply bind_ok in Hres as (y & Ey & Hres).
    apply bind_ok in Hres as (z & Ez & Hres).
    injection Hres as <- <-.
    pose proof (int_truediv_unsigned _ _ _ Hh Hw Ea) as Ua.
    pose proof (int_mul_float_unsigned W a y ltac:(lia) Ua Ey) as Uy.
    pose proof (to_int_unsigned y z Uy Ez). lia.
  - apply Z.ltb_lt in Hph.
    nonzero H.
    cbn [negb andb]. intros Hres.
    apply bind_ok in Hres as (a & Ea & Hres).
    apply bind_ok in Hres as (y & Ey & Hres).
    apply bind_ok in Hres as (z & Ez & Hres).
    injection Hres as <- <-.
    pose proof (int_truediv_unsigned _ _ _ Hw Hh Ea) as Ua.
    pose proof (int_mul_float_unsigned H a y ltac:(lia) Ua Ey) as Uy.
    pose proof (to_int_unsigned y z Uy Ez). lia.
  - discriminate.
Qed.

(** The theorem applied to a 1000x1 image asked to be 10 wide. *)
Lemma dimensions_not_negative_witness :
  new_dimensions 1000 1 (Some 10) None true = Ok (Some (10, 0)) /\
  (0 <= 10 /\ 0 <= 0 /\ (0 < 10 \/ 0 < 0)).
Proof.
  split; [ vm_compute; reflexivity | ].
  apply (dimensions_not_negative 1000 1 (Some 10) None true 10 0);
    [ lia | lia | reflexivity | reflexivity | vm_compute; reflexivity ].
Defined.

(** ** A dimension of 0 *)

(** A width of 0 is no width; a height of 0 is no height. *)
Lemma new_dimensions_zero_width w h height maintain_aspect :
  new_dimensions w h (Some 0) height maintain_aspect
  = new_dimensions w h None height maintain_aspect.
Proof. reflexivity. Qed.

Lemma new_dimensions_zero_height w h width maintain_aspect :
  new_dimensions w h width (Some 0) maintain_aspect
  = new_dimensions w h width None maintain_aspect.
Proof.
  unfold new_dimensions. cbn [truthy Z.eqb negb].
  rewrite andb_false_r. destruct (truthy width); reflexivity.
Qed.

(** [resize_image] depends on the requested sizes through [new_dimensions]
    only. *)
Lemma resize_image_dimensions E input_path output_path width height width' height'
    maintain_aspect quality output_format w :
  (forall ow oh, new_dimensions ow oh width height maintain_aspect
                 = new_dimensions ow oh width' height' maintain_aspect) ->
  resize_image E input_path output_path width height maintain_aspect quality
               output_format w
  = resize_image E input_path output_path width' height' maintain_aspect quality
                 output_format w.
Proof.
  intros H. unfold resize_image, try_except, mbind.
  destruct (image_open E (files E w) input_path) as [img | e]; [ | reflexivity ].
  destruct (size img) as [ow oh]. unfold lift. rewrite H. reflexivity.
Qed.

(** With only the width counting, the rule of lines 88-92 gives the width
    asked for and the height scaled to it. *)
Lemma width_only_scaled (w h W : Z) :
  0 < w < 2 ^ 51 -> 0 < h -> 0 < W -> W * h < 2 ^ 51 ->
  exists nh,
    width_only w h W = Ok (Some (W, nh)) /\
    W * h / w - 1 <= nh <= W * h / w /\
    ((W * h) mod w <> 0 -> nh = W * h / w).
Proof.
  intros Hw Hh HW HT.
  destruct (scaled_side h w W Hh Hw HW HT) as (z & Hrun & Hz).
  exists z. split; [ | exact Hz ].
  apply (Hrun _ (fun side => Ok (Some (W, side)))).
Qed.

(** With only the height counting, the rule of lines 93-97 gives the height
    asked for and the width scaled to it. *)
Lemma height_only_scaled (w h H : Z) :
  0 < w -> 0 < h < 2 ^ 51 -> 0 < H -> H * w < 2 ^ 51 ->
  exists nw,
    height_only w h H = Ok (Some (nw, H)) /\
    H * w / h - 1 <= nw <= H * w / h /\
    ((H * w) mod h <> 0 -> nw = H * w / h).
Proof.
  intros Hw Hh HH HT.
  destruct (scaled_side w h H Hw Hh HH HT) as (z & Hrun & Hz).
  exists z. split; [ | exact Hz ].
  apply (Hrun _ (fun side => Ok (Some (side, H)))).
Qed.

(** A width of 0 with a height, and no width with that height: the rule of
    the height alone. *)
Lemma new_dimensions_height_only ow oh H maintain_aspect :
  H <> 0 ->
  new_dimensions ow oh (Some 0) (Some H) maintain_aspect = height_only ow oh H /\
  new_dimensions ow oh None (Some H) maintain_aspect = height_only ow oh H.
Proof.
  intros HH. unfold new_dimensions, height_only. cbn [truthy arg Z.eqb negb andb].
  nonzero H. split; reflexivity.
Qed.

Lemma new_dimensions_width_only ow oh W maintain_aspect :
  W <> 0 ->
  new_dimensions ow oh (Some W) (Some 0) maintain_aspect = width_only ow oh W /\
  new_dimensions ow oh (Some W) None maintain_aspect = width_only ow oh W.
Proof.
  intros HW. unfold new_dimensions, width_only. cbn [truthy arg Z.eqb negb andb].
  nonzero W. split; reflexivity.
Qed.


(** * Transparency and JPEG *)

(** Pasting on a uniform background is a map over the source. *)
Lemma map2_repeat {A B : Type} (f : A -> B -> A) (c : A) (src : list B) :
  Pillow.map2 f (repeat c (List.length src)) src = map (f c) src.
Proof.
  induction src as [| s src IH]; cbn; [ reflexivity | ]. rewrite IH. reflexivity.
Qed.

Lemma combine_fst_snd {A B : Type} (l : list (A * B)) :
  combine (map fst l) (map snd l) = l.
Proof.
  induction l as [| [a b] l IH]; cbn; [ reflexivity | ]. rewrite IH. reflexivity.
Qed.

(** Under a mask of 0 the white background shows. *)
Lemma blend8_transparent (s : Z) : Pillow.blend8 0 255 s = 255.
Proof. unfold Pillow.blend8. rewrite Z.mul_0_r. reflexivity. Qed.

Lemma blend_transparent (s : rgb) : Pillow.blend 0 Pillow.white s = Pillow.white.
Proof.
  destruct s as [[r g] b]. unfold Pillow.blend, Pillow.white.
  rewrite !blend8_transparent. reflexivity.
Qed.

(** An RGBA image is composited over white, its alpha channel as the mask. *)
Lemma jpeg_rgb_rgba (sz : Z * Z) (fmt : option string) (px : list rgba) :
  well_formed (mkImage sz fmt (RasterRGBA px)) ->
  jpeg_rgb (mkImage sz fmt (RasterRGBA px))
  = mkImage sz None
      (RasterRGB (map (fun '(s, a) => Pillow.blend a Pillow.white s) px)).
Proof.
  unfold well_formed. cbn [data size pixel_count]. intros Hwf.
  unfold jpeg_rgb.
  cbn [mode data string_in existsb String.eqb Ascii.eqb Bool.eqb orb size].
  unfold Pillow.paste, Pillow.new_rgb.
  cbn [data size format Pillow.colour_bytes Pillow.last_band fst snd].
  rewrite <- Hwf, combine_fst_snd.
  rewrite (map2_repeat (fun (d : rgb) '(s, a) => Pillow.blend a d s)).
  reflexivity.
Qed.

(** Fully transparent RGBA pixels come out white. *)
Lemma jpeg_rgb_transparent_rgba (sz : Z * Z) (fmt : option string) (px : list rgba) :
  well_formed (mkImage sz fmt (RasterRGBA px)) ->
  Forall (fun p => snd p = 0) px ->
  jpeg_rgb (mkImage sz fmt (RasterRGBA px))
  = mkImage sz None (RasterRGB (map (fun _ => Pillow.white) px)).
Proof.
  intros Hwf Ha. rewrite jpeg_rgb_rgba by assumption. f_equal. f_equal.
  apply map_ext_in. intros [s a] Hin.
  rewrite Forall_forall in Ha. specialize (Ha _ Hin). cbn in Ha. subst a.
  apply blend_transparent.
Qed.

(** A palette image is expanded to RGBA first, then composited the same. *)
Lemma jpeg_rgb_palette (sz : Z * Z) (fmt : option string)
    (palette : list rgba) (px : list nat) :
  jpeg_rgb (mkImage sz fmt (RasterP palette px))
  = jpeg_rgb (Pillow.convert_rgba (mkImage sz fmt (RasterP palette px))).
Proof. reflexivity. Qed.

(** A grey image with alpha is pasted without a mask: its alpha is ignored. *)
Lemma jpeg_rgb_la (sz : Z * Z) (fmt : option string) (px : list (Z * Z)) :
  well_formed (mkImage sz fmt (RasterLA px)) ->
  jpeg_rgb (mkImage sz fmt (RasterLA px))
  = mkImage sz None (RasterRGB (map (fun '(l, _) => (l, l, l)) px)).
Proof.
  unfold well_formed. cbn [data size pixel_count]. intros Hwf.
  unfold jpeg_rgb.
  cbn [mode data string_in existsb String.eqb Ascii.eqb Bool.eqb orb size].
  unfold Pillow.paste, Pillow.new_rgb.
  cbn [data size format Pillow.colour_bytes fst snd].
  rewrite <- Hwf.
  replace (List.length px) with (List.length (map (fun '(l, _) => (l, l, l)) px))
    by apply length_map.
  rewrite (map2_repeat (fun (_ : rgb) (s : rgb) => s)).
  rewrite map_id. reflexivity.
Qed.

(** C3 (the code at the failing input).  A fully transparent grey pixel
    written as JPEG comes out black, not white: the alpha channel of an LA
    image is not used as the mask. *)
Theorem la_transparent_pixel_not_white :
  jpeg_rgb (mkImage (1, 1) None (RasterLA [(0, 0)]))
  = mkImage (1, 1) None (RasterRGB [(0, 0, 0)]).
Proof. reflexivity. Qed.

(** * The batch *)

Section Batch.

Variable E : Env.

(** Unfolds the plumbing of the world monad. *)
Ltac run :=
  unfold mbind, try_except, ret, raise, lift, print, read_fs, save in *;
  cbn [fst snd] in *.

(** A file Pillow cannot open makes [resize_image] print the error and return
    [False]; nothing is written. *)
Lemma resize_image_unreadable input_path output_path width height maintain_aspect
    quality output_format (w : world E) (e : exn) :
  image_open E (files E w) input_path = Raise e ->
  resize_image E input_path output_path width height maintain_aspect quality
               output_format w
  = (Ok false, mkWorld E (files E w) (printed E w ++ [MsgError input_path e])).
Proof. intros H. unfold resize_image. run. rewrite H. reflexivity. Qed.

(** Every call of [resize_image] returns, and does what one of the rules of
    [attempt] says. *)
Lemma resize_image_attempt input_path output_path width height maintain_aspect
    quality output_format (w : world E) :
  exists ok w',
    resize_image E input_path output_path width height maintain_aspect quality
                 output_format w = (Ok ok, w') /\
    attempt E input_path output_path width height maintain_aspect quality
            output_format w ok w'.
Proof.
  unfold resize_image. run.
  destruct (image_open E (files E w) input_path) as [img | e] eqn:Hopen.
  2: { eexists _, _. split; [ reflexivity | ].
       apply attempt_unreadable. exact Hopen. }
  destruct (size img) as [ow oh] eqn:Hsize.
  destruct (new_dimensions ow oh width height maintain_aspect)
    as [[[nw nh] |] | e] eqn:Hdims;
    replace ow with (fst (size img)) in Hdims by (rewrite Hsize; reflexivity);
    replace oh with (snd (size img)) in Hdims by (rewrite Hsize; reflexivity).
  - destruct (image_resize E img (nw, nh)) as [resized | e] eqn:Hresize.
    2: { eexists _, _. split; [ reflexivity | ].
         eapply attempt_not_resized; eassumption. }
    unfold save_resized. run.
    destruct (is_jpeg (effective_format output_format img)) eqn:Hj.
    + destruct (image_save E (files E w) (jpeg_rgb resized) output_path _ _)
        as [f [[] | e]] eqn:Hsave; cbn [files printed];
        eexists _, _; (split; [ reflexivity | ]); rewrite <- ?Hsize.
      * eapply attempt_saved; try eassumption. rewrite Hj. exact Hsave.
      * eapply attempt_not_saved; try eassumption. rewrite Hj. exact Hsave.
    + destruct (image_save E (files E w) resized output_path _ _)
        as [f [[] | e]] eqn:Hsave; cbn [files printed];
        eexists _, _; (split; [ reflexivity | ]); rewrite <- ?Hsize.
      * eapply attempt_saved; try eassumption. rewrite Hj. exact Hsave.
      * eapply attempt_not_saved; try eassumption. rewrite Hj. exact Hsave.
  - eexists _, _. split; [ reflexivity | ].
    eapply attempt_no_dimensions; eassumption.
  - eexists _, _. split; [ reflexivity | ].
    eapply attempt_no_size; eassumption.
Qed.

(** A file that cannot be opened has one outcome. *)
Lemma attempt_of_unreadable input_path output_path width height maintain_aspect
    quality output_format (v v' : world E) (ok : bool) (e : exn) :
  image_open E (files E v) input_path = Raise e ->
  attempt E input_path output_path width height maintain_aspect quality
          output_format v ok v' ->
  ok = false /\
  v' = mkWorld E (files E v) (printed E v ++ [MsgError input_path e])%list.
Proof.
  intros Hopen Hatt.
  destruct Hatt as [e' H | img H | img e' H | img nw nh e' H | img nw nh r f e' H
                   | img nw nh r f H];
    rewrite Hopen in H; try discriminate H.
  injection H as <-. split; reflexivity.
Qed.

(** The loop returns its counters advanced by the outcomes of the calls. *)
Lemma resize_each_processed image_files output_folder width height maintain_aspect
    quality output_format prefix suffix success_count failed_count (w : world E) :
  exists outcomes w',
    resize_each E image_files output_folder width height maintain_aspect quality
                output_format prefix suffix success_count failed_count w
    = (Ok (success_count + tally true outcomes,
           failed_count + tally false outcomes), w') /\
    processed E output_folder width height maintain_aspect quality
              output_format prefix suffix w image_files outcomes w'.
Proof.
  revert success_count failed_count w.
  induction image_files as [| image_path rest IH]; intros success_count failed_count w.
  - exists [], w. cbn. rewrite !Z.add_0_r. split; [ reflexivity | constructor ].
  - cbn [resize_each]. unfold mbind at 1.
    destruct (resize_image_attempt image_path
                (OsPath.join output_folder
                   (output_name image_path output_format prefix suffix))
                width height maintain_aspect quality output_format w)
      as (ok & w1 & Hcall & Hatt).
    rewrite Hcall. destruct ok.
    + destruct (IH (success_count + 1) failed_count w1)
        as (outcomes & w' & Hrest & Hproc).
      exists (true :: outcomes), w'. split.
      * rewrite Hrest. cbn [tally Bool.eqb]. do 3 f_equal; lia.
      * econstructor; eassumption.
    + destruct (IH success_count (failed_count + 1) w1)
        as (outcomes & w' & Hrest & Hproc).
      exists (false :: outcomes), w'. split.
      * rewrite Hrest. cbn [tally Bool.eqb]. do 3 f_equal; lia.
      * econstructor; eassumption.
Qed.

(** Every outcome is counted once. *)
Lemma tally_total outcomes :
  tally true outcomes + tally false outcomes = Z.of_nat (List.length outcomes).
Proof.
  induction outcomes as [| [] outcomes IH]; cbn [tally Bool.eqb List.length];
    rewrite ?Nat2Z.inj_succ; lia.
Qed.

(** A run has one outcome per image file. *)
Lemma processed_length output_folder width height maintain_aspect quality
    output_format prefix suffix (w w' : world E) image_files outcomes :
  processed E output_folder width height maintain_aspect quality output_format
            prefix suffix w image_files outcomes w' ->
  List.length outcomes = List.length image_files.
Proof. induction 1; cbn; congruence. Qed.

(** What [resize_listed] returns, in terms of the run of its loop. *)
Lemma resize_listed_run image_files input_folder output_folder width height
    maintain_aspect quality output_format prefix suffix (w : world E) :
  exists outcomes w1 w2 w',
    resize_listed E image_files input_folder output_folder width height
                  maintain_aspect quality output_format prefix suffix w
    = (Ok (mkSummary (Z.of_nat (List.length image_files))
                     (tally true outcomes) (tally false outcomes)), w') /\
    files E w1 = files E w /\
    processed E output_folder width height maintain_aspect quality
              output_format prefix suffix w1 image_files outcomes w2 /\
    files E w' = files E w2.
Proof.
  destruct image_files as [| image_path rest].
  - exists [], w, w. eexists. cbn. run. split; [ reflexivity | ].
    split; [ reflexivity | ]. split; [ constructor | reflexivity ].
  - unfold resize_listed. set (image_files := image_path :: rest). run.
    match goal with
    | |- context [resize_each E image_files ?o ?wd ?ht ?ma ?q ?f ?p ?s 0 0 ?w1] =>
      destruct (resize_each_processed image_files o wd ht ma q f p s 0 0 w1)
        as (outcomes & w2 & Hloop & Hproc);
      exists outcomes, w1, w2
    end.
    rewrite Hloop. rewrite !Z.add_0_l.
    destruct (0 <? tally false outcomes); eexists;
      (split; [ reflexivity | ]); (split; [ reflexivity | ]);
      (split; [ exact Hproc | reflexivity ]).
Qed.

(** What [resize_listed] prints around the run of its loop, and returns. *)
Lemma resize_listed_processed image_files input_folder output_folder width height
    maintain_aspect quality output_format prefix suffix (w : world E) :
  match image_files with
  | [] =>
    resize_listed E image_files input_folder output_folder width height
                  maintain_aspect quality output_format prefix suffix w
    = (Ok (mkSummary 0 0 0),
       mkWorld E (files E w) (printed E w ++ [MsgNoImages input_folder])%list)
  | _ :: _ =>
    exists outcomes w2,
      processed E output_folder width height maintain_aspect quality
                output_format prefix suffix
                (mkWorld E (files E w)
                   (printed E w
                    ++ report_header image_files input_folder output_folder
                                     width height maintain_aspect)%list)
                image_files outcomes w2 /\
      resize_listed E image_files input_folder output_folder width height
                    maintain_aspect quality output_format prefix suffix w
      = (Ok (mkSummary (Z.of_nat (List.length image_files))
                       (tally true outcomes) (tally false outcomes)),
         mkWorld E (files E w2)
           (printed E w2
            ++ report_footer (tally true outcomes) (tally false outcomes))%list)
  end.
Proof.
  destruct image_files as [| image_path rest]; [ reflexivity | ].
  unfold resize_listed. set (image_files := image_path :: rest). run.
  cbn [files printed].
  match goal with
  | |- context [resize_each E image_files ?o ?wd ?ht ?ma ?q ?f ?p ?s 0 0 ?w1] =>
    replace w1
      with (mkWorld E (files E w)
              (printed E w
               ++ report_header image_files input_folder output_folder
                                width height maintain_aspect)%list)
      by (unfold report_header; rewrite <- !app_assoc; reflexivity)
  end.
  match goal with
  | |- context [resize_each E image_files ?o ?wd ?ht ?ma ?q ?f ?p ?s 0 0 ?w1] =>
    destruct (resize_each_processed image_files o wd ht ma q f p s 0 0 w1)
      as (outcomes & w2 & Hloop & Hproc)
  end.
  exists outcomes, w2. split; [ exact Hproc | ].
  rewrite Hloop. rewrite !Z.add_0_l. unfold report_footer.
  destruct (0 <? tally false outcomes); cbn [files printed];
    rewrite <- ?app_assoc; reflexivity.
Qed.

End Batch.

(** Listing a folder changes no file, and fails only if [os.listdir] does. *)
Lemma collect_images_returns (E : Env) folder_path extensions names image_files
    (w : world E) :
  exists found,
    collect_images E folder_path extensions names image_files w = (Ok found, w).
Proof.
  revert image_files. induction names as [| filename rest IH]; intros image_files.
  - exists image_files. reflexivity.
  - cbn [collect_images]. unfold mbind, read_fs. apply IH.
Qed.

Lemma batch_resize_images_inv (E : Env) input_folder output_folder width height
    maintain_aspect quality output_format prefix suffix (w w' : world E) s :
  batch_resize_images E input_folder output_folder width height maintain_aspect
                      quality output_format prefix suffix w = (Ok s, w') ->
  exists f image_files w0,
    makedirs E (files E w) output_folder = Ok f /\
    get_images_from_folder E input_folder None (mkWorld E f (printed E w))
    = (Ok image_files, w0) /\
    resize_listed E image_files input_folder output_folder width height
                  maintain_aspect quality output_format prefix suffix w0
    = (Ok s, w').
Proof.
  unfold batch_resize_images, mbind.
  destruct (makedirs E (files E w) output_folder) as [f | e]; [ | discriminate ].
  destruct (get_images_from_folder E input_folder None _)
    as [[image_files | e] w0] eqn:Hl;
    [ | discriminate ].
  intros H. exists f, image_files, w0. auto.
Qed.

(** When the output folder can be made and the input folder can be listed,
    [batch_resize_images] returns a summary. *)
Lemma batch_resize_images_returns (E : Env) input_folder output_folder width height
    maintain_aspect quality output_format prefix suffix (w : world E) f :
  makedirs E (files E w) output_folder = Ok f ->
  (path_exists E f input_folder = false
   \/ exists names, listdir E f input_folder = Ok names) ->
  exists s w',
    batch_resize_images E input_folder output_folder width height maintain_aspect
                        quality output_format prefix suffix w = (Ok s, w').
Proof.
  intros Hmk Hls. unfold batch_resize_images, mbind at 1. rewrite Hmk.
  unfold mbind at 1.
  assert (Hget : exists image_files w0,
             get_images_from_folder E input_folder None (mkWorld E f (printed E w))
             = (Ok image_files, w0)).
  { unfold get_images_from_folder, mbind, read_fs, print, ret. cbn [files].
    destruct (path_exists E f input_folder) eqn:Hex; cbn [negb files].
    - destruct Hls as [Hno | (names & Hnames)]; [ discriminate | ].
      rewrite Hnames.
      destruct (collect_images_returns E input_folder default_extensions names
                  [] (mkWorld E f (printed E w))) as (found & ->). eauto.
    - eauto. }
  destruct Hget as (image_files & w0 & ->).
  destruct (resize_listed_run E image_files input_folder output_folder width
              height maintain_aspect quality output_format prefix suffix w0)
    as (outcomes & w1 & w2 & w' & Hrun & _).
  rewrite Hrun. eauto.
Qed.

(** Listing the input folder returns when the folder is missing or can be
    listed, and changes no file. *)
Lemma get_images_from_folder_returns (E : Env) folder_path extensions
    (w : world E) :
  (path_exists E (files E w) folder_path = false
   \/ exists names, listdir E (files E w) folder_path = Ok names) ->
  exists image_files w0,
    get_images_from_folder E folder_path extensions w = (Ok image_files, w0) /\
    files E w0 = files E w.
Proof.
  intros Hls. unfold get_images_from_folder, mbind, read_fs, print, ret.
  destruct (path_exists E (files E w) folder_path) eqn:Hex; cbn [negb files].
  - destruct Hls as [Hno | (names & Hnames)]; [ discriminate | ].
    rewrite Hnames.
    match goal with
    | |- context [collect_images E ?p ?x ?n ?l ?v] =>
      destruct (collect_images_returns E p x n l v) as (found & ->)
    end.
    eauto.
  - eexists _, _. split; reflexivity.
Qed.

(** C7 (counterexample).  An input path that is a regular file exists and
    cannot be listed: [os.listdir] raises, nothing catches it, and
    [batch_resize_images] ends with the exception instead of returning
    counts. *)
Lemma input_path_is_a_file :
  batch_resize_images with_files "in/notes.txt" "out" (Some 800) None true 95
                      None EmptyString EmptyString
                      (mkWorld with_files Sample.shelf [])
  = (Raise (OtherError "NotADirectoryError"),
     mkWorld with_files Sample.shelf []).
Proof. vm_compute. reflexivity. Qed.

(** C7 (amended).  Whenever the output folder can be made and the input
    folder is missing or can be listed, [batch_resize_images] completes and
    returns the counts: every listed file is attempted in turn, at its own
    output path and in the world the attempt before it left, whatever the
    outcomes; the summary counts the files, the attempts that returned
    [True] and those that returned [False]; with no image file it is
    0, 0, 0.  A file that cannot be opened has one outcome: the exception is
    caught, the error is printed, the attempt counts as failed and nothing is
    written. *)
Theorem batch_completes (E : Env) (input_folder output_folder : string)
    (width height : option Z) (maintain_aspect : bool) (quality : Z)
    (output_format : option string) (prefix suffix : string)
    (w : world E) (f : fs E) :
  makedirs E (files E w) output_folder = Ok f ->
  (path_exists E f input_folder = false
   \/ exists names, listdir E f input_folder = Ok names) ->
  exists (image_files : list string) (w0 : world E) (outcomes : list bool)
         (w2 w' : world E),
    get_images_from_folder E input_folder None (mkWorld E f (printed E w))
    = (Ok image_files, w0) /\
    batch_resize_images E input_folder output_folder width height maintain_aspect
                        quality output_format prefix suffix w
    = (Ok (mkSummary (Z.of_nat (List.length image_files))
                     (tally true outcomes) (tally false outcomes)), w') /\
    List.length outcomes = List.length image_files /\
    match image_files with
    | [] =>
      batch_resize_images E input_folder output_folder width height
                          maintain_aspect quality output_format prefix suffix w
      = (Ok (mkSummary 0 0 0),
         mkWorld E (files E w0) (printed E w0 ++ [MsgNoImages input_folder])%list)
    | _ :: _ =>
      processed E output_folder width height maintain_aspect quality
                output_format prefix suffix
                (mkWorld E (files E w0)
                   (printed E w0
                    ++ report_header image_files input_folder output_folder
                                     width height maintain_aspect)%list)
                image_files outcomes w2 /\
      w' = mkWorld E (files E w2)
             (printed E w2
              ++ report_footer (tally true outcomes) (tally false outcomes))%list
    end /\
    (forall (image_path output_path : string) (v : world E) (e : exn),
        image_open E (files E v) image_path = Raise e ->
        resize_image E image_path output_path width height maintain_aspect
                     quality output_format v
        = (Ok false,
           mkWorld E (files E v)
                   (printed E v ++ [MsgError image_path e])%list)) /\
    (forall (image_path output_path : string) (v v' : world E) (ok : bool)
            (e : exn),
        image_open E (files E v) image_path = Raise e ->
        attempt E image_path output_path width height maintain_aspect quality
                output_format v ok v' ->
        ok = false /\
        v' = mkWorld E (files E v) (printed E v ++ [MsgError image_path e])%list).
Proof.
  intros Hmk Hls.
  destruct (get_images_from_folder_returns E input_folder None
              (mkWorld E f (printed E w)) Hls) as (image_files & w0 & Hget & _).
  pose proof (resize_listed_processed E image_files input_folder output_folder
                width height maintain_aspect quality output_format prefix
                suffix w0) as Hrun.
  assert (Hbatch :
      batch_resize_images E input_folder output_folder width height
                          maintain_aspect quality output_format prefix suffix w
      = resize_listed E image_files input_folder output_folder width height
                      maintain_aspect quality output_format prefix suffix w0).
  { unfold batch_resize_images, mbind at 1. rewrite Hmk.
    unfold mbind at 1. rewrite Hget. reflexivity. }
  destruct image_files as [| image_path rest].
  - exists [], w0, [], w0. eexists.
    split; [ exact Hget | ]. rewrite Hbatch, Hrun.
    split; [ reflexivity | ]. split; [ reflexivity | ].
    split; [ reflexivity | ]. split.
    + intros image_path' output_path v e. apply resize_image_unreadable.
    + intros image_path' output_path v v' ok e. apply attempt_of_unreadable.
  - destruct Hrun as (outcomes & w2 & Hproc & Hrun).
    exists (image_path :: rest), w0, outcomes, w2. eexists.
    split; [ exact Hget | ]. rewrite Hbatch, Hrun.
    split; [ reflexivity | ].
    split; [ exact (processed_length E _ _ _ _ _ _ _ _ _ _ _ _ Hproc) | ].
    split; [ split; [ exact Hproc | reflexivity ] | ].
    split.
    + intros image_path' output_path v e. apply resize_image_unreadable.
    + intros image_path' output_path v v' ok e. apply attempt_of_unreadable.
Qed.

(** The theorem applied to a run over the sample folder, one of whose files
    cannot be opened. *)
Lemma batch_completes_witness :
  exists (image_files : list string) (w0 : world Sample.env)
         (outcomes : list bool) (w2 w' : world Sample.env),
    get_images_from_folder Sample.env "in" None
      (mkWorld Sample.env Sample.shelf
               (printed Sample.env (Sample.start Sample.shelf)))
    = (Ok image_files, w0) /\
    batch_resize_images Sample.env "in" "out" (Some 2) None true 95 None
                        "t_" EmptyString (Sample.start Sample.shelf)
    = (Ok (mkSummary (Z.of_nat (List.length image_files))
                     (tally true outcomes) (tally false outcomes)), w') /\
    List.length outcomes = List.length image_files /\
    match image_files with
    | [] =>
      batch_resize_images Sample.env "in" "out" (Some 2) None true 95 None
                          "t_" EmptyString (Sample.start Sample.shelf)
      = (Ok (mkSummary 0 0 0),
         mkWorld Sample.env (files Sample.env w0)
                 (printed Sample.env w0 ++ [MsgNoImages "in"])%list)
    | _ :: _ =>
      processed Sample.env "out" (Some 2) None true 95 None "t_" EmptyString
                (mkWorld Sample.env (files Sample.env w0)
                   (printed Sample.env w0
                    ++ report_header image_files "in" "out" (Some 2) None
                                     true)%list)
                image_files outcomes w2 /\
      w' = mkWorld Sample.env (files Sample.env w2)
             (printed Sample.env w2
              ++ report_footer (tally true outcomes) (tally false outcomes))%list
    end /\
    (forall (image_path output_path : string) (v : world Sample.env)
            (e : exn),
        image_open Sample.env (files Sample.env v) image_path = Raise e ->
        resize_image Sample.env image_path output_path (Some 2) None true 95
                     None v
        = (Ok false,
           mkWorld Sample.env (files Sample.env v)
                   (printed Sample.env v ++ [MsgError image_path e])%list)) /\
    (forall (image_path output_path : string) (v v' : world Sample.env)
            (ok : bool) (e : exn),
        image_open Sample.env (files Sample.env v) image_path = Raise e ->
        attempt Sample.env image_path output_path (Some 2) None true 95 None
                v ok v' ->
        ok = false /\
        v' = mkWorld Sample.env (files Sample.env v)
               (printed Sample.env v ++ [MsgError image_path e])%list).
Proof.
  apply (batch_completes Sample.env "in" "out" (Some 2) None true 95 None "t_"
           EmptyString (Sample.start Sample.shelf) Sample.shelf).
  - reflexivity.
  - right. eexists. reflexivity.
Defined.

(** C9.  The summary [batch_resize_images] returns satisfies
    total = success + failed: total is the number of image files listed, and
    each of them has one outcome, counted in success when [resize_image]
    returned [True] and in failed when it returned [False]. *)
Theorem summary_adds_up (E : Env) (input_folder output_folder : string)
    (width height : option Z) (maintain_aspect : bool) (quality : Z)
    (output_format : option string) (prefix suffix : string)
    (w w' : world E) (s : summary) :
  batch_resize_images E input_folder output_folder width height maintain_aspect
                      quality output_format prefix suffix w = (Ok s, w') ->
  total s = success s + failed s /\
  exists (f : fs E) (image_files : list string) (w0 : world E)
         (outcomes : list bool),
    makedirs E (files E w) output_folder = Ok f /\
    get_images_from_folder E input_folder None (mkWorld E f (printed E w))
    = (Ok image_files, w0) /\
    total s = Z.of_nat (List.length image_files) /\
    List.length outcomes = List.length image_files /\
    success s = tally true outcomes /\
    failed s = tally false outcomes.
Proof.
  intros H.
  apply batch_resize_images_inv in H as (f & image_files & w0 & Hmk & Hget & H).
  destruct (resize_listed_run E image_files input_folder output_folder width
              height maintain_aspect quality output_format prefix suffix w0)
    as (outcomes & w1 & w2 & w'' & Hrun & _ & Hproc & _).
  rewrite Hrun in H. injection H as <- _. cbn [total success failed].
  pose proof (processed_length E _ _ _ _ _ _ _ _ _ _ _ _ Hproc) as Hlen.
  split.
  - rewrite tally_total, Hlen. reflexivity.
  - exists f, image_files, w0, outcomes. repeat split; assumption.
Qed.

(** The theorem applied to a run over the sample folder. *)
Lemma summary_adds_up_witness :
  Sample.thumbnails = (Ok (mkSummary 3 2 1), snd Sample.thumbnails) /\
  total (mkSummary 3 2 1) = success (mkSummary 3 2 1) + failed (mkSummary 3 2 1).
Proof.
  assert (H : Sample.thumbnails = (Ok (mkSummary 3 2 1), snd Sample.thumbnails))
    by (vm_compute; reflexivity).
  split; [ exact H | ].
  exact (proj1 (summary_adds_up Sample.env "in" "out" (Some 2) None true 95 None
                                "t_" EmptyString (Sample.start Sample.shelf)
                                _ _ H)).
Defined.

(** ** No dimension given *)

(** Without a usable width or height, no dimension is computed. *)
Lemma new_dimensions_none w h width height maintain_aspect :
  truthy width = false -> truthy height = false ->
  new_dimensions w h width height maintain_aspect = Ok None.
Proof. intros Hw Hh. unfold new_dimensions. rewrite Hw, Hh. reflexivity. Qed.

(** Without dimensions, [resize_image] returns [False]. *)
Lemma resize_image_no_dimensions (E : Env) input_path output_path width height
    maintain_aspect quality output_format (w : world E) :
  truthy width = false -> truthy height = false ->
  exists w',
    resize_image E input_path output_path width height maintain_aspect quality
                 output_format w = (Ok false, w').
Proof.
  intros Hw Hh. unfold resize_image, try_except, mbind, lift, print, ret.
  destruct (image_open E (files E w) input_path) as [img | e];
    [ | eexists; reflexivity ].
  destruct (size img) as [ow oh].
  rewrite new_dimensions_none by assumption. eexists. reflexivity.
Qed.

(** Without dimensions, the loop counts every file as failed. *)
Lemma resize_each_no_dimensions (E : Env) image_files output_folder width height
    maintain_aspect quality output_format prefix suffix success_count
    failed_count (w : world E) :
  truthy width = false -> truthy height = false ->
  exists w',
    resize_each E image_files output_folder width height maintain_aspect quality
                output_format prefix suffix success_count failed_count w
    = (Ok (success_count, failed_count + Z.of_nat (List.length image_files)), w').
Proof.
  intros Hw Hh. revert failed_count w.
  induction image_files as [| image_path rest IH]; intros failed_count w.
  - exists w. cbn. rewrite Z.add_0_r. reflexivity.
  - cbn [resize_each]. unfold mbind at 1.
    destruct (resize_image_no_dimensions E image_path
                (OsPath.join output_folder
                   (output_name image_path output_format prefix suffix))
                width height maintain_aspect quality output_format w Hw Hh)
      as (w1 & ->).
    destruct (IH (failed_count + 1) w1) as (w' & ->).
    exists w'. cbn [List.length]. rewrite Nat2Z.inj_succ. do 3 f_equal. lia.
Qed.

(** C4 (counterexample).  Called without any dimension on a folder of three
    images, [batch_resize_images] does not fail: it opens the images one by
    one, warns for each readable one, and returns a summary. *)
Lemma batch_without_dimensions_returns :
  fst Sample.without_dimensions = Ok (mkSummary 3 0 3) /\
  In (MsgNoDimensions "in/a.png")
     (printed Sample.env (snd Sample.without_dimensions)).
Proof. split; [ vm_compute; reflexivity | vm_compute; tauto ]. Qed.

(** Without a usable width or height every attempt ends at the test of
    lines 98-100, or before it: the file is opened, nothing is written, and
    the line printed is the error of [Image.open] or the warning. *)
Lemma processed_without_dimensions (E : Env) output_folder width height maintain_aspect
    quality output_format prefix suffix (v v' : world E) image_files
    outcomes :
  truthy width = false -> truthy height = false ->
  processed E output_folder width height maintain_aspect quality output_format
            prefix suffix v image_files outcomes v' ->
  files E v' = files E v /\
  tally true outcomes = 0 /\
  tally false outcomes = Z.of_nat (List.length image_files) /\
  exists lines,
    printed E v' = (printed E v ++ lines)%list /\
    Forall2 (fun image_path msg =>
               (exists e, image_open E (files E v) image_path = Raise e /\
                          msg = MsgError image_path e) \/
               (exists img, image_open E (files E v) image_path = Ok img /\
                            msg = MsgNoDimensions image_path))
            image_files lines.
Proof.
  intros Hw Hh Hproc.
  induction Hproc as [v | v v1 v2 image_path rest ok outcomes Hatt Hrest IH].
  - repeat split. exists []. rewrite app_nil_r. split; [ reflexivity | constructor ].
  - assert (Hstep :
        ok = false /\ files E v1 = files E v /\
        exists msg,
          printed E v1 = (printed E v ++ [msg])%list /\
          ((exists e, image_open E (files E v) image_path = Raise e /\
                      msg = MsgError image_path e) \/
           (exists img, image_open E (files E v) image_path = Ok img /\
                        msg = MsgNoDimensions image_path))).
    { destruct Hatt as [e H | img H Hd | img e H Hd | img nw nh e H Hd
                       | img nw nh r f e H Hd | img nw nh r f H Hd];
        try (rewrite (new_dimensions_none _ _ _ _ _ Hw Hh) in Hd; discriminate Hd).
      - split; [ reflexivity | ]. split; [ reflexivity | ].
        eexists. split; [ reflexivity | ]. left. eauto.
      - split; [ reflexivity | ]. split; [ reflexivity | ].
        eexists. split; [ reflexivity | ]. right. eauto. }
    destruct Hstep as (-> & Hf1 & msg & Hp1 & Hmsg).
    destruct IH as (Hf & Ht & Hfl & lines & Hp & Hl).
    split; [ congruence | ].
    cbn [tally Bool.eqb List.length]. rewrite Nat2Z.inj_succ.
    split; [ lia | ]. split; [ lia | ].
    exists (msg :: lines). split.
    + rewrite Hp, Hp1, <- app_assoc. reflexivity.
    + constructor; [ exact Hmsg | ]. rewrite <- Hf1. exact Hl.
Qed.

(** C4 (amended).  With neither dimension given (or given as 0), [main]
    rejects the arguments before the batch starts.  [batch_resize_images]
    itself validates nothing: whenever the output folder can be made and the
    input folder is missing or can be listed, the run completes; every
    listed image is opened, [resize_image] prints the error of [Image.open]
    or the warning for it and returns [False], nothing is written, and the
    summary counts every file as failed. *)
Theorem missing_dimensions (E : Env) (width height : option Z) :
  truthy width = false -> truthy height = false ->
  (forall (args : cli_args) (w : world E),
      args_width args = width -> args_height args = height ->
      main E args w
      = (Raise (SystemExit
                  "At least one of --width or --height must be specified"), w))
  /\
  (forall (input_folder output_folder : string) (maintain_aspect : bool)
          (quality : Z) (output_format : option string)
          (prefix suffix : string) (w : world E) (f : fs E),
      makedirs E (files E w) output_folder = Ok f ->
      (path_exists E f input_folder = false
       \/ exists names, listdir E f input_folder = Ok names) ->
      exists (image_files : list string) (w0 : world E) (lines : list message)
             (w' : world E),
        get_images_from_folder E input_folder None (mkWorld E f (printed E w))
        = (Ok image_files, w0) /\
        batch_resize_images E input_folder output_folder width height
                            maintain_aspect quality output_format prefix suffix w
        = (Ok (mkSummary (Z.of_nat (List.length image_files)) 0
                         (Z.of_nat (List.length image_files))), w') /\
        files E w' = f /\
        Forall2 (fun image_path msg =>
                   (exists e, image_open E f image_path = Raise e /\
                              msg = MsgError image_path e) \/
                   (exists img, image_open E f image_path = Ok img /\
                                msg = MsgNoDimensions image_path))
                image_files lines /\
        printed E w'
        = match image_files with
          | [] => (printed E w0 ++ [MsgNoImages input_folder])%list
          | _ :: _ =>
            (printed E w0
             ++ report_header image_files input_folder output_folder
                              width height maintain_aspect
             ++ lines
             ++ report_footer 0 (Z.of_nat (List.length image_files)))%list
          end).
Proof.
  intros Hw Hh. split.
  - intros args w Ew Eh. unfold main. rewrite Ew, Eh, Hw, Hh. reflexivity.
  - intros input_folder output_folder maintain_aspect quality output_format
           prefix suffix w f Hmk Hls.
    destruct (get_images_from_folder_returns E input_folder None
                (mkWorld E f (printed E w)) Hls)
      as (image_files & w0 & Hget & Hf0).
    cbn [files] in Hf0.
    pose proof (resize_listed_processed E image_files input_folder output_folder
                  width height maintain_aspect quality output_format prefix
                  suffix w0) as Hrun.
    assert (Hbatch :
        batch_resize_images E input_folder output_folder width height
                            maintain_aspect quality output_format prefix suffix w
        = resize_listed E image_files input_folder output_folder width height
                        maintain_aspect quality output_format prefix suffix w0).
    { unfold batch_resize_images, mbind at 1. rewrite Hmk.
      unfold mbind at 1. rewrite Hget. reflexivity. }
    destruct image_files as [| image_path rest].
    + exists [], w0, []. eexists. split; [ exact Hget | ].
      rewrite Hbatch, Hrun. split; [ reflexivity | ]. cbn [files printed].
      split; [ exact Hf0 | ]. split; [ constructor | reflexivity ].
    + destruct Hrun as (outcomes & w2 & Hproc & Hrun).
      destruct (processed_without_dimensions E _ _ _ _ _ _ _ _ _ _ _ _
                  Hw Hh Hproc) as (Hf & Ht & Hfl & lines & Hp & Hl).
      cbn [files printed] in Hf, Hp, Hl.
      exists (image_path :: rest), w0, lines. eexists.
      split; [ exact Hget | ]. rewrite Hbatch, Hrun, Ht, Hfl.
      split; [ reflexivity | ]. cbn [files printed].
      split; [ congruence | ].
      split; [ rewrite <- Hf0; exact Hl | ].
      rewrite Hp, <- !app_assoc. reflexivity.
Qed.

(** The theorem applied to a run over the sample folder, with no width and
    height 0. *)
Lemma missing_dimensions_witness :
  (truthy None = false /\ truthy (Some 0) = false) /\
  exists (image_files : list string) (w0 : world Sample.env)
         (lines : list message) (w' : world Sample.env),
    get_images_from_folder Sample.env "in" None
      (mkWorld Sample.env Sample.shelf
               (printed Sample.env (Sample.start Sample.shelf)))
    = (Ok image_files, w0) /\
    batch_resize_images Sample.env "in" "out" None (Some 0) true 95 None
                        EmptyString EmptyString (Sample.start Sample.shelf)
    = (Ok (mkSummary (Z.of_nat (List.length image_files)) 0
                     (Z.of_nat (List.length image_files))), w') /\
    files Sample.env w' = Sample.shelf /\
    Forall2 (fun image_path msg =>
               (exists e, image_open Sample.env Sample.shelf image_path = Raise e /\
                          msg = MsgError image_path e) \/
               (exists img, image_open Sample.env Sample.shelf image_path = Ok img /\
                            msg = MsgNoDimensions image_path))
            image_files lines /\
    printed Sample.env w'
    = match image_files with
      | [] => (printed Sample.env w0 ++ [MsgNoImages "in"])%list
      | _ :: _ =>
        (printed Sample.env w0
         ++ report_header image_files "in" "out" None (Some 0) true
         ++ lines
         ++ report_footer 0 (Z.of_nat (List.length image_files)))%list
      end.
Proof.
  split; [ split; reflexivity | ].
  apply (proj2 (missing_dimensions Sample.env None (Some 0) eq_refl eq_refl)
               "in"%string "out"%string true 95 None EmptyString EmptyString
               (Sample.start Sample.shelf) Sample.shelf).
  - reflexivity.
  - right. eexists. reflexivity.
Defined.

(** ** Quality *)

(** Outside JPEG, the quality does not reach [save]. *)
Lemma save_resized_quality (E : Env) resized_img output_path output_format q1 q2
    (w : world E) :
  is_jpeg output_format = false ->
  save_resized E resized_img output_path output_format q1 w
  = save_resized E resized_img output_path output_format q2 w.
Proof. intros H. unfold save_resized. rewrite H. reflexivity. Qed.

(** C8.  When the format the image is written in is not JPEG/JPG, the result
    of [resize_image] (returned value, files written, text printed) does not
    depend on the quality argument. *)
Theorem quality_only_for_jpeg (E : Env) (input_path output_path : string)
    (width height : option Z) (maintain_aspect : bool) (q1 q2 : Z)
    (output_format : option string) (w : world E) :
  (forall img, image_open E (files E w) input_path = Ok img ->
               is_jpeg (effective_format output_format img) = false) ->
  resize_image E input_path output_path width height maintain_aspect q1
               output_format w
  = resize_image E input_path output_path width height maintain_aspect q2
                 output_format w.
Proof.
  intros Hfmt. unfold resize_image, try_except, mbind.
  destruct (image_open E (files E w) input_path) as [img | e]; [ | reflexivity ].
  specialize (Hfmt img eq_refl).
  destruct (size img) as [ow oh].
  destruct (lift E _ w) as [[[[nw nh] |] | e] w0]; try reflexivity.
  destruct (lift E (image_resize E img (nw, nh)) w0) as [[resized | e] w1];
    [ | reflexivity ].
  rewrite (save_resized_quality E resized output_path _ q1 q2 w1 Hfmt).
  reflexivity.
Qed.

(** The theorem applied to a PNG of the sample folder, at qualities 95 and 10. *)
Lemma quality_only_for_jpeg_witness :
  resize_image Sample.env "in/a.png" "out/a.png" (Some 2) None true 95 None
               (Sample.start Sample.shelf)
  = resize_image Sample.env "in/a.png" "out/a.png" (Some 2) None true 10 None
                 (Sample.start Sample.shelf).
Proof.
  apply (quality_only_for_jpeg Sample.env "in/a.png" "out/a.png" (Some 2) None true
                               95 10 None (Sample.start Sample.shelf)).
  intros img H. vm_compute in H. injection H as <-. reflexivity.
Defined.

(** ** Output names *)

(** C6 (counterexample).  A JPEG file named [photo.jpeg], converted without
    a requested format, keeps the extension [.jpeg], where the formula gives
    [.jpg]. *)
Lemma native_format_extension_not_used :
  output_name "in/photo.jpeg" None EmptyString EmptyString
  = "photo.jpeg"%string /\
  Spec.output_filename EmptyString "photo" EmptyString None
                       (Some "JPEG"%string)
  = "photo.jpg"%string /\
  output_name "in/photo.jpeg" None EmptyString EmptyString
  <> Spec.output_filename EmptyString "photo" EmptyString None
                          (Some "JPEG"%string).
Proof. repeat split; try reflexivity. vm_compute. discriminate. Qed.

(** C6 (amended).  The output file name is prefix + stem + suffix followed,
    when an output format is requested, by the extension of that format
    (".jpg" for JPEG/JPG, otherwise "." and the lowercase format name) and,
    when none is requested, by the extension of the input file as it is. *)
Theorem output_name_extension (image_path : string)
    (output_format native_format : option string) (prefix suffix : string) :
  output_name image_path output_format prefix suffix
  = (prefix ++ fst (OsPath.splitext (OsPath.basename image_path)) ++ suffix
       ++ (if Spec.is_set output_format
           then Spec.extension_for
                  (Spec.effective_format output_format native_format)
           else snd (OsPath.splitext (OsPath.basename image_path))))%string.
Proof.
  unfold output_name, Spec.extension_for, Spec.effective_format, is_jpeg.
  destruct (OsPath.splitext (OsPath.basename image_path)) as [name ext].
  cbn [fst snd].
  destruct output_format as [f |]; cbn [format_given Spec.is_set Spec.value];
    [ | reflexivity ].
  destruct (negb (String.length f =? 0)%nat); reflexivity.
Qed.

(** * File names

    Facts about [os.path] on which the listing and the output names rest. *)

(** ** Cutting and joining *)

Lemma string_length_app (a b : string) :
  String.length (a ++ b) = (String.length a + String.length b)%nat.
Proof. induction a as [| c a IH]; cbn; [ reflexivity | ]. rewrite IH. reflexivity. Qed.

Lemma string_app_empty_r (a : string) : a ++ EmptyString = a.
Proof. induction a as [| c a IH]; cbn; [ reflexivity | ]. rewrite IH. reflexivity. Qed.

Lemma string_app_assoc (a b c : string) : (a ++ b) ++ c = a ++ (b ++ c).
Proof. induction a as [| d a IH]; cbn; [ reflexivity | ]. rewrite IH. reflexivity. Qed.

Lemma substring_all (s : string) : substring 0 (String.length s) s = s.
Proof. induction s as [| c s IH]; cbn; [ reflexivity | ]. rewrite IH. reflexivity. Qed.

Lemma take_app (a b : string) : OsPath.take (String.length a) (a ++ b) = a.
Proof.
  unfold OsPath.take. induction a as [| c a IH]; cbn.
  - destruct b; reflexivity.
  - rewrite IH. reflexivity.
Qed.

Lemma drop_app (a b : string) : OsPath.drop (String.length a) (a ++ b) = b.
Proof.
  unfold OsPath.drop. rewrite string_length_app.
  replace (String.length a + String.length b - String.length a)%nat
    with (String.length b) by lia.
  induction a as [| c a IH]; cbn; [ apply substring_all | exact IH ].
Qed.

Lemma drop_0 (s : string) : OsPath.drop 0 s = s.
Proof. apply (drop_app EmptyString s). Qed.

(** Cutting a string in two loses nothing. *)
Lemma take_drop (d : nat) (p : string) : OsPath.take d p ++ OsPath.drop d p = p.
Proof.
  unfold OsPath.take, OsPath.drop. revert d.
  induction p as [| c p IH]; intros d.
  - destruct d; reflexivity.
  - destruct d as [| d].
    + cbn [substring String.length Nat.sub append]. rewrite substring_all.
      reflexivity.
    + cbn [substring String.length Nat.sub append]. rewrite IH. reflexivity.
Qed.

Lemma lacks_app c a b : lacks c (a ++ b) = lacks c a && lacks c b.
Proof.
  induction a as [| d a IH]; cbn; [ reflexivity | ].
  rewrite IH, andb_assoc. reflexivity.
Qed.

Lemma after_last_sep_app a b i acc :
  OsPath.after_last_sep (a ++ b) i acc
  = OsPath.after_last_sep b (i + String.length a) (OsPath.after_last_sep a i acc).
Proof.
  revert i acc. induction a as [| c a IH]; intros i acc; cbn.
  - rewrite Nat.add_0_r. reflexivity.
  - rewrite IH. rewrite Nat.add_succ_r. reflexivity.
Qed.

Lemma after_last_sep_lacks s i acc :
  lacks "/" s = true -> OsPath.after_last_sep s i acc = acc.
Proof.
  revert i acc. induction s as [| c s IH]; intros i acc H; cbn in *;
    [ reflexivity | ].
  apply andb_true_iff in H as [Hc Hs].
  destruct (Ascii.eqb c "/"); [ discriminate | ]. apply IH. assumption.
Qed.

Lemma last_dot_app a b i acc :
  OsPath.last_dot (a ++ b) i acc
  = OsPath.last_dot b (i + String.length a) (OsPath.last_dot a i acc).
Proof.
  revert i acc. induction a as [| c a IH]; intros i acc; cbn.
  - rewrite Nat.add_0_r. reflexivity.
  - rewrite IH. rewrite Nat.add_succ_r. reflexivity.
Qed.

Lemma last_dot_lacks s i acc :
  lacks "." s = true -> OsPath.last_dot s i acc = acc.
Proof.
  revert i acc. induction s as [| c s IH]; intros i acc H; cbn in *;
    [ reflexivity | ].
  apply andb_true_iff in H as [Hc Hs].
  destruct (Ascii.eqb c "."); [ discriminate | ]. apply IH. assumption.
Qed.

(** A folder name that ends with the separator. *)
Lemma ends_with_sep_inv a :
  OsPath.ends_with_sep a = true -> exists a', a = a' ++ "/".
Proof.
  unfold OsPath.ends_with_sep. induction a as [| c a IH]; [ discriminate | ].
  destruct a as [| d a].
  - cbn. destruct (Ascii.eqb_spec c "/") as [-> | ]; [ | discriminate ].
    intros _. exists EmptyString. reflexivity.
  - intros H. destruct IH as (a' & Ha').
    + cbn [String.length Nat.sub] in *. rewrite Nat.sub_0_r in *.
      cbn [get] in H. exact H.
    + exists (String c a'). cbn. rewrite <- Ha'. reflexivity.
Qed.

Lemma starts_with_sep_lacks s :
  lacks "/" s = true -> OsPath.starts_with_sep s = false.
Proof.
  destruct s as [| c s]; cbn; [ reflexivity | ].
  destruct (Ascii.eqb c "/"); [ discriminate | reflexivity ].
Qed.

(** The last component of [folder/filename] is [filename]. *)
Lemma basename_join folder filename :
  lacks "/" filename = true ->
  OsPath.basename (OsPath.join folder filename) = filename.
Proof.
  intros H. unfold OsPath.join, OsPath.basename.
  rewrite (starts_with_sep_lacks _ H).
  destruct (String.length folder =? 0)%nat eqn:El; cbn [orb].
  - destruct folder; [ | discriminate ]. cbn [append].
    rewrite after_last_sep_lacks by assumption. apply drop_0.
  - destruct (OsPath.ends_with_sep folder) eqn:Es.
    + destruct (ends_with_sep_inv _ Es) as (a' & ->).
      rewrite after_last_sep_app, (after_last_sep_lacks filename) by assumption.
      rewrite after_last_sep_app. cbn [OsPath.after_last_sep Ascii.eqb Bool.eqb].
      match goal with
      | |- OsPath.drop ?n _ = _ =>
        replace n with (String.length (a' ++ "/"))
          by (rewrite string_length_app; cbn; lia)
      end.
      apply drop_app.
    + replace (folder ++ "/" ++ filename) with ((folder ++ "/") ++ filename)
        by apply string_app_assoc.
      rewrite after_last_sep_app, (after_last_sep_lacks filename) by assumption.
      rewrite after_last_sep_app. cbn [OsPath.after_last_sep Ascii.eqb Bool.eqb].
      match goal with
      | |- OsPath.drop ?n _ = _ =>
        replace n with (String.length (folder ++ "/"))
          by (rewrite string_length_app; cbn; lia)
      end.
      apply drop_app.
Qed.

(** [splitext] cuts its argument in two. *)
Lemma splitext_append p :
  fst (OsPath.splitext p) ++ snd (OsPath.splitext p) = p.
Proof.
  unfold OsPath.splitext.
  destruct (OsPath.last_dot p 0 None) as [d |]; cbn [fst snd].
  - destruct (_ && _); cbn [fst snd]; [ apply take_drop | apply string_app_empty_r ].
  - apply string_app_empty_r.
Qed.

Lemma only_false_existsb stem :
  only "." stem = false ->
  existsb (fun c => negb (Ascii.eqb c ".")) (list_ascii_of_string stem) = true.
Proof.
  induction stem as [| c s IH]; cbn; [ discriminate | ].
  destruct (Ascii.eqb c "."); cbn; [ exact IH | reflexivity ].
Qed.

Lemma only_true_existsb dots :
  only "." dots = true ->
  existsb (fun c => negb (Ascii.eqb c ".")) (list_ascii_of_string dots) = false.
Proof.
  induction dots as [| c s IH]; cbn; [ reflexivity | ].
  destruct (Ascii.eqb c "."); cbn; [ exact IH | discriminate ].
Qed.

(** A name made of a stem and an extension is split there. *)
Lemma splitext_stem_ext stem t :
  lacks "/" stem = true -> only "." stem = false ->
  lacks "/" t = true -> lacks "." t = true ->
  OsPath.splitext (stem ++ String "." t) = (stem, String "." t).
Proof.
  intros Hs Hd Ht1 Ht2. unfold OsPath.splitext.
  rewrite after_last_sep_lacks
    by (rewrite lacks_app, Hs; cbn; rewrite Ht1; reflexivity).
  rewrite last_dot_app. cbn [OsPath.last_dot Ascii.eqb Bool.eqb Nat.add].
  rewrite last_dot_lacks by assumption.
  unfold OsPath.non_dot_between. cbn [Nat.leb andb]. rewrite Nat.sub_0_r.
  fold (OsPath.take (String.length stem) (stem ++ String "." t)).
  rewrite take_app, drop_app, only_false_existsb by assumption.
  reflexivity.
Qed.

(** * The listing of the input folder *)

(** The loop of [get_images_from_folder] keeps the names that pass its two
    tests, in the order of the listing, and touches nothing. *)
Lemma collect_images_filter (E : Env) folder_path extensions names image_files
    (w : world E) :
  collect_images E folder_path extensions names image_files w
  = (Ok (image_files
         ++ map (OsPath.join folder_path)
              (filter (fun filename =>
                         isfile E (files E w) (OsPath.join folder_path filename)
                         && string_in (lower (snd (OsPath.splitext filename)))
                                      extensions)
                      names))%list, w).
Proof.
  revert image_files. induction names as [| filename rest IH]; intros image_files.
  - cbn. rewrite app_nil_r. reflexivity.
  - cbn [collect_images]. unfold mbind, read_fs. rewrite IH. cbn [filter].
    destruct (isfile E (files E w) (OsPath.join folder_path filename));
      cbn [andb]; [ | reflexivity ].
    destruct (OsPath.splitext filename) as [name ext]. cbn [snd].
    destruct (string_in (lower ext) extensions); [ | reflexivity ].
    cbn [map]. rewrite <- app_assoc. reflexivity.
Qed.

(** The same, for the whole function. *)
Lemma get_images_from_folder_filter (E : Env) (folder_path : string)
    (extensions : option (list string)) (names : list string) (w : world E) :
  path_exists E (files E w) folder_path = true ->
  listdir E (files E w) folder_path = Ok names ->
  get_images_from_folder E folder_path extensions w
  = (Ok (map (OsPath.join folder_path)
           (filter (fun filename =>
                      isfile E (files E w) (OsPath.join folder_path filename)
                      && string_in (lower (snd (OsPath.splitext filename)))
                           match extensions with
                           | None => default_extensions
                           | Some l => l
                           end)
                   names)), w).
Proof.
  intros Hex Hls. unfold get_images_from_folder, mbind, read_fs.
  rewrite Hex. cbn [negb]. rewrite Hls. apply collect_images_filter.
Qed.

(** X1.  When the folder exists and can be listed,
    [get_images_from_folder] returns, in the order of the listing, the path
    of every name that is a regular file and whose extension, put in lower
    case, is one of the extensions (the seven default ones when none are
    given); nothing is printed and no file is changed. *)
Theorem listing_is_filtered (E : Env) (folder_path : string)
    (extensions : option (list string)) (names : list string) (w : world E) :
  path_exists E (files E w) folder_path = true ->
  listdir E (files E w) folder_path = Ok names ->
  get_images_from_folder E folder_path extensions w
  = (Ok (map (OsPath.join folder_path)
           (filter (fun filename =>
                      isfile E (files E w) (OsPath.join folder_path filename)
                      && string_in (lower (snd (OsPath.splitext filename)))
                           match extensions with
                           | None => default_extensions
                           | Some l => l
                           end)
                   names)), w).
Proof. exact (get_images_from_folder_filter E folder_path extensions names w). Qed.

Lemma listing_is_filtered_witness :
  get_images_from_folder Sample.env "in" None (Sample.start Sample.shelf)
  = (Ok ["in/a.png"; "in/broken.gif"; "in/photo.jpeg"],
     Sample.start Sample.shelf).
Proof.
  apply (listing_is_filtered Sample.env "in" None
           ["a.png"; "notes.txt"; "broken.gif"; "photo.jpeg"]
           (Sample.start Sample.shelf));
    reflexivity.
Defined.

(** ** Letter case *)

Lemma lower_ascii_idem c : lower_ascii (lower_ascii c) = lower_ascii c.
Proof. destruct c as [[] [] [] [] [] [] [] []]; vm_compute; reflexivity. Qed.

Lemma upper_ascii_idem c : upper_ascii (upper_ascii c) = upper_ascii c.
Proof. destruct c as [[] [] [] [] [] [] [] []]; vm_compute; reflexivity. Qed.

Lemma upper_lower_ascii c : upper_ascii (lower_ascii c) = upper_ascii c.
Proof. destruct c as [[] [] [] [] [] [] [] []]; vm_compute; reflexivity. Qed.

Lemma lower_upper_ascii c : lower_ascii (upper_ascii c) = lower_ascii c.
Proof. destruct c as [[] [] [] [] [] [] [] []]; vm_compute; reflexivity. Qed.

Lemma map_string_compose f g h s :
  (forall c, f (g c) = h c) -> map_string f (map_string g s) = map_string h s.
Proof.
  intros H. induction s as [| c s IH]; cbn; [ reflexivity | ].
  rewrite H, IH. reflexivity.
Qed.

Lemma lower_idem s : lower (lower s) = lower s.
Proof. apply map_string_compose, lower_ascii_idem. Qed.

Lemma upper_lower s : upper (lower s) = upper s.
Proof. apply map_string_compose, upper_lower_ascii. Qed.

Lemma lower_upper s : lower (upper s) = lower s.
Proof. apply map_string_compose, lower_upper_ascii. Qed.

Lemma upper_idem s : upper (upper s) = upper s.
Proof. apply map_string_compose, upper_ascii_idem. Qed.

Lemma map_string_length f s : String.length (map_string f s) = String.length s.
Proof. induction s as [| c s IH]; cbn; [ reflexivity | ]. rewrite IH. reflexivity. Qed.

(** A lower-cased extension is found among the lower-case entries only. *)
Lemma string_in_lower x extensions :
  string_in (lower x) extensions
  = string_in (lower x) (filter is_lower extensions).
Proof.
  unfold string_in. induction extensions as [| e rest IH]; [ reflexivity | ].
  cbn [existsb filter]. unfold is_lower at 1.
  destruct (String.eqb_spec (lower e) e) as [Hl | Hl].
  - cbn [existsb]. rewrite IH. reflexivity.
  - destruct (String.eqb_spec (lower x) e) as [He | He].
    + exfalso. apply Hl. rewrite <- He. apply lower_idem.
    + cbn [orb]. exact IH.
Qed.

(** X2.  The extension of a file is put in lower case before
    it is looked up, the entries of [extensions] are not: an entry that is
    not in lower case, such as [.JPG], matches no file, and the result is
    the same as without it. *)
Theorem uppercase_entries_never_match (E : Env) (folder_path : string)
    (extensions : list string) (w : world E) :
  get_images_from_folder E folder_path (Some extensions) w
  = get_images_from_folder E folder_path (Some (filter is_lower extensions)) w.
Proof.
  unfold get_images_from_folder, mbind, read_fs.
  destruct (path_exists E (files E w) folder_path); cbn [negb]; [ | reflexivity ].
  destruct (listdir E (files E w) folder_path) as [names | e]; [ | reflexivity ].
  rewrite !collect_images_filter. cbn [app]. do 2 f_equal.
  apply (f_equal (map (OsPath.join folder_path))).
  apply filter_ext. intros filename. rewrite <- string_in_lower. reflexivity.
Qed.

(** X3.  A regular file of the listed folder named stem, dot,
    extension is returned whatever the letter case of its extension, as long
    as the extension in lower case is one of those searched. *)
Theorem extension_in_any_case_listed (E : Env) (folder_path stem t : string)
    (extensions : option (list string)) (names : list string) (w : world E) :
  path_exists E (files E w) folder_path = true ->
  listdir E (files E w) folder_path = Ok names ->
  In (stem ++ String "." t) names ->
  isfile E (files E w) (OsPath.join folder_path (stem ++ String "." t)) = true ->
  lacks "/" stem = true -> only "." stem = false ->
  lacks "/" t = true -> lacks "." t = true ->
  string_in (lower (String "." t))
            match extensions with
            | None => default_extensions
            | Some l => l
            end = true ->
  exists image_files,
    get_images_from_folder E folder_path extensions w = (Ok image_files, w) /\
    In (OsPath.join folder_path (stem ++ String "." t)) image_files.
Proof.
  intros Hex Hls Hin Hfile Hs Hd Ht1 Ht2 Hext.
  rewrite (get_images_from_folder_filter E folder_path extensions names w Hex Hls).
  eexists. split; [ reflexivity | ].
  apply in_map, filter_In. split; [ assumption | ].
  rewrite Hfile, splitext_stem_ext by assumption. exact Hext.
Qed.

Lemma extension_in_any_case_listed_witness :
  exists image_files,
    get_images_from_folder Sample.env "in" None
      (Sample.start [("in/HOLIDAY.JPG", None); ("in/notes.txt", None)])
    = (Ok image_files,
       Sample.start [("in/HOLIDAY.JPG", None); ("in/notes.txt", None)]) /\
    In "in/HOLIDAY.JPG" image_files.
Proof.
  apply (extension_in_any_case_listed Sample.env "in" "HOLIDAY" "JPG" None
           ["HOLIDAY.JPG"; "notes.txt"]
           (Sample.start [("in/HOLIDAY.JPG", None); ("in/notes.txt", None)]));
    try reflexivity.
  left. reflexivity.
Defined.

(** ** Names without an extension *)

Lemma last_dot_only dots i acc :
  only "." dots = true ->
  OsPath.last_dot dots i acc
  = match dots with
    | EmptyString => acc
    | String _ rest => Some (i + String.length rest)%nat
    end.
Proof.
  revert i acc. induction dots as [| c s IH]; intros i acc H; [ reflexivity | ].
  cbn in H. apply andb_true_iff in H as [Hc Hs].
  cbn [OsPath.last_dot]. rewrite Hc, IH by assumption.
  destruct s as [| d s]; cbn [String.length].
  - rewrite Nat.add_0_r. reflexivity.
  - f_equal. lia.
Qed.

Lemma substring_dots dots t i n :
  only "." dots = true -> (i + n <= String.length dots)%nat ->
  only "." (substring i n (dots ++ t)) = true.
Proof.
  revert i n. induction dots as [| c s IH]; intros i n H Hd.
  - cbn in Hd. replace i with 0%nat by lia. replace n with 0%nat by lia.
    destruct t; reflexivity.
  - cbn in H. apply andb_true_iff in H as [Hc Hs]. cbn in Hd.
    destruct i as [| i].
    + destruct n as [| n]; [ reflexivity | ].
      cbn [append substring only]. rewrite Hc. apply IH; [ assumption | lia ].
    + cbn [append substring]. apply IH; [ assumption | lia ].
Qed.

(** Leading dots followed by text without a dot: no extension. *)
Lemma splitext_no_extension dots t :
  only "." dots = true -> lacks "." t = true ->
  OsPath.splitext (dots ++ t) = (dots ++ t, EmptyString).
Proof.
  intros Hd Ht. unfold OsPath.splitext.
  rewrite last_dot_app, (last_dot_lacks t) by assumption.
  rewrite (last_dot_only dots) by assumption.
  destruct dots as [| c rest]; [ reflexivity | ].
  destruct (Nat.leb_spec (OsPath.after_last_sep (String c rest ++ t) 0 0)
                         (0 + String.length rest)) as [Hle | Hgt];
    [ | reflexivity ].
  unfold OsPath.non_dot_between.
  rewrite only_true_existsb; [ reflexivity | ].
  apply substring_dots; [ assumption | cbn [String.length]; lia ].
Qed.

(** X4.  Names without an extension are not returned under
    the default extensions, and a name whose only dots lead it (a hidden
    file such as [.png]) has none: a folder that holds only names made of
    leading dots and text without a dot yields no image. *)
Theorem names_without_extension_not_listed (E : Env) (folder_path : string)
    (names : list string) (w : world E) :
  path_exists E (files E w) folder_path = true ->
  listdir E (files E w) folder_path = Ok names ->
  Forall (fun filename =>
            exists dots t, filename = dots ++ t /\
                           only "." dots = true /\ lacks "." t = true) names ->
  get_images_from_folder E folder_path None w = (Ok [], w).
Proof.
  intros Hex Hls Hnames.
  rewrite (get_images_from_folder_filter E folder_path None names w Hex Hls).
  do 2 f_equal. clear Hls.
  replace (filter _ names) with (@nil string); [ reflexivity | ].
  symmetry. induction Hnames as [| filename rest (dots & t & -> & Hd & Ht) _ IH];
    [ reflexivity | ].
  cbn [filter]. rewrite splitext_no_extension by assumption.
  cbn [snd lower map_string].
  replace (string_in EmptyString default_extensions) with false by reflexivity.
  rewrite andb_false_r. exact IH.
Qed.

Lemma names_without_extension_not_listed_witness :
  get_images_from_folder Sample.env "in" None
    (Sample.start [("in/.png", None); ("in/README", None); ("in/..jpg", None)])
  = (Ok [], Sample.start [("in/.png", None); ("in/README", None);
                          ("in/..jpg", None)]).
Proof.
  apply (names_without_extension_not_listed Sample.env "in"
           [".png"; "README"; "..jpg"]
           (Sample.start [("in/.png", None); ("in/README", None);
                          ("in/..jpg", None)]));
    try reflexivity.
  repeat constructor.
  - exists ".", "png". repeat split; reflexivity.
  - exists EmptyString, "README". repeat split; reflexivity.
  - exists "..", "jpg". repeat split; reflexivity.
Defined.

(** * The name and the place of the output *)

(** X8.  Without a requested format the output name is
    prefix + name + suffix + ext, where name + ext is the file name of the
    input: splitting the extension off loses nothing, and with an empty
    prefix and suffix the output file is named as the input file. *)
Theorem unconverted_name_kept (image_path : string)
    (output_format : option string) (prefix suffix : string) :
  format_given output_format = false ->
  let '(name, ext) := OsPath.splitext (OsPath.basename image_path) in
  name ++ ext = OsPath.basename image_path /\
  output_name image_path output_format prefix suffix
  = prefix ++ name ++ suffix ++ ext /\
  output_name image_path output_format EmptyString EmptyString
  = OsPath.basename image_path.
Proof.
  intros Hf. unfold output_name. rewrite Hf.
  pose proof (splitext_append (OsPath.basename image_path)) as Hcut.
  destruct (OsPath.splitext (OsPath.basename image_path)) as [name ext].
  cbn [fst snd] in Hcut. split; [ exact Hcut | ]. split; [ reflexivity | ].
  cbn [append]. exact Hcut.
Qed.

Lemma unconverted_name_kept_witness :
  "trip.2024" ++ ".jpeg" = OsPath.basename "in/trip.2024.jpeg" /\
  output_name "in/trip.2024.jpeg" None "t_" "_s"
  = "t_" ++ "trip.2024" ++ "_s" ++ ".jpeg" /\
  output_name "in/trip.2024.jpeg" None EmptyString EmptyString
  = OsPath.basename "in/trip.2024.jpeg".
Proof.
  apply (unconverted_name_kept "in/trip.2024.jpeg" None "t_" "_s"). reflexivity.
Defined.

(** X9.  With the output folder equal to the input folder,
    no requested format and an empty prefix and suffix, the output path of a
    listed file is the path of the file itself: the batch writes over its
    input. *)
Theorem same_folder_overwrites_input (folder filename : string)
    (output_format : option string) :
  lacks "/" filename = true ->
  format_given output_format = false ->
  OsPath.join folder
    (output_name (OsPath.join folder filename) output_format
                 EmptyString EmptyString)
  = OsPath.join folder filename.
Proof.
  intros Hn Hf. unfold output_name. rewrite Hf.
  rewrite basename_join by assumption.
  pose proof (splitext_append filename) as Hcut.
  destruct (OsPath.splitext filename) as [name ext]. cbn [fst snd] in Hcut.
  cbn [append]. rewrite Hcut. reflexivity.
Qed.

Lemma same_folder_overwrites_input_witness :
  OsPath.join "photos"
    (output_name (OsPath.join "photos" "cat.png") None EmptyString EmptyString)
  = OsPath.join "photos" "cat.png".
Proof.
  apply (same_folder_overwrites_input "photos" "cat.png" None); reflexivity.
Defined.

(** X10.  With a requested format, the output name of
    folder/stem.ext is prefix + stem + suffix + the extension of the format.
    It depends neither on the folder nor on the extension of the input: two
    inputs that differ in their extension only get the same output name. *)
Theorem converted_name_ignores_extension (folder stem t f prefix suffix : string) :
  lacks "/" stem = true -> only "." stem = false ->
  lacks "/" t = true -> lacks "." t = true ->
  f <> EmptyString ->
  output_name (OsPath.join folder (stem ++ String "." t)) (Some f) prefix suffix
  = prefix ++ stem ++ suffix
      ++ (if is_jpeg f then ".jpg" else "." ++ lower f).
Proof.
  intros Hs Hd Ht1 Ht2 Hf. unfold output_name.
  rewrite basename_join
    by (rewrite lacks_app, Hs; cbn; rewrite Ht1; reflexivity).
  rewrite splitext_stem_ext by assumption.
  cbn [format_given]. destruct f as [| c f]; [ congruence | ].
  reflexivity.
Qed.

Lemma converted_name_ignores_extension_witness :
  output_name (OsPath.join "in" ("cat" ++ String "." "png")) (Some "JPEG")
              "t_" EmptyString
  = "t_" ++ "cat" ++ EmptyString
      ++ (if is_jpeg "JPEG" then ".jpg" else "." ++ lower "JPEG").
Proof.
  apply (converted_name_ignores_extension "in" "cat" "png" "JPEG" "t_" EmptyString);
    try reflexivity.
  discriminate.
Defined.

(** X11.  For a format name made of ASCII characters, the letter case
    matters neither to the JPEG test nor to the output name: [jpeg], [Jpeg]
    and [JPEG] give the same.  (Outside ASCII, [str.upper] and [str.lower]
    are not inverse to each other up to case, and nothing is stated.) *)
Theorem format_case_insensitive (image_path f prefix suffix : string) :
  ascii_only f = true ->
  is_jpeg (lower f) = is_jpeg f /\
  is_jpeg (upper f) = is_jpeg f /\
  output_name image_path (Some (lower f)) prefix suffix
  = output_name image_path (Some f) prefix suffix /\
  output_name image_path (Some (upper f)) prefix suffix
  = output_name image_path (Some f) prefix suffix.
Proof.
  intros _.
  assert (Hl : is_jpeg (lower f) = is_jpeg f)
    by (unfold is_jpeg; rewrite upper_lower; reflexivity).
  assert (Hu : is_jpeg (upper f) = is_jpeg f)
    by (unfold is_jpeg; rewrite upper_idem; reflexivity).
  repeat split; try assumption.
  - unfold output_name, format_given. unfold lower at 1. rewrite map_string_length.
    rewrite Hl, lower_idem. reflexivity.
  - unfold output_name, format_given. unfold upper at 1. rewrite map_string_length.
    rewrite Hu, lower_upper. reflexivity.
Qed.

Lemma format_case_insensitive_witness :
  ascii_only "Jpeg" = true /\
  is_jpeg (lower "Jpeg") = is_jpeg "Jpeg" /\
  is_jpeg (upper "Jpeg") = is_jpeg "Jpeg" /\
  output_name "in/cat.png" (Some (lower "Jpeg")) "t_" EmptyString
  = output_name "in/cat.png" (Some "Jpeg"%string) "t_" EmptyString /\
  output_name "in/cat.png" (Some (upper "Jpeg")) "t_" EmptyString
  = output_name "in/cat.png" (Some "Jpeg"%string) "t_" EmptyString.
Proof.
  split; [ reflexivity | ].
  apply (format_case_insensitive "in/cat.png" "Jpeg" "t_" EmptyString).
  reflexivity.
Defined.

Lemma starts_with_sep_app a b :
  OsPath.starts_with_sep a = true -> OsPath.starts_with_sep (a ++ b) = true.
Proof. destruct a; [ discriminate | intros H; exact H ]. Qed.

Lemma starts_with_sep_app_false a b :
  a <> EmptyString -> OsPath.starts_with_sep a = false ->
  OsPath.starts_with_sep (a ++ b) = false.
Proof. destruct a; [ congruence | intros _ H; exact H ]. Qed.

(** X12.  A prefix that starts with [/] makes the output name
    an absolute path, and the output folder is not used.  With a prefix that
    is not empty and does not start with [/], the output path is the output
    folder, a separator unless the folder is empty or ends with one, and the
    output name. *)
Theorem output_path_and_prefix (output_folder image_path : string)
    (output_format : option string) (prefix suffix : string) :
  let output_filename := output_name image_path output_format prefix suffix in
  (OsPath.starts_with_sep prefix = true ->
   OsPath.join output_folder output_filename = output_filename) /\
  (prefix <> EmptyString -> OsPath.starts_with_sep prefix = false ->
   OsPath.join output_folder output_filename
   = output_folder
       ++ (if (String.length output_folder =? 0)%nat
              || OsPath.ends_with_sep output_folder
           then EmptyString else "/")
       ++ output_filename).
Proof.
  cbv zeta. unfold output_name.
  destruct (OsPath.splitext (OsPath.basename image_path)) as [name ext].
  split.
  - intros H. unfold OsPath.join. rewrite starts_with_sep_app by assumption.
    reflexivity.
  - intros Hne H. unfold OsPath.join.
    rewrite starts_with_sep_app_false by assumption.
    destruct ((String.length output_folder =? 0)%nat
              || OsPath.ends_with_sep output_folder); reflexivity.
Qed.

Lemma output_path_and_prefix_witness :
  OsPath.join "out" (output_name "in/cat.png" None "/tmp/t_" EmptyString)
  = output_name "in/cat.png" None "/tmp/t_" EmptyString.
Proof.
  apply (output_path_and_prefix "out" "in/cat.png" None "/tmp/t_" EmptyString).
  reflexivity.
Defined.

(** * One image *)

Section OneImage.

Variable E : Env.

(** Unfolds the plumbing of the world monad. *)
Ltac run :=
  unfold mbind, try_except, ret, raise, lift, print, read_fs, save in *;
  cbn [fst snd files printed] in *.

(** Every call returns, having printed one line about its image. *)
Lemma resize_image_outcome input_path output_path width height maintain_aspect
    quality output_format (w : world E) :
  exists ok f msg,
    resize_image E input_path output_path width height maintain_aspect quality
                 output_format w
    = (Ok ok, mkWorld E f (printed E w ++ [msg])) /\
    line_about input_path msg /\ is_success_line msg = ok.
Proof.
  unfold resize_image. run.
  destruct (image_open E (files E w) input_path) as [img | e].
  2: { eexists _, _, _. split; [ reflexivity | ]. split; reflexivity. }
  destruct (size img) as [ow oh].
  destruct (new_dimensions ow oh width height maintain_aspect) as [[[nw nh] |] | e].
  - destruct (image_resize E img (nw, nh)) as [resized | e].
    2: { eexists _, _, _. split; [ reflexivity | ]. split; reflexivity. }
    unfold save_resized. run.
    destruct (is_jpeg (effective_format output_format img)).
    + destruct (image_save E (files E w) (jpeg_rgb resized) output_path _ _)
        as [f [[] | e]];
        eexists _, _, _; (split; [ reflexivity | ]); split; reflexivity.
    + destruct (image_save E (files E w) resized output_path _ _) as [f [[] | e]];
        eexists _, _, _; (split; [ reflexivity | ]); split; reflexivity.
  - eexists _, _, _. split; [ reflexivity | ]. split; reflexivity.
  - eexists _, _, _. split; [ reflexivity | ]. split; reflexivity.
Qed.

(** The loop prints one line per image, in the order of the list, and counts
    the success lines and the others. *)
Lemma resize_each_lines image_files output_folder width height maintain_aspect
    quality output_format prefix suffix success_count failed_count (w : world E) :
  exists lines w',
    resize_each E image_files output_folder width height maintain_aspect quality
                output_format prefix suffix success_count failed_count w
    = (Ok (success_count
           + Z.of_nat (List.length (filter is_success_line lines)),
           failed_count
           + Z.of_nat (List.length
                         (filter (fun msg => negb (is_success_line msg)) lines))),
       w') /\
    printed E w' = (printed E w ++ lines)%list /\
    Forall2 line_about image_files lines.
Proof.
  revert success_count failed_count w.
  induction image_files as [| image_path rest IH]; intros success_count failed_count w.
  - exists [], w. cbn. rewrite !Z.add_0_r, app_nil_r. repeat split. constructor.
  - cbn [resize_each]. unfold mbind at 1.
    destruct (resize_image_outcome image_path
                (OsPath.join output_folder
                   (output_name image_path output_format prefix suffix))
                width height maintain_aspect quality output_format w)
      as (ok & f & msg & -> & Habout & Hok).
    destruct ok.
    + destruct (IH (success_count + 1) failed_count
                   (mkWorld E f (printed E w ++ [msg])))
        as (lines & w' & -> & Hp & Hl).
      exists (msg :: lines), w'. cbn [filter]. rewrite Hok. cbn [negb List.length].
      split; [ do 3 f_equal; lia | ].
      split; [ rewrite Hp; cbn [printed]; rewrite <- app_assoc; reflexivity | ].
      constructor; assumption.
    + destruct (IH success_count (failed_count + 1)
                   (mkWorld E f (printed E w ++ [msg])))
        as (lines & w' & -> & Hp & Hl).
      exists (msg :: lines), w'. cbn [filter]. rewrite Hok. cbn [negb List.length].
      split; [ do 3 f_equal; lia | ].
      split; [ rewrite Hp; cbn [printed]; rewrite <- app_assoc; reflexivity | ].
      constructor; assumption.
Qed.

End OneImage.

(** X13.  Every call of [resize_image] returns a boolean,
    whatever exception Pillow or the file system raise, and prints exactly
    one line: the success line, with the file name, when it returns [True];
    the warning or the error line, with the input path, when it returns
    [False]. *)
Theorem resize_image_one_line (E : Env) (input_path output_path : string)
    (width height : option Z) (maintain_aspect : bool) (quality : Z)
    (output_format : option string) (w : world E) :
  exists ok f msg,
    resize_image E input_path output_path width height maintain_aspect quality
                 output_format w
    = (Ok ok, mkWorld E f (printed E w ++ [msg])) /\
    line_about input_path msg /\ is_success_line msg = ok.
Proof.
  exact (resize_image_outcome E input_path output_path width height
           maintain_aspect quality output_format w).
Qed.

(** X14.  [resize_image] returns [True] only after the image
    was opened, its new size computed, the image resized to that size and
    saved to the output path in the format requested (or the image's own, or
    PNG): flattened and with quality and optimize for JPEG, as it is and
    without options otherwise.  The line printed gives the original and the
    new size. *)
Theorem success_means_saved (E : Env) (input_path output_path : string)
    (width height : option Z) (maintain_aspect : bool) (quality : Z)
    (output_format : option string) (w w' : world E) :
  resize_image E input_path output_path width height maintain_aspect quality
               output_format w = (Ok true, w') ->
  exists img new_width new_height resized_img,
    image_open E (files E w) input_path = Ok img /\
    new_dimensions (fst (size img)) (snd (size img)) width height maintain_aspect
    = Ok (Some (new_width, new_height)) /\
    image_resize E img (new_width, new_height) = Ok resized_img /\
    image_save E (files E w)
      (if is_jpeg (effective_format output_format img)
       then jpeg_rgb resized_img else resized_img)
      output_path (effective_format output_format img)
      (if is_jpeg (effective_format output_format img)
       then Some (mkOptions quality true) else None)
    = (files E w', Ok tt) /\
    printed E w'
    = (printed E w
       ++ [MsgResized (OsPath.basename input_path) (size img)
                      (new_width, new_height)])%list.
Proof.
  unfold resize_image, try_except, mbind, lift, print, ret.
  destruct (image_open E (files E w) input_path) as [img | e];
    [ | intros H; discriminate H ].
  destruct (size img) as [ow oh] eqn:Hsize. cbn [fst snd].
  destruct (new_dimensions ow oh width height maintain_aspect)
    as [[[nw nh] |] | e] eqn:Hdims; try (intros H; discriminate H).
  destruct (image_resize E img (nw, nh)) as [resized | e] eqn:Hresize;
    [ | intros H; discriminate H ].
  unfold save_resized, save. cbn [files printed].
  destruct (is_jpeg (effective_format output_format img)) eqn:Hj.
  - destruct (image_save E (files E w) (jpeg_rgb resized) output_path _ _)
      as [f [[] | e]] eqn:Hsave; [ | intros H; discriminate H ].
    intros H. injection H as <-. exists img, nw, nh, resized.
    rewrite Hsize, Hj. cbn [fst snd files printed].
    repeat split; (assumption || reflexivity).
  - destruct (image_save E (files E w) resized output_path _ _)
      as [f [[] | e]] eqn:Hsave; [ | intros H; discriminate H ].
    intros H. injection H as <-. exists img, nw, nh, resized.
    rewrite Hsize, Hj. cbn [fst snd files printed].
    repeat split; (assumption || reflexivity).
Qed.

Lemma success_means_saved_witness :
  exists img new_width new_height resized_img,
    image_open Sample.env (files Sample.env (Sample.start Sample.shelf)) "in/a.png"
    = Ok img /\
    new_dimensions (fst (size img)) (snd (size img)) (Some 2) None true
    = Ok (Some (new_width, new_height)) /\
    image_resize Sample.env img (new_width, new_height) = Ok resized_img /\
    image_save Sample.env (files Sample.env (Sample.start Sample.shelf))
      (if is_jpeg (effective_format (Some "JPEG"%string) img)
       then jpeg_rgb resized_img else resized_img)
      "out/a.jpg" (effective_format (Some "JPEG"%string) img)
      (if is_jpeg (effective_format (Some "JPEG"%string) img)
       then Some (mkOptions 85 true) else None)
    = (files Sample.env
         (snd (resize_image Sample.env "in/a.png" "out/a.jpg" (Some 2) None true
                            85 (Some "JPEG"%string) (Sample.start Sample.shelf))),
       Ok tt) /\
    printed Sample.env
      (snd (resize_image Sample.env "in/a.png" "out/a.jpg" (Some 2) None true
                         85 (Some "JPEG"%string) (Sample.start Sample.shelf)))
    = (printed Sample.env (Sample.start Sample.shelf)
       ++ [MsgResized (OsPath.basename "in/a.png") (size img)
                      (new_width, new_height)])%list.
Proof.
  apply (success_means_saved Sample.env "in/a.png" "out/a.jpg" (Some 2) None true
           85 (Some "JPEG"%string) (Sample.start Sample.shelf)).
  vm_compute. reflexivity.
Defined.

(** X15.  When [resize_image] returns [False], the file
    system is as it was before the call unless it is [save] that raised: a
    file that cannot be opened, dimensions that cannot be computed and a
    resize that fails write nothing. *)
Theorem failure_before_save_keeps_files (E : Env) (input_path output_path : string)
    (width height : option Z) (maintain_aspect : bool) (quality : Z)
    (output_format : option string) (w w' : world E) :
  resize_image E input_path output_path width height maintain_aspect quality
               output_format w = (Ok false, w') ->
  files E w' = files E w \/
  exists img new_width new_height resized_img e,
    image_open E (files E w) input_path = Ok img /\
    image_resize E img (new_width, new_height) = Ok resized_img /\
    image_save E (files E w)
      (if is_jpeg (effective_format output_format img)
       then jpeg_rgb resized_img else resized_img)
      output_path (effective_format output_format img)
      (if is_jpeg (effective_format output_format img)
       then Some (mkOptions quality true) else None)
    = (files E w', Raise e).
Proof.
  unfold resize_image, try_except, mbind, lift, print, ret.
  destruct (image_open E (files E w) input_path) as [img | e].
  2: { intros H. injection H as <-. left. reflexivity. }
  destruct (size img) as [ow oh].
  destruct (new_dimensions ow oh width height maintain_aspect)
    as [[[nw nh] |] | e].
  2, 3: intros H; injection H as <-; left; reflexivity.
  destruct (image_resize E img (nw, nh)) as [resized | e] eqn:Hresize.
  2: { intros H. injection H as <-. left. reflexivity. }
  unfold save_resized, save. cbn [files printed].
  destruct (is_jpeg (effective_format output_format img)) eqn:Hj.
  - destruct (image_save E (files E w) (jpeg_rgb resized) output_path _ _)
      as [f [[] | e]] eqn:Hsave; [ intros H; discriminate H | ].
    intros H. injection H as <-. right. exists img, nw, nh, resized, e.
    rewrite Hj. cbn [files]. repeat split; (assumption || reflexivity).
  - destruct (image_save E (files E w) resized output_path _ _)
      as [f [[] | e]] eqn:Hsave; [ intros H; discriminate H | ].
    intros H. injection H as <-. right. exists img, nw, nh, resized, e.
    rewrite Hj. cbn [files]. repeat split; (assumption || reflexivity).
Qed.

Lemma failure_before_save_keeps_files_witness :
  files Sample.env
    (snd (resize_image Sample.env "in/broken.gif" "out/broken.gif" (Some 2) None
                       true 95 None (Sample.start Sample.shelf)))
  = files Sample.env (Sample.start Sample.shelf) \/
  exists img new_width new_height resized_img e,
    image_open Sample.env (files Sample.env (Sample.start Sample.shelf))
               "in/broken.gif" = Ok img /\
    image_resize Sample.env img (new_width, new_height) = Ok resized_img /\
    image_save Sample.env (files Sample.env (Sample.start Sample.shelf))
      (if is_jpeg (effective_format None img)
       then jpeg_rgb resized_img else resized_img)
      "out/broken.gif" (effective_format None img)
      (if is_jpeg (effective_format None img)
       then Some (mkOptions 95 true) else None)
    = (files Sample.env
         (snd (resize_image Sample.env "in/broken.gif" "out/broken.gif" (Some 2)
                            None true 95 None (Sample.start Sample.shelf))),
       Raise e).
Proof.
  apply (failure_before_save_keeps_files Sample.env "in/broken.gif" "out/broken.gif"
           (Some 2) None true 95 None (Sample.start Sample.shelf)).
  vm_compute. reflexivity.
Defined.

(** X16.  [maintain_aspect] is consulted only when both a
    width and a height are given: with one of them missing (or 0),
    [resize_image] does the same with and without it, and the aspect ratio
    is kept either way. *)
Theorem aspect_flag_needs_both (E : Env) (input_path output_path : string)
    (width height : option Z) (quality : Z) (output_format : option string)
    (w : world E) :
  truthy width = false \/ truthy height = false ->
  resize_image E input_path output_path width height true quality output_format w
  = resize_image E input_path output_path width height false quality
                 output_format w.
Proof.
  intros H. unfold resize_image, try_except, mbind.
  destruct (image_open E (files E w) input_path) as [img | e]; [ | reflexivity ].
  destruct (size img) as [ow oh].
  replace (new_dimensions ow oh width height true)
    with (new_dimensions ow oh width height false); [ reflexivity | ].
  unfold new_dimensions. destruct H as [-> | ->];
    rewrite ?andb_false_r; reflexivity.
Qed.

Lemma aspect_flag_needs_both_witness :
  resize_image Sample.env "in/a.png" "out/a.png" (Some 2) None true 95 None
               (Sample.start Sample.shelf)
  = resize_image Sample.env "in/a.png" "out/a.png" (Some 2) None false 95 None
                 (Sample.start Sample.shelf).
Proof.
  apply (aspect_flag_needs_both Sample.env "in/a.png" "out/a.png" (Some 2) None 95
           None (Sample.start Sample.shelf)).
  right. reflexivity.
Defined.

(** * The batch, from the folders to the report *)

(** X5.  When the input folder does not exist,
    [batch_resize_images] has already made the output folder; it prints the
    error of [get_images_from_folder] and that no images were found, opens
    no image and returns the summary 0, 0, 0. *)
Theorem missing_input_folder (E : Env) (input_folder output_folder : string)
    (width height : option Z) (maintain_aspect : bool) (quality : Z)
    (output_format : option string) (prefix suffix : string)
    (w : world E) (f : fs E) :
  makedirs E (files E w) output_folder = Ok f ->
  path_exists E f input_folder = false ->
  batch_resize_images E input_folder output_folder width height maintain_aspect
                      quality output_format prefix suffix w
  = (Ok (mkSummary 0 0 0),
     mkWorld E f (printed E w ++ [MsgFolderMissing input_folder;
                                  MsgNoImages input_folder])).
Proof.
  intros Hmk Hex.
  unfold batch_resize_images, get_images_from_folder, mbind, read_fs, print, ret.
  rewrite Hmk. cbn [files printed]. rewrite Hex. cbn [negb resize_listed].
  unfold mbind, print, ret. cbn [files printed].
  rewrite <- app_assoc. reflexivity.
Qed.

Lemma missing_input_folder_witness :
  batch_resize_images Sample.env "nowhere" "out" (Some 2) None true 95 None
                      EmptyString EmptyString (Sample.start Sample.shelf)
  = (Ok (mkSummary 0 0 0),
     mkWorld Sample.env Sample.shelf
       (printed Sample.env (Sample.start Sample.shelf)
        ++ [MsgFolderMissing "nowhere"; MsgNoImages "nowhere"])).
Proof.
  apply (missing_input_folder Sample.env "nowhere" "out" (Some 2) None true 95 None
           EmptyString EmptyString (Sample.start Sample.shelf) Sample.shelf);
    reflexivity.
Defined.

(** X6.  [batch_resize_images] raises exactly when
    [os.makedirs] raises on the output folder or when the output folder is
    made, the input folder exists and [os.listdir] raises on it; the
    exception is theirs.  No exception comes from the images.  When it
    raises, it has printed nothing; when the exception is that of
    [os.listdir], the files are as [os.makedirs] left them.  (What a failing
    [os.makedirs] leaves behind is not stated.) *)
Theorem batch_raises_only_from_setup (E : Env) (input_folder output_folder : string)
    (width height : option Z) (maintain_aspect : bool) (quality : Z)
    (output_format : option string) (prefix suffix : string)
    (w : world E) (e : exn) :
  let r := batch_resize_images E input_folder output_folder width height
                               maintain_aspect quality output_format prefix
                               suffix w in
  (fst r = Raise e
   <->
   makedirs E (files E w) output_folder = Raise e \/
   exists f,
     makedirs E (files E w) output_folder = Ok f /\
     path_exists E f input_folder = true /\
     listdir E f input_folder = Raise e) /\
  (fst r = Raise e -> printed E (snd r) = printed E w) /\
  (forall f,
      makedirs E (files E w) output_folder = Ok f ->
      fst r = Raise e -> files E (snd r) = f).
Proof.
  cbv zeta.
  destruct (batch_resize_images E input_folder output_folder width height
              maintain_aspect quality output_format prefix suffix w)
    as [res w'] eqn:Hr.
  cbn [fst snd]. revert Hr. unfold batch_resize_images, mbind at 1.
  destruct (makedirs E (files E w) output_folder) as [f | e0].
  2: { intros Hr. injection Hr as <- <-. split; [ split | split ].
       - intros H. left. injection H as ->. reflexivity.
       - intros [H | (f & H & _)]; [ | discriminate H ].
         injection H as ->. reflexivity.
       - reflexivity.
       - intros f H. discriminate H. }
  unfold mbind at 1.
  unfold get_images_from_folder, mbind at 1, read_fs. cbn [files printed].
  destruct (path_exists E f input_folder) eqn:Hex; cbn [negb].
  - unfold mbind at 1. cbn [files].
    destruct (listdir E f input_folder) as [names | e0] eqn:Hls.
    + destruct (collect_images_returns E input_folder default_extensions names []
                  (mkWorld E f (printed E w))) as (found & ->).
      destruct (resize_listed_run E found input_folder output_folder width height
                  maintain_aspect quality output_format prefix suffix
                  (mkWorld E f (printed E w)))
        as (outcomes & w1 & w2 & w3 & -> & _).
      intros Hr. injection Hr as <- <-. split; [ split | split ].
      * intros H. discriminate H.
      * intros [H | (f' & H & _ & H')]; [ discriminate H | ].
        injection H as <-. rewrite Hls in H'. discriminate H'.
      * intros H. discriminate H.
      * intros f' _ H. discriminate H.
    + intros Hr. injection Hr as <- <-. cbn [files printed].
      split; [ split | split ].
      * intros H. right. exists f. injection H as <-.
        repeat split; (assumption || reflexivity).
      * intros [H | (f' & H & _ & H')]; [ discriminate H | ].
        injection H as <-. rewrite Hls in H'. injection H' as ->. reflexivity.
      * reflexivity.
      * intros f' H _. injection H as <-. reflexivity.
  - unfold mbind, print, ret. cbn [files printed resize_listed].
    unfold mbind, print, ret.
    intros Hr. injection Hr as <- <-.
    split; [ split | split ].
    + intros H. discriminate H.
    + intros [H | (f' & H & H' & _)]; [ discriminate H | ].
      injection H as <-. rewrite Hex in H'. discriminate H'.
    + intros H. discriminate H.
    + intros f' _ H. discriminate H.
Qed.

(** X22.  For a list of files that is not empty,
    [batch_resize_images] prints, once the files are listed (lines 161-197),
    five header lines, then one line per file,
    in the order of the list and each about its file, then the rule, the
    number of successes and, only if some file failed, the number of
    failures.  The numbers of the summary are the number of success lines
    and the number of the other lines. *)
Theorem report_lines (E : Env) (image_files : list string)
    (input_folder output_folder : string) (width height : option Z)
    (maintain_aspect : bool) (quality : Z) (output_format : option string)
    (prefix suffix : string) (w : world E) :
  image_files <> [] ->
  exists lines s w',
    resize_listed E image_files input_folder output_folder width height
                  maintain_aspect quality output_format prefix suffix w
    = (Ok s, w') /\
    printed E w'
    = (printed E w
       ++ [MsgFound (List.length image_files) input_folder;
           MsgOutputFolder output_folder;
           MsgTargetSize (or_auto width) (or_auto height);
           MsgMaintainAspect maintain_aspect; MsgRule]
       ++ lines
       ++ [MsgRule; MsgCompleted (success s)]
       ++ (if 0 <? failed s then [MsgFailed (failed s)] else []))%list /\
    Forall2 line_about image_files lines /\
    success s = Z.of_nat (List.length (filter is_success_line lines)) /\
    failed s
    = Z.of_nat (List.length
                  (filter (fun msg => negb (is_success_line msg)) lines)).
Proof.
  intros Hne. destruct image_files as [| image_path rest]; [ congruence | ].
  unfold resize_listed. set (image_files := image_path :: rest).
  unfold mbind, print, ret. cbn [files printed].
  match goal with
  | |- context [resize_each E image_files ?o ?wd ?ht ?ma ?q ?f ?p ?s 0 0 ?w1] =>
    destruct (resize_each_lines E image_files o wd ht ma q f p s 0 0 w1)
      as (lines & w2 & -> & Hp & Hl)
  end.
  rewrite !Z.add_0_l. cbn [printed] in Hp.
  exists lines.
  destruct (0 <? Z.of_nat (List.length
                             (filter (fun msg => negb (is_success_line msg)) lines)))
    eqn:Hfail; eexists _, _; (split; [ reflexivity | ]);
    cbn [printed success failed]; rewrite ?Hfail, Hp, <- ?app_assoc;
    repeat split; try assumption; cbn [app]; rewrite <- ?app_assoc; reflexivity.
Qed.

Lemma report_lines_witness :
  exists lines s w',
    resize_listed Sample.env ["in/a.png"; "in/broken.gif"]%string "in" "out"
                  (Some 2) None true 95 None EmptyString EmptyString
                  (Sample.start Sample.shelf)
    = (Ok s, w') /\
    printed Sample.env w'
    = (printed Sample.env (Sample.start Sample.shelf)
       ++ [MsgFound (List.length ["in/a.png"; "in/broken.gif"]%string) "in";
           MsgOutputFolder "out";
           MsgTargetSize (or_auto (Some 2)) (or_auto None);
           MsgMaintainAspect true; MsgRule]
       ++ lines
       ++ [MsgRule; MsgCompleted (success s)]
       ++ (if 0 <? failed s then [MsgFailed (failed s)] else []))%list /\
    Forall2 line_about ["in/a.png"; "in/broken.gif"]%string lines /\
    success s = Z.of_nat (List.length (filter is_success_line lines)) /\
    failed s
    = Z.of_nat (List.length
                  (filter (fun msg => negb (is_success_line msg)) lines)).
Proof.
  apply (report_lines Sample.env ["in/a.png"; "in/broken.gif"]%string "in" "out"
           (Some 2) None true 95 None EmptyString EmptyString
           (Sample.start Sample.shelf)).
  discriminate.
Defined.

(** X7.  When the output folder can be made and the input
    folder listed, [batch_resize_images] returns a summary whose total is
    the number of names of the listing that are regular files with one of
    the seven default extensions: other files and sub-folders do not
    count. *)
Theorem total_counts_listed_images (E : Env) (input_folder output_folder : string)
    (width height : option Z) (maintain_aspect : bool) (quality : Z)
    (output_format : option string) (prefix suffix : string)
    (w : world E) (f : fs E) (names : list string) :
  makedirs E (files E w) output_folder = Ok f ->
  path_exists E f input_folder = true ->
  listdir E f input_folder = Ok names ->
  exists s w',
    batch_resize_images E input_folder output_folder width height maintain_aspect
                        quality output_format prefix suffix w = (Ok s, w') /\
    total s
    = Z.of_nat
        (List.length
           (filter (fun filename =>
                      isfile E f (OsPath.join input_folder filename)
                      && string_in (lower (snd (OsPath.splitext filename)))
                                   default_extensions)
                   names)).
Proof.
  intros Hmk Hex Hls. unfold batch_resize_images, mbind at 1. rewrite Hmk.
  unfold mbind at 1.
  rewrite (get_images_from_folder_filter E input_folder None names
             (mkWorld E f (printed E w)) Hex Hls).
  cbn [files].
  match goal with
  | |- context [resize_listed E ?l ?i ?o ?wd ?ht ?ma ?q ?fm ?p ?sf ?w0] =>
    destruct (resize_listed_run E l i o wd ht ma q fm p sf w0)
      as (outcomes & w1 & w2 & w' & Hrun & _)
  end.
  rewrite Hrun. eexists _, _. split; [ reflexivity | ].
  cbn [total]. rewrite length_map. reflexivity.
Qed.

Lemma total_counts_listed_images_witness :
  exists s w',
    batch_resize_images Sample.env "in" "out" (Some 2) None true 95 None
                        EmptyString EmptyString (Sample.start Sample.shelf)
    = (Ok s, w') /\
    total s
    = Z.of_nat
        (List.length
           (filter (fun filename =>
                      isfile Sample.env Sample.shelf (OsPath.join "in" filename)
                      && string_in (lower (snd (OsPath.splitext filename)))
                                   default_extensions)
                   ["a.png"; "notes.txt"; "broken.gif"; "photo.jpeg"]%string)).
Proof.
  apply (total_counts_listed_images Sample.env "in" "out" (Some 2) None true 95 None
           EmptyString EmptyString (Sample.start Sample.shelf) Sample.shelf
           ["a.png"; "notes.txt"; "broken.gif"; "photo.jpeg"]%string);
    reflexivity.
Defined.

(** * The command line *)

(** X23.  With a dimension given and a quality below 1 or
    above 100, [main] leaves through [parser.error] with the message about
    the quality before anything is done: no folder is made, nothing is
    printed.  The requested format plays no part in the check. *)
Theorem quality_out_of_range_rejected (E : Env) (args : cli_args) (w : world E) :
  truthy (args_width args) = true \/ truthy (args_height args) = true ->
  args_quality args < 1 \/ 100 < args_quality args ->
  main E args w = (Raise (SystemExit "Quality must be between 1 and 100"), w).
Proof.
  intros Hdim H. unfold main, raise.
  replace (negb (truthy (args_width args)) && negb (truthy (args_height args)))
    with false by (destruct Hdim as [-> | ->]; rewrite ?andb_false_r; reflexivity).
  replace ((args_quality args <? 1) || (100 <? args_quality args)) with true;
    [ reflexivity | ].
  symmetry. apply orb_true_iff. destruct H; [ left | right ]; apply Z.ltb_lt; lia.
Qed.

Lemma quality_out_of_range_rejected_witness :
  main Sample.env
    (mkArgs "in" "out" (Some 800) None false 0 (Some "PNG"%string)
            EmptyString EmptyString)
    (Sample.start Sample.shelf)
  = (Raise (SystemExit "Quality must be between 1 and 100"),
     Sample.start Sample.shelf).
Proof.
  apply (quality_out_of_range_rejected Sample.env
           (mkArgs "in" "out" (Some 800) None false 0 (Some "PNG"%string)
                   EmptyString EmptyString)
           (Sample.start Sample.shelf)).
  - left. reflexivity.
  - left. reflexivity.
Defined.

(** X24.  With valid arguments, [main] returns normally as
    soon as the output folder can be made and the input folder is missing or
    can be listed: images that fail, and a missing input folder, do not make
    the program fail. *)
Theorem failed_images_do_not_fail_main (E : Env) (args : cli_args)
    (w : world E) (f : fs E) :
  truthy (args_width args) = true \/ truthy (args_height args) = true ->
  1 <= args_quality args <= 100 ->
  makedirs E (files E w) (args_output args) = Ok f ->
  (path_exists E f (args_input args) = false
   \/ exists names, listdir E f (args_input args) = Ok names) ->
  exists w', main E args w = (Ok tt, w').
Proof.
  intros Hdim Hq Hmk Hls. unfold main.
  replace (negb (truthy (args_width args)) && negb (truthy (args_height args)))
    with false by (destruct Hdim as [-> | ->]; rewrite ?andb_false_r; reflexivity).
  replace ((args_quality args <? 1) || (100 <? args_quality args)) with false.
  2: { symmetry. apply orb_false_iff. split; apply Z.ltb_ge; lia. }
  destruct (batch_resize_images_returns E (args_input args) (args_output args)
              (args_width args) (args_height args) (negb (args_no_aspect args))
              (args_quality args) (args_format args) (args_prefix args)
              (args_suffix args) w f Hmk Hls) as (s & w' & Hrun).
  exists w'. unfold mbind, ret. rewrite Hrun. reflexivity.
Qed.

Lemma failed_images_do_not_fail_main_witness :
  exists w',
    main Sample.env
      (mkArgs "in" "out" None (Some (-3)) false 95 (Some "PNG"%string)
              EmptyString EmptyString)
      (Sample.start Sample.shelf)
    = (Ok tt, w').
Proof.
  apply (failed_images_do_not_fail_main Sample.env
           (mkArgs "in" "out" None (Some (-3)) false 95 (Some "PNG"%string)
                   EmptyString EmptyString)
           (Sample.start Sample.shelf) Sample.shelf);
    [ right; reflexivity | split; discriminate | reflexivity | ].
  right. eexists. reflexivity.
Defined.

(** * What is written as JPEG *)

Lemma map2_length {A B : Type} (f : A -> B -> A) (dst : list A) (src : list B) :
  List.length (Pillow.map2 f dst src) = List.length dst.
Proof.
  revert src. induction dst as [| d dst IH]; intros src; [ reflexivity | ].
  destruct src as [| s src]; [ reflexivity | ]. cbn. rewrite IH. reflexivity.
Qed.

(** X19.  What the JPEG branch hands to [save] never has mode
    RGBA, LA or P, and has the size of the resized image.  An image of one
    of these three modes becomes an RGB image with one pixel per position;
    an image of any other mode (L, RGB, CMYK, ...) is passed on unchanged. *)
Theorem jpeg_rgb_no_alpha (im : image) :
  string_in (mode (jpeg_rgb im)) ["RGBA"; "LA"; "P"]%string = false /\
  size (jpeg_rgb im) = size im /\
  (string_in (mode im) ["RGBA"; "LA"; "P"]%string = true ->
   mode (jpeg_rgb im) = "RGB"%string /\ well_formed (jpeg_rgb im)) /\
  (string_in (mode im) ["RGBA"; "LA"; "P"]%string = false -> jpeg_rgb im = im).
Proof.
  destruct im as [sz fmt [px | px | palette px | px | px | [] px]];
    (split; [ reflexivity | split; [ reflexivity | split ] ]);
    intros H; try discriminate H; try reflexivity.
  all: split; [ reflexivity | ].
  all: unfold well_formed, jpeg_rgb, Pillow.paste, Pillow.new_rgb;
    cbn [mode data string_in existsb String.eqb Ascii.eqb Bool.eqb orb size
         Pillow.convert_rgba pixel_count];
    rewrite map2_length, repeat_length; reflexivity.
Qed.

(** ** Compositing over white *)

Lemma blend8_white_bounds (a s : Z) :
  byte a -> byte s -> s <= Pillow.blend8 a 255 s <= 255.
Proof.
  unfold byte, Pillow.blend8, Pillow.div255. intros Ha Hs.
  rewrite !Z.shiftr_div_pow2 by lia. change (2 ^ 8) with 256.
  assert (Hv : 255 * s <= 255 * (255 - a) + s * a <= 65025) by nia.
  set (v := 255 * (255 - a) + s * a) in *.
  Z.div_mod_to_equations. lia.
Qed.

Lemma blend8_opaque (d s : Z) : byte s -> Pillow.blend8 255 d s = s.
Proof.
  unfold byte, Pillow.blend8, Pillow.div255. intros Hs.
  rewrite !Z.shiftr_div_pow2 by lia. change (2 ^ 8) with 256.
  replace (d * (255 - 255) + s * 255) with (255 * s) by lia.
  Z.div_mod_to_equations. lia.
Qed.

(** X20.  Flattening an RGBA image whose pixels are all
    opaque (alpha 255) drops the alpha channel and keeps every colour as it
    is. *)
Theorem opaque_pixels_keep_colour (sz : Z * Z) (fmt : option string)
    (px : list rgba) :
  well_formed (mkImage sz fmt (RasterRGBA px)) ->
  Forall (fun p : rgba =>
            let '(r, g, b, a) := p in
            byte r /\ byte g /\ byte b /\ a = 255) px ->
  jpeg_rgb (mkImage sz fmt (RasterRGBA px))
  = mkImage sz None (RasterRGB (map fst px)).
Proof.
  intros Hwf Hpx. rewrite jpeg_rgb_rgba by assumption. do 2 f_equal.
  apply map_ext_in. intros [[[r g] b] a] Hin.
  rewrite Forall_forall in Hpx. specialize (Hpx _ Hin). cbn in Hpx.
  destruct Hpx as (Hr & Hg & Hb & ->).
  unfold Pillow.blend, Pillow.white. cbn [fst].
  rewrite !blend8_opaque by assumption. reflexivity.
Qed.

Lemma opaque_pixels_keep_colour_witness :
  jpeg_rgb (mkImage (2, 1) (Some "PNG"%string)
                    (RasterRGBA [(10, 20, 30, 255); (200, 100, 0, 255)]))
  = mkImage (2, 1) None
            (RasterRGB (map fst [(10, 20, 30, 255); (200, 100, 0, 255)])).
Proof.
  apply (opaque_pixels_keep_colour (2, 1) (Some "PNG"%string)
           [(10, 20, 30, 255); (200, 100, 0, 255)]).
  - reflexivity.
  - repeat constructor; unfold byte; lia.
Defined.

(** X21.  Flattening an RGBA image over white never
    darkens a pixel and stays in range: each channel of the result lies
    between the channel of the source and 255. *)
Theorem composite_between_source_and_white (sz : Z * Z) (fmt : option string)
    (px : list rgba) :
  well_formed (mkImage sz fmt (RasterRGBA px)) ->
  Forall (fun p : rgba =>
            let '(r, g, b, a) := p in
            byte r /\ byte g /\ byte b /\ byte a) px ->
  exists out,
    jpeg_rgb (mkImage sz fmt (RasterRGBA px)) = mkImage sz None (RasterRGB out) /\
    Forall2 (fun (p : rgba) (q : rgb) =>
               rgb_le (fst p) q /\ rgb_le q Pillow.white) px out.
Proof.
  intros Hwf Hpx. rewrite jpeg_rgb_rgba by assumption.
  eexists. split; [ reflexivity | ]. clear Hwf.
  induction Hpx as [| [[[r g] b] a] rest (Hr & Hg & Hb & Ha) _ IH];
    cbn [map]; constructor; [ | exact IH ].
  unfold Pillow.blend, Pillow.white, rgb_le. cbn [fst].
  pose proof (blend8_white_bounds a r Ha Hr).
  pose proof (blend8_white_bounds a g Ha Hg).
  pose proof (blend8_white_bounds a b Ha Hb).
  repeat split; lia.
Qed.

Lemma composite_between_source_and_white_witness :
  exists out,
    jpeg_rgb (mkImage (2, 1) (Some "PNG"%string)
                      (RasterRGBA [(10, 20, 30, 128); (200, 100, 0, 7)]))
    = mkImage (2, 1) None (RasterRGB out) /\
    Forall2 (fun (p : rgba) (q : rgb) =>
               rgb_le (fst p) q /\ rgb_le q Pillow.white)
            [(10, 20, 30, 128); (200, 100, 0, 7)] out.
Proof.
  apply (composite_between_source_and_white (2, 1) (Some "PNG"%string)
           [(10, 20, 30, 128); (200, 100, 0, 7)]).
  - reflexivity.
  - repeat constructor; unfold byte; lia.
Defined.

(** * The scaled side

    The side the resolver computes, for every way of asking: it is the
    exact proportional size truncated, or one less when that size is an
    integer. *)

(** [int(n * r)] for [r] the rounded ratio of [a] to [b]. *)
Lemma mul_side (a b n : Z) (fa : spec_float) (va : Q) :
  0 < a -> 0 < b < 2 ^ 51 -> 0 < n -> n * a < 2 ^ 51 ->
  normal fa va -> approx va (ratio a b) ->
  exists z,
    (forall (B : Type) (k : Z -> result B),
        (scaled <- PyFloat.int_mul_float n fa ;;
         side <- PyFloat.to_int scaled ;;
         k side) = k z) /\
    n * a / b - 1 <= z <= n * a / b /\
    ((n * a) mod b <> 0 -> z = n * a / b).
Proof.
  intros Ha Hb Hn HT Hna [Ha1 Ha2].
  assert (HaT : a <= n * a) by nia.
  assert (HnT : n <= n * a) by nia.
  pose proof (ratio_spec a b ltac:(lia)) as Hv. set (v := ratio a b) in *.
  assert (Hbq : (1 <= inject_Z b <= 2251799813685248 # 1)%Q).
  { split; [ apply (inject_Z_le 1); lia | ].
    apply (inject_Z_le b (2 ^ 51 - 1 + 1)); lia. }
  assert (Haq : (1 <= inject_Z a)%Q) by (apply (inject_Z_le 1); lia).
  assert (Hnq : (1 <= inject_Z n)%Q) by (apply (inject_Z_le 1); lia).
  assert (HTq : (inject_Z n * inject_Z a <= 2251799813685247 # 1)%Q).
  { rewrite <- inject_Z_mult. apply (inject_Z_le _ (2 ^ 51 - 1)). lia. }
  unfold eps in Ha1, Ha2.
  pose proof pow2_m1000_small as Hsmall. pose proof pow2_1000_big as Hbig.
  assert (Hvpos : (0 < v)%Q) by nra.
  assert (Hvlo : ((1 # 2251799813685248) <= v)%Q) by nra.
  assert (Hvhi : (v <= inject_Z a)%Q) by nra.
  assert (Hprod : (inject_Z n * v <= 2251799813685247 # 1)%Q) by nra.
  assert (Hvalo : ((1 # 4503599627370496) <= va)%Q) by nra.
  assert (Hnva : (inject_Z n * va <= 4503599627370496 # 1)%Q) by nra.
  destruct (int_mul_float_correct n fa va) as (fy & vy & Hmul & Hny & [Hy1 Hy2]);
    [ split; [ lia | apply Z.lt_trans with (2 ^ 51); [ lia | reflexivity ] ]
    | assumption
    | split; nra | ].
  unfold eps in Hy1, Hy2.
  destruct (to_int_floor fy vy Hny) as (z & Hint & Hz1 & Hz2).
  exists z. split.
  { intros B k. rewrite Hmul. cbn [bind]. rewrite Hint. reflexivity. }
  set (T := n * a) in *.
  assert (HTT : (inject_Z T == inject_Z n * inject_Z a)%Q)
    by (unfold T; rewrite inject_Z_mult; reflexivity).
  assert (Htb : (inject_Z n * v * inject_Z b == inject_Z T)%Q).
  { rewrite HTT, <- Hv. ring. }
  assert (HTq' : (1 <= inject_Z T <= 2251799813685247 # 1)%Q)
    by (rewrite HTT; nra).
  set (up := ((1 + (1 # 9007199254740992)) * (1 + (1 # 9007199254740992)))%Q).
  set (down := ((1 - (1 # 9007199254740992)) * (1 - (1 # 9007199254740992)))%Q).
  assert (Hyhi : (vy <= up * (inject_Z n * v))%Q) by (unfold up; nra).
  assert (Hylo : (down * (inject_Z n * v) <= vy)%Q) by (unfold down; nra).
  assert (Hyb1 : (vy * inject_Z b <= up * inject_Z T)%Q).
  { rewrite <- Htb.
    setoid_replace (up * (inject_Z n * v * inject_Z b))%Q
      with (up * (inject_Z n * v) * inject_Z b)%Q by ring.
    apply Qmult_le_r_pos; [ lra | assumption ]. }
  assert (Hyb2 : (down * inject_Z T <= vy * inject_Z b)%Q).
  { rewrite <- Htb.
    setoid_replace (down * (inject_Z n * v * inject_Z b))%Q
      with (down * (inject_Z n * v) * inject_Z b)%Q by ring.
    apply Qmult_le_r_pos; [ lra | assumption ]. }
  assert (Hzb1 : (inject_Z z * inject_Z b <= vy * inject_Z b)%Q)
    by (apply Qmult_le_r_pos; lra).
  assert (Hzb2 : (vy * inject_Z b < (inject_Z z + 1) * inject_Z b)%Q)
    by (apply Qmult_lt_compat_r; lra).
  unfold up in Hyb1. unfold down in Hyb2.
  assert (Hup : z * b < T + 1).
  { rewrite Zlt_Qlt, inject_Z_plus, inject_Z_mult.
    change (inject_Z 1) with 1%Q. lra. }
  assert (Hdown : T < (z + 1) * b + 1).
  { rewrite Zlt_Qlt, inject_Z_plus, !inject_Z_mult, inject_Z_plus.
    change (inject_Z 1) with 1%Q. lra. }
  pose proof (Z.div_mod T b ltac:(lia)) as Hdm.
  pose proof (Z.mod_pos_bound T b ltac:(lia)) as Hmod.
  set (q := T / b) in *. set (r := T mod b) in *.
  split; [ split; nia | intros Hr; nia ].
Qed.

(** [int(n / r)] for [r] the rounded ratio of [a] to [b]. *)
Lemma div_side (a b n : Z) (fa : spec_float) (va : Q) :
  0 < a < 2 ^ 51 -> 0 < b -> 0 < n -> n * b < 2 ^ 51 ->
  normal fa va -> approx va (ratio a b) ->
  exists z,
    (forall (B : Type) (k : Z -> result B),
        (scaled <- PyFloat.int_div_float n fa ;;
         side <- PyFloat.to_int scaled ;;
         k side) = k z) /\
    n * b / a - 1 <= z <= n * b / a /\
    ((n * b) mod a <> 0 -> z = n * b / a).
Proof.
  intros Ha Hb Hn HT Hna [Ha1 Ha2].
  assert (HbT : b <= n * b) by nia.
  assert (HnT : n <= n * b) by nia.
  pose proof (ratio_spec a b ltac:(lia)) as Hv.
  pose proof (ratio_bounds a b Ha ltac:(lia)) as [Hvlo Hvhi].
  set (v := ratio a b) in *.
  pose proof (size_as_rational a Ha) as [Haq1 Haq2].
  assert (Hbq : (1 <= inject_Z b)%Q) by (apply (inject_Z_le 1); lia).
  assert (Hnq : (1 <= inject_Z n <= 2251799813685247 # 1)%Q)
    by (apply size_as_rational; lia).
  unfold eps in Ha1, Ha2.
  pose proof pow2_m1000_small as Hsmall. pose proof pow2_1000_big as Hbig.
  assert (Hvapos : (0 < va)%Q) by lra.
  assert (Hvalo : ((1 # 4503599627370496) <= va)%Q) by lra.
  assert (Hvahi : (va <= 4503599627370496 # 1)%Q) by lra.
  pose proof (Qdiv_mult_cancel (inject_Z n) va Hvapos) as Hq.
  set (q := (inject_Z n / va)%Q) in *.
  assert (Hqpos : (0 < q)%Q) by nra.
  set (T := n * b) in *.
  assert (HTT : (inject_Z T == inject_Z n * inject_Z b)%Q)
    by (unfold T; rewrite inject_Z_mult; reflexivity).
  assert (HTq : (1 <= inject_Z T <= 2251799813685247 # 1)%Q).
  { split; [ apply (inject_Z_le 1); lia | ].
    apply (inject_Z_le T (2 ^ 51 - 1)); lia. }
  (* q * a against T = n * b *)
  assert (Q1 : ((1 - (1 # 9007199254740992)) * (q * inject_Z a) <= inject_Z T)%Q).
  { rewrite HTT, <- Hq, <- Hv.
    setoid_replace ((1 - (1 # 9007199254740992)) * (q * (v * inject_Z b)))%Q
      with (q * ((1 - (1 # 9007199254740992)) * v) * inject_Z b)%Q by ring.
    apply Qmult_le_r_pos; [ lra | ].
    apply Qmult_le_l; [ assumption | lra ]. }
  assert (Q2 : (inject_Z T <= (1 + (1 # 9007199254740992)) * (q * inject_Z a))%Q).
  { rewrite HTT, <- Hq, <- Hv.
    setoid_replace ((1 + (1 # 9007199254740992)) * (q * (v * inject_Z b)))%Q
      with (q * ((1 + (1 # 9007199254740992)) * v) * inject_Z b)%Q by ring.
    apply Qmult_le_r_pos; [ lra | ].
    apply Qmult_le_l; [ assumption | lra ]. }
  assert (Hqa : (q <= q * inject_Z a)%Q).
  { setoid_replace q with (q * 1)%Q at 1 by ring.
    apply Qmult_le_l; [ assumption | lra ]. }
  assert (Hq3 : ((1 # 4503599627370496) <= q)%Q).
  { apply (Qmult_le_r _ _ va); [ lra | ]. rewrite Hq. nra. }
  destruct (int_div_float_correct n fa va q) as (fy & vy & Hdiv & Hny & [Hy1 Hy2]);
    [ split; [ lia | apply Z.lt_trans with (2 ^ 51); [ lia | reflexivity ] ]
    | assumption | assumption
    | split; lra | ].
  unfold eps in Hy1, Hy2.
  destruct (to_int_floor fy vy Hny) as (z & Hint & Hz1 & Hz2).
  exists z. split.
  { intros B k. rewrite Hdiv. cbn [bind]. rewrite Hint. reflexivity. }
  assert (Hya1 : ((1 - (1 # 9007199254740992)) * (q * inject_Z a)
                  <= vy * inject_Z a)%Q).
  { setoid_replace ((1 - (1 # 9007199254740992)) * (q * inject_Z a))%Q
      with ((1 - (1 # 9007199254740992)) * q * inject_Z a)%Q by ring.
    apply Qmult_le_r_pos; [ lra | assumption ]. }
  assert (Hya2 : (vy * inject_Z a
                  <= (1 + (1 # 9007199254740992)) * (q * inject_Z a))%Q).
  { setoid_replace ((1 + (1 # 9007199254740992)) * (q * inject_Z a))%Q
      with ((1 + (1 # 9007199254740992)) * q * inject_Z a)%Q by ring.
    apply Qmult_le_r_pos; [ lra | assumption ]. }
  assert (Hza1 : (inject_Z z * inject_Z a <= vy * inject_Z a)%Q)
    by (apply Qmult_le_r_pos; lra).
  assert (Hza2 : (vy * inject_Z a < (inject_Z z + 1) * inject_Z a)%Q)
    by (apply Qmult_lt_compat_r; lra).
  set (QA := (q * inject_Z a)%Q) in *. set (VA := (vy * inject_Z a)%Q) in *.
  assert (Hup : z * a < T + 1).
  { rewrite Zlt_Qlt, inject_Z_plus, inject_Z_mult.
    change (inject_Z 1) with 1%Q. lra. }
  assert (Hdown : T < (z + 1) * a + 1).
  { rewrite Zlt_Qlt, inject_Z_plus, !inject_Z_mult, inject_Z_plus.
    change (inject_Z 1) with 1%Q. lra. }
  pose proof (Z.div_mod T a ltac:(lia)) as Hdm.
  pose proof (Z.mod_pos_bound T a ltac:(lia)) as Hmod.
  set (d := T / a) in *. set (r := T mod a) in *.
  split; [ split; nia | intros Hr; nia ].
Qed.

(** The sides of the box compared through rounded ratios: the comparison of
    the doubles agrees with the comparison of the products, up to equality. *)
Lemma ratio_order (w h W H : Z) (va vb : Q) :
  0 < w -> 0 < h -> 0 < W -> 0 < H ->
  W * h < 2 ^ 51 -> H * w < 2 ^ 51 ->
  approx va (ratio w h) -> approx vb (ratio W H) ->
  ((va < vb)%Q -> H * w <= W * h) /\ ((vb <= va)%Q -> W * h <= H * w).
Proof.
  intros Hw Hh HW HH HX HY [Ha1 Ha2] [Hb1 Hb2].
  pose proof (ratio_spec w h Hh) as Hv1. pose proof (ratio_spec W H HH) as Hv2.
  set (v1 := ratio w h) in *. set (v2 := ratio W H) in *.
  unfold eps in *.
  assert (Hhq : (0 < inject_Z h)%Q) by (apply (inject_Z_lt 0); assumption).
  assert (HHq : (0 < inject_Z H)%Q) by (apply (inject_Z_lt 0); assumption).
  assert (Hpos : (0 < inject_Z h * inject_Z H)%Q)
    by (apply Qmult_lt_0_compat; assumption).
  assert (E1 : forall c : Q,
             (c * v1 * (inject_Z h * inject_Z H)
              == c * (inject_Z H * inject_Z w))%Q).
  { intros c. rewrite <- Hv1. ring. }
  assert (E2 : forall c : Q,
             (c * v2 * (inject_Z h * inject_Z H)
              == c * (inject_Z W * inject_Z h))%Q).
  { intros c. rewrite <- Hv2. ring. }
  assert (HXq : (1 <= inject_Z W * inject_Z h <= 2251799813685247 # 1)%Q).
  { rewrite <- inject_Z_mult. split; [ apply (inject_Z_le 1); nia | ].
    apply (inject_Z_le _ (2 ^ 51 - 1)); lia. }
  assert (HYq : (1 <= inject_Z H * inject_Z w <= 2251799813685247 # 1)%Q).
  { rewrite <- inject_Z_mult. split; [ apply (inject_Z_le 1); nia | ].
    apply (inject_Z_le _ (2 ^ 51 - 1)); lia. }
  split; intros Hcmp.
  - destruct (Z_le_gt_dec (H * w) (W * h)) as [L | G]; [ assumption | exfalso ].
    assert (Gq : (inject_Z W * inject_Z h + 1 <= inject_Z H * inject_Z w)%Q).
    { rewrite <- !inject_Z_mult. change 1%Q with (inject_Z 1).
      rewrite <- inject_Z_plus. apply inject_Z_le. lia. }
    assert (S1 : ((1 - (1 # 9007199254740992)) * v1
                  < (1 + (1 # 9007199254740992)) * v2)%Q) by lra.
    apply (Qmult_lt_compat_r _ _ _ Hpos) in S1. rewrite E1, E2 in S1.
    set (X := (inject_Z W * inject_Z h)%Q) in *.
    set (Y := (inject_Z H * inject_Z w)%Q) in *. lra.
  - destruct (Z_le_gt_dec (W * h) (H * w)) as [L | G]; [ assumption | exfalso ].
    assert (Gq : (inject_Z H * inject_Z w + 1 <= inject_Z W * inject_Z h)%Q).
    { rewrite <- !inject_Z_mult. change 1%Q with (inject_Z 1).
      rewrite <- inject_Z_plus. apply inject_Z_le. lia. }
    assert (S1 : ((1 - (1 # 9007199254740992)) * v2
                  <= (1 + (1 # 9007199254740992)) * v1)%Q) by lra.
    apply (Qmult_le_r_pos _ _ (inject_Z h * inject_Z H)) in S1; [ | lra ].
    rewrite E1, E2 in S1.
    set (X := (inject_Z W * inject_Z h)%Q) in *.
    set (Y := (inject_Z H * inject_Z w)%Q) in *. lra.
Qed.

(** Both sides given, aspect ratio kept: which side binds, and the other. *)
Lemma box_scaled (w h W H : Z) :
  0 < w < 2 ^ 51 -> 0 < h < 2 ^ 51 -> 0 < W -> 0 < H ->
  W * h < 2 ^ 51 -> H * w < 2 ^ 51 ->
  exists nw nh,
    new_dimensions w h (Some W) (Some H) true = Ok (Some (nw, nh)) /\
    ((nh = H /\ H * w <= W * h /\
      H * w / h - 1 <= nw <= H * w / h /\
      ((H * w) mod h <> 0 -> nw = H * w / h))
     \/
     (nw = W /\ W * h <= H * w /\
      W * h / w - 1 <= nh <= W * h / w /\
      ((W * h) mod w <> 0 -> nh = W * h / w))).
Proof.
  intros Hw Hh HW HH HX HY.
  assert (HWb : 0 < W < 2 ^ 51) by nia.
  assert (HHb : 0 < H < 2 ^ 51) by nia.
  unfold new_dimensions. cbn [truthy arg].
  nonzero W.
  nonzero H.
  cbn [negb andb].
  pose proof (ratio_spec w h ltac:(lia)) as Hv1.
  pose proof (ratio_spec W H ltac:(lia)) as Hv2.
  destruct (int_truediv_correct w h (ratio w h)
              (below_2_1000 w Hw) (below_2_1000 h Hh) Hv1)
    as (fa & va & -> & Hna & Happa).
  destruct (int_truediv_correct W H (ratio W H)
              (below_2_1000 W HWb) (below_2_1000 H HHb) Hv2)
    as (fb & vb & -> & Hnb & Happb).
  cbn [bind].
  destruct (ratio_order w h W H va vb) as [Hlt Hge]; try assumption; try lia.
  unfold PyFloat.gt. pose proof (SFltb_normal fa fb va vb Hna Hnb) as Hcmp.
  destruct (SFltb fa fb).
  - destruct (mul_side w h H fa va) as (z & Hrun & Hz1 & Hz2);
      try assumption; try lia.
    exists z, H. split.
    + apply (Hrun _ (fun side => Ok (Some (side, H)))).
    + left. repeat split; auto; lia.
  - destruct (div_side w h W fa va) as (z & Hrun & Hz1 & Hz2);
      try assumption; try lia.
    exists W, z. split.
    + apply (Hrun _ (fun side => Ok (Some (W, side)))).
    + right. repeat split; auto; lia.
Qed.

(** X17.  With only the height H given, for an image of size
    (w, h) with h and H * w below 2^51, the new height is H and the new width
    is int(H * (w / h)) in double precision: the floor of H * w / h when h
    does not divide H * w, that quotient or one less when it does. *)
Theorem height_only_dimensions (w h H : Z) (maintain_aspect : bool) :
  0 < w -> 0 < h < 2 ^ 51 -> 0 < H -> H * w < 2 ^ 51 ->
  exists nw,
    new_dimensions w h None (Some H) maintain_aspect = Ok (Some (nw, H)) /\
    H * w / h - 1 <= nw <= H * w / h /\
    ((H * w) mod h <> 0 -> nw = H * w / h).
Proof. exact (height_only_width w h H maintain_aspect). Qed.

Lemma height_only_dimensions_witness :
  exists nw,
    new_dimensions 1600 900 None (Some 450) false = Ok (Some (nw, 450)) /\
    450 * 1600 / 900 - 1 <= nw <= 450 * 1600 / 900 /\
    ((450 * 1600) mod 900 <> 0 -> nw = 450 * 1600 / 900).
Proof.
  apply (height_only_dimensions 1600 900 450 false);
    [ reflexivity | split; reflexivity | reflexivity | reflexivity ].
Defined.

(** X18.  With both sides given and the aspect ratio kept, for
    sizes and products W * h and H * w below 2^51: either the height binds,
    which happens only if H * w <= W * h, and the width is H * w / h
    truncated (or one less when the division is exact); or the width binds,
    which happens only if W * h <= H * w, and the height is W * h / w
    truncated (or one less when the division is exact). *)
Theorem box_binding_side (w h W H : Z) :
  0 < w < 2 ^ 51 -> 0 < h < 2 ^ 51 -> 0 < W -> 0 < H ->
  W * h < 2 ^ 51 -> H * w < 2 ^ 51 ->
  exists nw nh,
    new_dimensions w h (Some W) (Some H) true = Ok (Some (nw, nh)) /\
    ((nh = H /\ H * w <= W * h /\
      H * w / h - 1 <= nw <= H * w / h /\
      ((H * w) mod h <> 0 -> nw = H * w / h))
     \/
     (nw = W /\ W * h <= H * w /\
      W * h / w - 1 <= nh <= W * h / w /\
      ((W * h) mod w <> 0 -> nh = W * h / w))).
Proof. exact (box_scaled w h W H). Qed.

Lemma box_binding_side_witness :
  exists nw nh,
    new_dimensions 1000 500 (Some 800) (Some 1080) true = Ok (Some (nw, nh)) /\
    ((nh = 1080 /\ 1080 * 1000 <= 800 * 500 /\
      1080 * 1000 / 500 - 1 <= nw <= 1080 * 1000 / 500 /\
      ((1080 * 1000) mod 500 <> 0 -> nw = 1080 * 1000 / 500))
     \/
     (nw = 800 /\ 800 * 500 <= 1080 * 1000 /\
      800 * 500 / 1000 - 1 <= nh <= 800 * 500 / 1000 /\
      ((800 * 500) mod 1000 <> 0 -> nh = 800 * 500 / 1000))).
Proof.
  apply (box_binding_side 1000 500 800 1080);
    first [ split; reflexivity | reflexivity ].
Defined.

(** A box of the size of the image: the two ratios are the same double, so
    the width binds. *)
Lemma own_size (w h : Z) :
  0 < w < 2 ^ 51 -> 0 < h -> w * h < 2 ^ 51 ->
  exists nh,
    new_dimensions w h (Some w) (Some h) true = Ok (Some (w, nh)) /\
    h - 1 <= nh <= h.
Proof.
  intros Hw Hh HT.
  assert (Hhb : 0 < h < 2 ^ 51) by nia.
  unfold new_dimensions. cbn [truthy arg].
  nonzero w.
  nonzero h.
  cbn [negb andb].
  pose proof (ratio_spec w h ltac:(lia)) as Hv.
  destruct (int_truediv_correct w h (ratio w h)
              (below_2_1000 w Hw) (below_2_1000 h Hhb) Hv)
    as (fa & va & -> & Hna & Happ).
  cbn [bind]. unfold PyFloat.gt.
  pose proof (SFltb_normal fa fa va va Hna Hna) as Hcmp.
  destruct (SFltb fa fa); [ exfalso; lra | ].
  destruct (div_side w h w fa va) as (z & Hrun & Hz & _);
    try assumption; try lia.
  exists z. split.
  - apply (Hrun _ (fun side => Ok (Some (w, side)))).
  - replace (w * h / w) with h in Hz
      by (rewrite Z.mul_comm; symmetry; apply Z.div_mul; lia).
    exact Hz.
Qed.

(** The height does lose a pixel for some images. *)
Lemma own_size_not_always_kept :
  new_dimensions 1 93 (Some 1) (Some 93) true = Ok (Some (1, 92)).
Proof. vm_compute. reflexivity. Qed.

(** X26.  Asked to fit an image in a box of its own size (sides
    and area below 2^51), the resolver keeps the width and returns the
    height or one pixel less: the two ratios are the same double, so the
    width binds, and the height goes through a division and a truncation. *)
Theorem own_size_box (w h : Z) :
  0 < w < 2 ^ 51 -> 0 < h -> w * h < 2 ^ 51 ->
  exists nh,
    new_dimensions w h (Some w) (Some h) true = Ok (Some (w, nh)) /\
    h - 1 <= nh <= h.
Proof. exact (own_size w h). Qed.

Lemma own_size_box_witness :
  exists nh,
    new_dimensions 1 93 (Some 1) (Some 93) true = Ok (Some (1, nh)) /\
    93 - 1 <= nh <= 93.
Proof.
  apply (own_size_box 1 93); [ split; reflexivity | reflexivity | reflexivity ].
Defined.

(** * The example script *)

Lemma call_batch_returns (E : Env) input_folder output_folder width height
    maintain_aspect quality output_format prefix suffix (s : script_state E) :
  (forall f p, exists f', makedirs E f p = Ok f') ->
  (forall f p, path_exists E f p = false
               \/ exists names, listdir E f p = Ok names) ->
  exists summary w',
    batch_resize_images E input_folder output_folder width height
                        maintain_aspect quality output_format prefix suffix
                        (mkWorld E (script_files E s) [])
    = (Ok summary, w') /\
    call E (batch_resize_images E input_folder output_folder width height
              maintain_aspect quality output_format prefix suffix) s
    = (Ok summary,
       mkScript E (files E w')
                (script_output E s ++ map Reported (printed E w'))).
Proof.
  intros Hmk Hls. unfold call.
  destruct (Hmk (script_files E s) output_folder) as (f & Hf).
  destruct (batch_resize_images_returns E input_folder output_folder width height
              maintain_aspect quality output_format prefix suffix
              (mkWorld E (script_files E s) []) f Hf (Hls f input_folder))
    as (summary & w' & ->).
  eexists _, _. split; reflexivity.
Qed.


